(** * ai-visibility: the content analyzer (src/analyzer/content-analyzer.ts)
      and the command that runs it (src/cli/commands/analyze.ts)

    A shallow embedding of [ContentAnalyzer], of the analyze command and of
    the parts of their runtime they rely on, followed by the properties
    proved about them.

    - JavaScript numbers are IEEE 754 binary64 values ([spec_float] with
      precision 53 and maximal exponent 1024).  Scores, penalties, lengths and
      positions are integers far below 2^53, where binary64 arithmetic is
      exact; they are kept in [Z].  Every fractional computation of the source
      (the weighted sum, the three ratios) is carried out in binary64.
    - JavaScript strings are [string]s; a character of the model stands for
      one code unit.  String literals are transcribed from the source file
      byte for byte.
    - The parsed document is a tree of [node]s; cheerio's selections are lists
      of elements in document order.
    - The HTML parser, the regular-expression engine and [JSON.parse] are
      libraries outside the repository; they are the fields of a [Host].
      What the command asks of Node ([fs], [path]), of chalk and of
      [JSON.stringify] are the fields of a [Cli.System]; the lines it prints
      are returned as a list. *)

From Stdlib Require Import ZArith List String Ascii Bool Lia Arith.
From Stdlib Require Import SpecFloat DecimalString.
From Stdlib Require Import Sorted Permutation.
Import ListNotations.

Set Warnings "-register-all".

Local Open Scope Z_scope.

(* ================================================================== *)
(** ** JavaScript numbers *)

Module JSNumber.

Definition prec : Z := 53.
Definition emax : Z := 1024.

(** A Number value. *)
Definition num : Type := spec_float.

(** Conversion of an integer to the nearest Number: exact below 2^53. *)
Definition Z2SF (z : Z) : num := binary_normalize prec emax z 0 false.

(** The value held by a counter that started at 0 and was incremented [n]
    times with [++]: binary64 addition of 1 is exact up to 2^53, and
    2^53 + 1 rounds back to 2^53. *)
Definition counter (n : nat) : num := Z2SF (Z.min (Z.of_nat n) (2 ^ 53)).

Definition fadd : num -> num -> num := SFadd prec emax.
Definition fmul : num -> num -> num := SFmul prec emax.
Definition fdiv : num -> num -> num := SFdiv prec emax.

(** [x < y] and [x > y]; both are false when an operand is NaN. *)
Definition flt (x y : num) : bool := SFltb x y.
Definition fgt (x y : num) : bool := SFltb y x.

Definition is_finite (x : num) : bool :=
  match x with
  | S754_zero _ | S754_finite _ _ _ => true
  | _ => false
  end.

(** The decimal literal [n/d] of the source, read as the nearest Number. *)
Definition literal (n d : Z) : num := fdiv (Z2SF n) (Z2SF d).

Definition lit_0_25 : num := S754_finite false 4503599627370496 (-54).
Definition lit_0_15 : num := S754_finite false 5404319552844595 (-55).
Definition lit_0_20 : num := S754_finite false 7205759403792794 (-55).
Definition lit_0_10 : num := S754_finite false 7205759403792794 (-56).
Definition lit_0_2 : num := lit_0_20.
Definition lit_2 : num := S754_finite false 4503599627370496 (-51).
Definition lit_4 : num := S754_finite false 4503599627370496 (-50).
Definition lit_10 : num := S754_finite false 5629499534213120 (-49).
Definition lit_100 : num := S754_finite false 7036874417766400 (-46).

(** [Math.round]: the nearest integer, ties towards +infinity.  A finite
    value [m * 2^e] with [e < 0] is rounded as
    [floor ((2 m + 2^(-e)) / 2^(1-e))].  NaN and the infinities have no
    integer image; the analyzer only ever rounds finite values (see
    [weighted_sum_bounded] and [snippability_ratio_bounded]) and the
    definition sends them to 0. *)
Definition Math_round (x : num) : Z :=
  match x with
  | S754_finite s m e =>
      let n := if s then Zneg m else Zpos m in
      match e with
      | Zneg k => Z.shiftr (2 * n + Z.shiftl 1 (Zpos k)) (Zpos k + 1)
      | _ => Z.shiftl n e
      end
  | _ => 0
  end.

(** Decimal digits of a natural number, as [String(n)] prints it. *)
Definition digits_of_Z (z : Z) : string :=
  NilZero.string_of_uint (N.to_uint (Z.to_N z)).

(** [String(x)] for an integer-valued Number, [None] standing for NaN. *)
Definition show_int (o : option Z) : string :=
  match o with
  | None => "NaN"
  | Some z => if z <? 0 then "-" ++ digits_of_Z (- z) else digits_of_Z z
  end.

(** Inserts the decimal point of [toFixed(1)] before the last digit. *)
Fixpoint point_before_last (s : string) : string :=
  match s with
  | EmptyString => "0.0"
  | String c EmptyString => String c EmptyString
  | String c (String d EmptyString) => String c (String "." (String d EmptyString))
  | String c rest => String c (point_before_last rest)
  end.

(** [x.toFixed(1)] for |x| < 10^21: with [n] the integer nearest to
    [10 * |x|] (the larger of two candidates), the digits of [n], padded to
    two digits, with a point before the last. *)
Definition toFixed1 (x : num) : string :=
  match x with
  | S754_nan => "NaN"
  | S754_infinity s => if s then "-Infinity" else "Infinity"
  | S754_zero _ => "0.0"
  | S754_finite s m e =>
      let n :=
        match e with
        | Zneg k => Z.shiftr (20 * Zpos m + Z.shiftl 1 (Zpos k)) (Zpos k + 1)
        | _ => Z.shiftl (10 * Zpos m) e
        end in
      let ds := digits_of_Z n in
      let ds := if (String.length ds <=? 1)%nat then "0" ++ ds else ds in
      (if s then "-" else "") ++ point_before_last ds
  end%string.

End JSNumber.

(* ================================================================== *)
(** ** JavaScript strings *)

Module JSString.

Local Open Scope string_scope.

(** White space as [String.prototype.trim] and [\s] see it, among the code
    units a character of the model can hold: TAB, LF, VT, FF, CR, SPACE and
    NBSP. *)
Definition is_space (c : ascii) : bool :=
  let n := nat_of_ascii c in
  (((9 <=? n) && (n <=? 13)) || (n =? 32) || (n =? 160))%nat.

Fixpoint trimStart (s : string) : string :=
  match s with
  | EmptyString => EmptyString
  | String c r => if is_space c then trimStart r else s
  end.

Fixpoint trimEnd (s : string) : string :=
  match s with
  | EmptyString => EmptyString
  | String c r =>
      match trimEnd r with
      | EmptyString => if is_space c then EmptyString else String c EmptyString
      | r' => String c r'
      end
  end.

Definition trim (s : string) : string := trimEnd (trimStart s).

(** [toLowerCase] on one code unit: A-Z, and the capital letters of the
    Latin-1 block (U+00C0 to U+00DE, the multiplication sign apart). *)
Definition lower_char (c : ascii) : ascii :=
  let n := nat_of_ascii c in
  if (((65 <=? n) && (n <=? 90)) || ((192 <=? n) && (n <=? 222) && negb (n =? 215)))%nat
  then ascii_of_nat (n + 32)
  else c.

Fixpoint toLowerCase (s : string) : string :=
  match s with
  | EmptyString => EmptyString
  | String c r => String (lower_char c) (toLowerCase r)
  end.

(** [hay.indexOf(needle)], counted from [i]; -1 when there is no match. *)
Fixpoint indexOf_from (needle hay : string) (i : Z) : Z :=
  if prefix needle hay then i
  else match hay with
       | EmptyString => -1
       | String _ r => indexOf_from needle r (i + 1)
       end.

Definition indexOf (needle hay : string) : Z := indexOf_from needle hay 0.

Definition includes (needle hay : string) : bool := (0 <=? indexOf needle hay)%Z.

(** [s.slice(0, n)]. *)
Definition slice0 (n : nat) (s : string) : string := substring 0 n s.

(** [s.replace(c, '')] for a one-character pattern: the first occurrence
    only. *)
Fixpoint remove_first (c : ascii) (s : string) : string :=
  match s with
  | EmptyString => EmptyString
  | String d r => if Ascii.eqb c d then r else String d (remove_first c r)
  end.

Definition is_digit (c : ascii) : bool :=
  let n := nat_of_ascii c in ((48 <=? n) && (n <=? 57))%nat.

Fixpoint digits_prefix (s : string) (acc : option Z) : option Z :=
  match s with
  | EmptyString => acc
  | String c r =>
      if is_digit c
      then digits_prefix r
             (Some (10 * match acc with Some a => a | None => 0 end
                    + Z.of_nat (nat_of_ascii c - 48)))
      else acc
  end.

(** [parseInt(s, 10)]: leading white space, an optional sign, then the
    longest run of decimal digits; [None] is NaN. *)
Definition parseInt (s : string) : option Z :=
  match trimStart s with
  | String "-" r => option_map Z.opp (digits_prefix r None)
  | String "+" r => digits_prefix r None
  | t => digits_prefix t None
  end.

(** The maximal runs of characters that are not white space. *)
Fixpoint words_from (s : string) (cur : string) : list string :=
  match s with
  | EmptyString => match cur with EmptyString => [] | _ => [cur] end
  | String c r =>
      if is_space c
      then match cur with
           | EmptyString => words_from r EmptyString
           | _ => cur :: words_from r EmptyString
           end
      else words_from r (cur ++ String c EmptyString)
  end.

Definition words (s : string) : list string := words_from s EmptyString.

(** The double quote, for the literals that contain one. *)
Definition dq : string := String (ascii_of_nat 34) EmptyString.

End JSString.

(* ================================================================== *)
(** ** The parsed document and cheerio's selections *)

Module Dom.

Import JSString.
Local Open Scope string_scope.

Inductive node : Type :=
| Text (data : string)
| Comment (data : string)
| Element (tagName : string) (attribs : list (string * string)) (children : list node).

(** domutils' [textContent]: the text nodes below a node, concatenated;
    comments contribute nothing. *)
Fixpoint textContent (n : node) : string :=
  match n with
  | Text d => d
  | Comment _ => ""
  | Element _ _ cs =>
      (fix all (l : list node) : string :=
         match l with
         | [] => ""
         | c :: r => textContent c ++ all r
         end) cs
  end.

Definition text_of_nodes (l : list node) : string :=
  fold_right (fun c acc => textContent c ++ acc) "" l.

(** An element as a selection holds it: its own data and, for [next] and
    [nextAll], the nodes that follow it under the same parent. *)
Record element : Type := mkElement {
  tagName : string;
  attribs : list (string * string);
  children : list node;
  following : list node
}.

(** The elements at and below a node, in document order. *)
Fixpoint elements_of (n : node) (later : list node) : list element :=
  match n with
  | Element t a cs =>
      mkElement t a cs later ::
      (fix below (l : list node) : list element :=
         match l with
         | [] => []
         | c :: r => (elements_of c r ++ below r)%list
         end) cs
  | _ => []
  end.

(** All elements of a forest, in document order. *)
Fixpoint elements (l : list node) : list element :=
  match l with
  | [] => []
  | c :: r => (elements_of c r ++ elements r)%list
  end.

(** The element siblings among the nodes [l], in order. *)
Fixpoint sibling_elements (l : list node) : list element :=
  match l with
  | [] => []
  | Element t a cs :: r => mkElement t a cs r :: sibling_elements r
  | _ :: r => sibling_elements r
  end.

(** The selectors the analyzer uses: a comma-separated list of compound
    selectors, each a conjunction of simple ones. *)
Inductive simple : Type :=
| Tag (name : string)                 (* p *)
| AttrEq (name value : string)        (* [name="value"] *)
| AttrContains (name value : string)  (* [name*="value"] *)
| AttrPrefix (name value : string)    (* [name^="value"] *)
| Class (name : string)               (* .name *)
| Id (name : string).                 (* #name *)

Definition compound : Type := list simple.
Definition selector : Type := list compound.

Fixpoint getAttr (name : string) (l : list (string * string)) : option string :=
  match l with
  | [] => None
  | (k, v) :: r => if String.eqb k name then Some v else getAttr name r
  end.

(** The attributes whose values css-select compares without regard to case
    in an HTML document. *)
Definition caseInsensitiveAttributes : list string :=
  ["accept"; "accept-charset"; "align"; "alink"; "axis"; "bgcolor"; "charset";
   "checked"; "clear"; "codetype"; "color"; "compact"; "declare"; "defer";
   "dir"; "direction"; "disabled"; "enctype"; "face"; "frame"; "hreflang";
   "http-equiv"; "lang"; "language"; "link"; "media"; "method"; "multiple";
   "nohref"; "noresize"; "noshade"; "nowrap"; "readonly"; "rel"; "rev";
   "rules"; "scope"; "scrolling"; "selected"; "shape"; "target"; "text";
   "type"; "valign"; "valuetype"; "vlink"].

Definition fold_case (name s : string) : string :=
  if existsb (String.eqb name) caseInsensitiveAttributes then toLowerCase s else s.

Definition matches_simple (e : element) (s : simple) : bool :=
  match s with
  | Tag n => String.eqb (tagName e) n
  | AttrEq n v =>
      match getAttr n (attribs e) with
      | Some a => String.eqb (fold_case n a) (fold_case n v)
      | None => false
      end
  | AttrContains n v =>
      match getAttr n (attribs e) with
      | Some a => negb (String.eqb v "") && includes (fold_case n v) (fold_case n a)
      | None => false
      end
  | AttrPrefix n v =>
      match getAttr n (attribs e) with
      | Some a => negb (String.eqb v "") && prefix (fold_case n v) (fold_case n a)
      | None => false
      end
  | Class n =>
      match getAttr "class" (attribs e) with
      | Some a => existsb (String.eqb n) (words a)
      | None => false
      end
  | Id n =>
      match getAttr "id" (attribs e) with
      | Some a => String.eqb a n
      | None => false
      end
  end.

Definition matches (sel : selector) (e : element) : bool :=
  existsb (fun c => forallb (matches_simple e) c) sel.

(** A selection: elements in document order. *)
Definition selection : Type := list element.

(** [$(sel)]: every element of the document that matches. *)
Definition select (sel : selector) (doc : list node) : selection :=
  filter (matches sel) (elements doc).

(** [.first()]. *)
Definition first (s : selection) : selection := firstn 1 s.

(** [.find(sel)]: the matching descendants.  The analyzer calls it on
    selections of at most one element. *)
Definition find (sel : selector) (s : selection) : selection :=
  flat_map (fun e => filter (matches sel) (elements (children e))) s.

(** [.nextAll(sel)]: the matching siblings after the element. *)
Definition nextAll (sel : selector) (s : selection) : selection :=
  flat_map (fun e => filter (matches sel) (sibling_elements (following e))) s.

(** [.next()]: the sibling element right after. *)
Definition next (e : element) : selection :=
  firstn 1 (sibling_elements (following e)).

(** [.text()]: the text of every element of the selection, concatenated. *)
Definition text (s : selection) : string :=
  fold_right (fun e acc => text_of_nodes (children e) ++ acc) "" s.

End Dom.

(* ================================================================== *)
(** ** The libraries the analyzer calls *)

Module Runtime.

Import JSNumber Dom.

(** A regular-expression literal: its pattern and flags, as written. *)
Record RegExp : Type := mkRegExp { source : string; flags : string }.

(** A value produced by [JSON.parse]. *)
Inductive json : Type :=
| JNull
| JBool (b : bool)
| JNumber (x : num)
| JString (s : string)
| JArray (items : list json)
| JObject (fields : list (string * json)).

(** What the analyzer asks of cheerio, of the regular-expression engine and
    of [JSON]:
    - [cheerio_load html]: the children of the root of the parsed document;
    - [cheerio_html nodes]: the markup [.html()] returns for an element with
      these children;
    - [RegExp_test re s]: whether [re] matches somewhere in [s];
    - [String_match re s]: for a pattern with the [g] flag, every match in
      order, [None] being [null];
    - [String_split re s]: [s.split(re)];
    - [JSON_parse s]: the parsed value, [None] when [JSON.parse] throws. *)
Record Host : Type := mkHost {
  cheerio_load : string -> list node;
  cheerio_html : list node -> string;
  RegExp_test : RegExp -> string -> bool;
  String_match : RegExp -> string -> option (list string);
  String_split : RegExp -> string -> list string;
  JSON_parse : string -> option json
}.

(** [value[key]] on a parsed value; [None] is [undefined].  Reading a
    property of [null] throws, which the caller handles before. *)
Fixpoint lookup_field (key : string) (l : list (string * json)) : option json :=
  match l with
  | [] => None
  | (k, v) :: r => if String.eqb k key then Some v else lookup_field key r
  end.

Definition get_property (v : json) (key : string) : option json :=
  match v with
  | JObject fields => lookup_field key fields
  | _ => None
  end.

(** Truthiness of a property read. *)
Definition truthy (o : option json) : bool :=
  match o with
  | None => false
  | Some JNull => false
  | Some (JBool b) => b
  | Some (JNumber x) =>
      match x with
      | S754_zero _ | S754_nan => false
      | _ => true
      end
  | Some (JString s) => negb (String.eqb s "")
  | Some (JArray _) | Some (JObject _) => true
  end.

(** [Array.prototype.sort] with a comparison function: a stable sort
    (ECMAScript 2019), here by insertion. *)
Fixpoint insert_sorted {A : Type} (cmp : A -> A -> Z) (x : A) (l : list A) : list A :=
  match l with
  | [] => [x]
  | y :: r => if cmp x y <=? 0 then x :: y :: r else y :: insert_sorted cmp x r
  end.

Definition Array_sort {A : Type} (cmp : A -> A -> Z) (l : list A) : list A :=
  fold_right (insert_sorted cmp) [] l.

End Runtime.

(* ================================================================== *)
(** ** src/types: the analyzer's data *)

Inductive IssueType : Type :=
| answer_placement | fact_density | heading_structure | eeat | snippability
| schema | meta.

Inductive Severity : Type := high | medium | low.

(** [AnalysisIssue]; the field [fix] is [fix_] here. *)
Record AnalysisIssue : Type := mkIssue {
  type : IssueType;
  severity : Severity;
  message : string;
  fix_ : string
}.

Record Breakdown : Type := mkBreakdown {
  answerFrontLoading : Z;
  factDensity : Z;
  headingStructure : Z;
  eeatSignals : Z;
  snippability_score : Z;
  schemaCoverage : Z
}.

Record AIReadabilityScore : Type := mkScore {
  overallScore : Z;
  breakdown : Breakdown;
  issues : list AnalysisIssue;
  recommendations : list string
}.

(** The value of a property declared [boolean] that may also hold
    [undefined]: [None] is [undefined]. *)
Definition flag : Type := option bool.

(** [if (value)]: [undefined] and [false] are falsy. *)
Definition ToBoolean (value : flag) : bool :=
  match value with
  | Some b => b
  | None => false
  end.

(** [AnalyzerOptions]: every field optional.  [None] is a key left out;
    [Some None] is an own key that holds [undefined], which the type
    [checkEEAT?: boolean] admits and the spread copies like any other. *)
Record AnalyzerOptions : Type := mkAnalyzerOptions {
  opt_checkAnswerPlacement : option flag;
  opt_checkFactDensity : option flag;
  opt_checkHeadingStructure : option flag;
  opt_checkEEAT : option flag;
  opt_checkSnippability : option flag;
  opt_checkSchema : option flag
}.

(** [Required<AnalyzerOptions>], as [this.options] holds it: a field is
    [undefined] when the caller passed the key with that value. *)
Record Options : Type := mkOptions {
  checkAnswerPlacement : flag;
  checkFactDensity_on : flag;
  checkHeadingStructure_on : flag;
  checkEEAT_on : flag;
  checkSnippability_on : flag;
  checkSchema : flag
}.

Definition IssueType_eqb (a b : IssueType) : bool :=
  match a, b with
  | answer_placement, answer_placement | fact_density, fact_density
  | heading_structure, heading_structure | eeat, eeat
  | snippability, snippability | schema, schema | meta, meta => true
  | _, _ => false
  end.

Definition Severity_eqb (a b : Severity) : bool :=
  match a, b with
  | high, high | medium, medium | low, low => true
  | _, _ => false
  end.

(* ================================================================== *)
(** ** src/analyzer/content-analyzer.ts *)

Module ContentAnalyzer.

Import JSNumber JSString Dom Runtime.
Local Open Scope string_scope.
Local Open Scope Z_scope.

Definition DEFAULT_OPTIONS : Options :=
  mkOptions (Some true) (Some true) (Some true) (Some true) (Some true) (Some true).

(** The class instance: its only member is [options]. *)
Record t : Type := mkAnalyzer { options : Options }.

(** [{ ...DEFAULT_OPTIONS, ...options }], one key: an own key of [options]
    replaces the default, whatever it holds. *)
Definition spread (default : flag) (given : option flag) : flag :=
  match given with
  | Some value => value
  | None => default
  end.

Definition constructor (o : AnalyzerOptions) : t :=
  mkAnalyzer
    (mkOptions
       (spread (checkAnswerPlacement DEFAULT_OPTIONS) (opt_checkAnswerPlacement o))
       (spread (checkFactDensity_on DEFAULT_OPTIONS) (opt_checkFactDensity o))
       (spread (checkHeadingStructure_on DEFAULT_OPTIONS) (opt_checkHeadingStructure o))
       (spread (checkEEAT_on DEFAULT_OPTIONS) (opt_checkEEAT o))
       (spread (checkSnippability_on DEFAULT_OPTIONS) (opt_checkSnippability o))
       (spread (checkSchema DEFAULT_OPTIONS) (opt_checkSchema o))).

(** What a check returns: [{ score, issues }]. *)
Definition CheckResult : Type := (Z * list AnalysisIssue)%type.
Definition score (r : CheckResult) : Z := fst r.
Definition issues_of (r : CheckResult) : list AnalysisIssue := snd r.

(** The selectors of the source. *)
Definition sel_h1 : selector := [[Tag "h1"]].
Definition sel_h2 : selector := [[Tag "h2"]].
Definition sel_h3 : selector := [[Tag "h3"]].
Definition sel_p : selector := [[Tag "p"]].
Definition sel_body : selector := [[Tag "body"]].
(* 'main, article, [role="main"], .content, #content' *)
Definition sel_main : selector :=
  [[Tag "main"]; [Tag "article"]; [AttrEq "role" "main"]; [Class "content"];
   [Id "content"]].
(* 'h1, h2, h3, h4' *)
Definition sel_h1_h4 : selector := [[Tag "h1"]; [Tag "h2"]; [Tag "h3"]; [Tag "h4"]].
(* 'h1, h2, h3' *)
Definition sel_h1_h3 : selector := [[Tag "h1"]; [Tag "h2"]; [Tag "h3"]].
(* 'h2, h3' *)
Definition sel_h2_h3 : selector := [[Tag "h2"]; [Tag "h3"]].
(* '[itemtype*="Person"], [itemprop="author"], meta[name="author"], .author, [rel="author"]' *)
Definition sel_author : selector :=
  [[AttrContains "itemtype" "Person"]; [AttrEq "itemprop" "author"];
   [Tag "meta"; AttrEq "name" "author"]; [Class "author"]; [AttrEq "rel" "author"]].
(* '[itemtype*="Organization"], [itemprop="publisher"]' *)
Definition sel_org : selector :=
  [[AttrContains "itemtype" "Organization"]; [AttrEq "itemprop" "publisher"]].
(* 'meta[property="og:site_name"]' *)
Definition sel_site_name : selector := [[Tag "meta"; AttrEq "property" "og:site_name"]].
(* 'a[href^="mailto:"], a[href^="tel:"], [role="contentinfo"], footer' *)
Definition sel_contact : selector :=
  [[Tag "a"; AttrPrefix "href" "mailto:"]; [Tag "a"; AttrPrefix "href" "tel:"];
   [AttrEq "role" "contentinfo"]; [Tag "footer"]].
(* 'script[type="application/ld+json"]' *)
Definition sel_jsonld : selector := [[Tag "script"; AttrEq "type" "application/ld+json"]].

(** The regular expressions of the source. *)
Definition re_whitespace : RegExp := mkRegExp "\s+" "".
Definition re_facts : RegExp :=
  mkRegExp
    "\b\d+(?:\.\d+)?%|\b\d{4}\b|\b\d+(?:,\d{3})*(?:\.\d+)?\s*(?:million|billion|thousand|k|m|b)?\b|\b(?:january|february|march|april|may|june|july|august|september|october|november|december)\b"
    "gi".
Definition re_author : RegExp := mkRegExp "written by|by [A-Z][a-z]+ [A-Z][a-z]+" "i".
Definition trustSignals : list RegExp :=
  [mkRegExp "years?\s+(?:of\s+)?experience" "i";
   mkRegExp "certified|certification" "i";
   mkRegExp "award|recognized" "i";
   mkRegExp "published|featured in" "i";
   mkRegExp "trusted by|used by" "i";
   mkRegExp "\d+\s*(?:k|,000)?\s*(?:users|customers|companies)" "i"].

Definition answerWords : list string :=
  ["is"; "are"; "helps"; "provides"; "enables"; "allows"; "lets"; "gives"; "makes"].

(** A Number that holds an integer, [None] being NaN (the heading walk
    reads its levels with [parseInt]). *)
Definition gt_num (a b : option Z) : bool :=
  match a, b with
  | Some x, Some y => y <? x
  | _, _ => false
  end.

Definition add1 (a : option Z) : option Z := option_map (fun x => x + 1)%Z a.

Section WithHost.

Context (host : Host).

(** [$]: the document is the list of the root's children. *)
Definition document : Type := list node.

(* ---- Individual Checks ---- *)

(** The paragraph the answer-placement check reads: the first [p] inside
    the first main-content container when there is one, else the first [p]
    among the siblings after the first [h1]. *)
Definition firstP (doc : document) : selection :=
  let mainContent := first (select sel_main doc) in
  if (0 <? List.length mainContent)%nat
  then first (find sel_p mainContent)
  else first (nextAll sel_p (first (select sel_h1 doc))).

Definition checkAnswerFrontLoading (doc : document) : CheckResult :=
  let h1 := first (select sel_h1 doc) in
  if (List.length h1 =? 0)%nat then
    (0, [mkIssue answer_placement high
           "No H1 tag found on the page"
           "Add a clear, descriptive H1 tag that states what this page is about"])
  else
    let firstPText := trim (text (firstP doc)) in
    if (String.eqb firstPText "" || (String.length firstPText <? 30)%nat)%bool then
      (20, [mkIssue answer_placement high
              "No substantive paragraph found after H1"
              "Add a clear, direct answer or description in the first paragraph immediately after your H1"])
    else
      let h1Text := toLowerCase (text h1) in
      let hasDirectAnswer :=
        existsb (fun w => includes w (toLowerCase firstPText)) answerWords in
      let allText := text (select sel_body doc) in
      let firstPPosition := indexOf (slice0 50 firstPText) allText in
      let positionRatio :=
        fdiv (Z2SF firstPPosition) (Z2SF (Z.of_nat (String.length allText))) in
      if negb hasDirectAnswer then
        (55, [mkIssue answer_placement medium
                "First paragraph may not directly answer the page topic"
                ("Start with a direct statement like " ++ dq ++ "This page covers..."
                 ++ dq ++ " or " ++ dq ++ h1Text ++ " is..." ++ dq)])
      else if fgt positionRatio lit_0_2 then
        (65, [mkIssue answer_placement medium
                "Main answer appears too far down the page"
                "Move the key answer/description to the very top of the page content"])
      else (95, []).

(** The body of the loop over the paragraphs: the running totals. *)
Definition count_paragraph (totals : nat * nat) (el : element) : nat * nat :=
  let '(totalWords, verifiableFacts) := totals in
  let text := text [el] in
  let words :=
    List.length (filter (fun w => negb (String.eqb w "")) (String_split host re_whitespace text)) in
  let facts :=
    List.length (match String_match host re_facts text with
            | Some l => l
            | None => []
            end) in
  ((totalWords + words)%nat, (verifiableFacts + facts)%nat).

Definition paragraph_totals (doc : document) : nat * nat :=
  fold_left count_paragraph (select sel_p doc) (0%nat, 0%nat).

Definition factsPerHundred (totalWords verifiableFacts : nat) : num :=
  fmul (fdiv (counter verifiableFacts) (counter totalWords)) lit_100.

(** The rest of the check, once the paragraphs are counted. *)
Definition rateFactDensity (totalWords verifiableFacts : nat) : CheckResult :=
  if (totalWords =? 0)%nat then
    (0, [mkIssue fact_density high "No paragraph content found"
           "Add substantive text content to the page"])
  else
    let factsPerHundred := factsPerHundred totalWords verifiableFacts in
    if flt factsPerHundred lit_2 then
      (25, [mkIssue fact_density high
              ("Very low fact density: " ++ toFixed1 factsPerHundred
               ++ " facts per 100 words (target: 4-6)")
              "Add specific numbers, dates, statistics, or measurable claims to support your content"])
    else if flt factsPerHundred lit_4 then
      (60, [mkIssue fact_density medium
              ("Below-target fact density: " ++ toFixed1 factsPerHundred
               ++ " facts per 100 words (target: 4-6)")
              "Include more specific data points, percentages, or concrete examples"])
    else if fgt factsPerHundred lit_10 then
      (75, [mkIssue fact_density low
              "Very high fact density â€” content may feel dense or list-heavy"
              "Add explanatory prose between data points to improve readability"])
    else (95, []).

Definition checkFactDensity (doc : document) : CheckResult :=
  let '(totalWords, verifiableFacts) := paragraph_totals doc in
  rateFactDensity totalWords verifiableFacts.

(** The heading walk: [lastLevel], [score] and [issues] as one state. *)
Definition level_of (el : element) : option Z :=
  parseInt (remove_first "h" (tagName el)).

Definition skipped_issue (lastLevel level : option Z) : AnalysisIssue :=
  mkIssue heading_structure low
    ("Heading level skipped: H" ++ show_int lastLevel ++ " â†’ H" ++ show_int level)
    ("Add an H" ++ show_int (add1 lastLevel) ++ " between your H" ++ show_int lastLevel
     ++ " and H" ++ show_int level).

Definition skip_step (st : option Z * Z * list AnalysisIssue) (el : element)
  : option Z * Z * list AnalysisIssue :=
  let '(lastLevel, score, issues) := st in
  let level := level_of el in
  if gt_num level (add1 lastLevel)
  then (level, score - 10, issues ++ [skipped_issue lastLevel level])%Z%list
  else (level, score, issues).

Definition empty_heading_issue : AnalysisIssue :=
  mkIssue heading_structure medium "Empty heading tag found"
    "Remove or fill empty heading tags".

Definition empty_step (st : Z * list AnalysisIssue) (el : element)
  : Z * list AnalysisIssue :=
  let '(score, issues) := st in
  if String.eqb (trim (text [el])) ""
  then (score - 10, issues ++ [empty_heading_issue])%Z%list
  else (score, issues).

Definition missing_h1_issue : AnalysisIssue :=
  mkIssue heading_structure high "Missing H1 tag"
    "Add exactly one H1 tag as the main page title".

Definition multiple_h1_issue (h1Count : nat) : AnalysisIssue :=
  mkIssue heading_structure medium
    ("Multiple H1 tags found (" ++ show_int (Some (Z.of_nat h1Count)) ++ ")")
    "Use only one H1 per page. Demote additional H1s to H2".

Definition h3_without_h2_issue : AnalysisIssue :=
  mkIssue heading_structure medium "H3 tags used without any H2 tags"
    "Add H2 headings to create proper hierarchy: H1 â†’ H2 â†’ H3".

Definition checkHeadingStructure (doc : document) : CheckResult :=
  let issues : list AnalysisIssue := [] in
  let score := 100%Z in
  let h1Count := List.length (select sel_h1 doc) in
  let h2s := select sel_h2 doc in
  let h3s := select sel_h3 doc in
  (* Must have exactly one H1 *)
  let '(score, issues) :=
    if (h1Count =? 0)%nat then (score - 40, issues ++ [missing_h1_issue])%Z%list
    else if (1 <? h1Count)%nat then (score - 20, issues ++ [multiple_h1_issue h1Count])%Z%list
    else (score, issues) in
  (* Check H3 without H2 *)
  let '(score, issues) :=
    if ((0 <? List.length h3s)%nat && (List.length h2s =? 0)%nat)%bool
    then (score - 20, issues ++ [h3_without_h2_issue])%Z%list
    else (score, issues) in
  (* Check for skipped levels *)
  let '(_, score, issues) :=
    fold_left skip_step (select sel_h1_h4 doc) (Some 1%Z, score, issues) in
  (* Check for empty headings *)
  let '(score, issues) := fold_left empty_step (select sel_h1_h3 doc) (score, issues) in
  (Z.max 0 score, issues).

Definition checkEEAT (doc : document) : CheckResult :=
  let issues : list AnalysisIssue := [] in
  let score := 0%Z in
  let MAX := 100%Z in
  (* Author info (25 pts) *)
  let hasAuthor :=
    ((0 <? List.length (select sel_author doc))%nat
     || RegExp_test host re_author (text (select sel_body doc)))%bool in
  let '(score, issues) :=
    if hasAuthor then (score + 25, issues)%Z
    else (score, issues ++ [mkIssue eeat medium "No author information detected"
                              "Add author name with a link to their bio or use schema.org Person markup"])%list in
  (* Organization info (25 pts) *)
  let hasOrg :=
    ((0 <? List.length (select sel_org doc))%nat
     || (0 <? List.length (select sel_site_name doc))%nat)%bool in
  let '(score, issues) :=
    if hasOrg then (score + 25, issues)%Z
    else (score, issues ++ [mkIssue eeat low "No organization/publisher markup found"
                              "Add Organization schema or og:site_name meta tag"])%list in
  (* Contact info (25 pts) *)
  let hasContact := (0 <? List.length (select sel_contact doc))%nat in
  let '(score, issues) :=
    if hasContact then (score + 25, issues)%Z
    else (score, issues ++ [mkIssue eeat medium "No contact information found"
                              "Add email, phone, or contact page link â€” AI models use this as a trust signal"])%list in
  (* Trust signals (25 pts) *)
  let bodyText := text (select sel_body doc) in
  let hasTrustSignals := existsb (fun pattern => RegExp_test host pattern bodyText) trustSignals in
  let '(score, issues) :=
    if hasTrustSignals then (score + 25, issues)%Z
    else (score, issues ++ [mkIssue eeat low "No expertise/trust signals detected"
                              "Add credentials, years of experience, customer counts, or press mentions"])%list in
  (Z.min score MAX, issues).

Definition insufficient_issue (el : element) : AnalysisIssue :=
  mkIssue snippability low
    ("Section " ++ dq ++ trim (text [el]) ++ dq ++ " has insufficient content below it")
    "Add at least 2-3 sentences of context below each heading so the section can stand alone".

(** The body of the loop over the subheadings: [snippableCount],
    [totalChecked] and [issues]. *)
Definition snip_step (st : nat * nat * list AnalysisIssue) (el : element)
  : nat * nat * list AnalysisIssue :=
  let '(snippableCount, totalChecked, issues) := st in
  let totalChecked := S totalChecked in
  let nextText := trim (text (next el)) in
  if (80 <=? String.length nextText)%nat
  then (S snippableCount, totalChecked, issues)
  else (snippableCount, totalChecked, issues ++ [insufficient_issue el])%list.

Definition checkSnippability (doc : document) : CheckResult :=
  let headings := select sel_h2_h3 doc in
  if (List.length headings =? 0)%nat then
    (30, [mkIssue snippability medium "No H2/H3 subheadings found"
            "Break content into sections with descriptive H2/H3 headings so AI can extract individual sections"])
  else
    let '(snippableCount, totalChecked, issues) :=
      fold_left snip_step headings (0%nat, 0%nat, []) in
    let ratio := fdiv (counter snippableCount) (counter (Nat.max totalChecked 1)) in
    let score := Math_round (fmul ratio lit_100) in
    (score, issues).

Definition invalid_jsonld_issue : AnalysisIssue :=
  mkIssue schema medium "Invalid JSON-LD schema found (parse error)"
    "Validate your JSON-LD using schema.org validator or use SchemaBuilder".

(** The body of the loop over the JSON-LD scripts: [validSchemas] and
    [issues].  The [catch] branch is reached when [JSON.parse] throws and
    when the parsed value is [null], whose property read throws. *)
Definition schema_step (st : nat * list AnalysisIssue) (el : element)
  : nat * list AnalysisIssue :=
  let '(validSchemas, issues) := st in
  match JSON_parse host (cheerio_html host (children el)) with
  | None | Some JNull => (validSchemas, issues ++ [invalid_jsonld_issue])%list
  | Some json =>
      if (truthy (get_property json "@context") && truthy (get_property json "@type"))%bool
      then (S validSchemas, issues)
      else (validSchemas, issues)
  end.

Definition checkSchemaCoverage (doc : document) : CheckResult :=
  let issues : list AnalysisIssue := [] in
  let schemaScripts := select sel_jsonld doc in
  if (List.length schemaScripts =? 0)%nat then
    (0, issues ++ [mkIssue schema high "No JSON-LD structured data found"
                     "Add JSON-LD schema markup using SchemaBuilder from ai-visibility"])%list
  else
    let '(validSchemas, issues) := fold_left schema_step schemaScripts (0%nat, issues) in
    if (validSchemas =? 0)%nat then (10, issues)
    else
      (* Check for recommended schema types *)
      let schemaText := text (select sel_jsonld doc) in
      let hasFAQ := includes (dq ++ "FAQPage" ++ dq) schemaText in
      let hasOrg := includes (dq ++ "Organization" ++ dq) schemaText in
      let issues :=
        if negb hasFAQ
        then (issues ++ [mkIssue schema low "No FAQPage schema found"
                           "Add FAQ schema to help AI models extract Q&A content from your page"])%list
        else issues in
      let issues :=
        if negb hasOrg
        then (issues ++ [mkIssue schema low "No Organization schema found"
                           "Add Organization schema to establish E-E-A-T signals for AI models"])%list
        else issues in
      let score := if (hasFAQ && hasOrg)%bool then 100 else if (hasFAQ || hasOrg)%bool then 75 else 50 in
      (score, issues).

(* ---- Recommendations ---- *)

Definition generateRecommendations (breakdown : Breakdown) : list string :=
  let recs : list string := [] in
  let recs := if answerFrontLoading breakdown <? 70
    then (recs ++ ["ðŸ“Œ Front-load your answers: AI models prioritize content in the first 20% of a section"])%list else recs in
  let recs := if factDensity breakdown <? 60
    then (recs ++ ["ðŸ“Š Add more data: Include specific numbers, dates, and statistics to improve citability"])%list else recs in
  let recs := if headingStructure breakdown <? 80
    then (recs ++ ["ðŸ—ï¸ Fix heading hierarchy: Use H1 â†’ H2 â†’ H3 consistently for better content parsing"])%list else recs in
  let recs := if eeatSignals breakdown <? 60
    then (recs ++ ["ðŸ† Boost E-E-A-T: Add author credentials, company info, and trust signals"])%list else recs in
  let recs := if snippability_score breakdown <? 70
    then (recs ++ ["âœ‚ï¸ Improve snippability: Each section should be self-contained and informative"])%list else recs in
  let recs := if schemaCoverage breakdown <? 50
    then (recs ++ ["ðŸ”– Add structured data: Use SchemaBuilder to add JSON-LD markup for AI understanding"])%list else recs in
  if (List.length recs =? 0)%nat
  then (recs ++ ["âœ… Great job! Your content is well-optimized for AI visibility"])%list
  else recs.

(* ---- analyze ---- *)

(** [Object.entries(breakdown)], in the order the literal lists the keys. *)
Definition entries (b : Breakdown) : list (string * Z) :=
  [("answerFrontLoading", answerFrontLoading b);
   ("factDensity", factDensity b);
   ("headingStructure", headingStructure b);
   ("eeatSignals", eeatSignals b);
   ("snippability", snippability_score b);
   ("schemaCoverage", schemaCoverage b)].

Definition weights : list (string * num) :=
  [("answerFrontLoading", lit_0_25);
   ("factDensity", lit_0_15);
   ("headingStructure", lit_0_15);
   ("eeatSignals", lit_0_20);
   ("snippability", lit_0_10);
   ("schemaCoverage", lit_0_15)].

Fixpoint weight_of (key : string) (l : list (string * num)) : option num :=
  match l with
  | [] => None
  | (k, w) :: r => if String.eqb k key then Some w else weight_of key r
  end.

(** The callback of [reduce]: [sum + score * (weights[key] ?? 0)]. *)
Definition add_weighted (sum : num) (entry : string * Z) : num :=
  let '(key, score) := entry in
  fadd sum (fmul (Z2SF score)
              (match weight_of key weights with
               | Some w => w
               | None => Z2SF 0
               end)).

Definition weighted_sum (b : Breakdown) : num :=
  fold_left add_weighted (entries b) (Z2SF 0).

Definition severity_order (s : Severity) : Z :=
  match s with
  | high => 0
  | medium => 1
  | low => 2
  end.

Definition by_severity (a b : AnalysisIssue) : Z :=
  severity_order (severity a) - severity_order (severity b).

(** One check of [analyze]: run it when its option is truthy, else score
    100 and add no issue. *)
Definition run_check (enabled : bool) (check : document -> CheckResult) (doc : document)
  : CheckResult :=
  if enabled then check doc else (100, []).

(** The issues in the order the checks pushed them. *)
Definition collected_issues (this : t) (doc : document) : list AnalysisIssue :=
  let o := options this in
  (issues_of (run_check (ToBoolean (checkAnswerPlacement o)) checkAnswerFrontLoading doc)
   ++ issues_of (run_check (ToBoolean (checkFactDensity_on o)) checkFactDensity doc)
   ++ issues_of (run_check (ToBoolean (checkHeadingStructure_on o)) checkHeadingStructure doc)
   ++ issues_of (run_check (ToBoolean (checkEEAT_on o)) checkEEAT doc)
   ++ issues_of (run_check (ToBoolean (checkSnippability_on o)) checkSnippability doc)
   ++ issues_of (run_check (ToBoolean (checkSchema o)) checkSchemaCoverage doc))%list.

Definition breakdown_of (this : t) (doc : document) : Breakdown :=
  let o := options this in
  mkBreakdown
    (score (run_check (ToBoolean (checkAnswerPlacement o)) checkAnswerFrontLoading doc))
    (score (run_check (ToBoolean (checkFactDensity_on o)) checkFactDensity doc))
    (score (run_check (ToBoolean (checkHeadingStructure_on o)) checkHeadingStructure doc))
    (score (run_check (ToBoolean (checkEEAT_on o)) checkEEAT doc))
    (score (run_check (ToBoolean (checkSnippability_on o)) checkSnippability doc))
    (score (run_check (ToBoolean (checkSchema o)) checkSchemaCoverage doc)).

Definition analyze (this : t) (html : string) : AIReadabilityScore :=
  let doc := cheerio_load host html in
  let breakdown := breakdown_of this doc in
  let issues := collected_issues this doc in
  let overallScore := Math_round (weighted_sum breakdown) in
  let recommendations := generateRecommendations breakdown in
  mkScore overallScore breakdown (Array_sort by_severity issues) recommendations.

End WithHost.

End ContentAnalyzer.

(* ================================================================== *)
(** ** src/cli/commands/analyze.ts *)

Module Cli.

Import JSNumber JSString Dom Runtime ContentAnalyzer.
Local Open Scope string_scope.
Local Open Scope Z_scope.

(** An entry of a directory as [fs.readdirSync(dir, { withFileTypes: true })]
    lists it: a regular file, a directory (with the entries found in it), or
    anything else, for which [isFile()] and [isDirectory()] are both false. *)
Inductive Dirent : Type :=
| IsFile (name : string)
| IsDirectory (name : string) (entries : list Dirent)
| IsOther (name : string).

(** What the file system holds at the path a scan starts from. *)
Inductive Found : Type :=
| Nothing
| NotADirectory
| Listing (entries : list Dirent).

(** One element of [results]. *)
Record ResultEntry : Type := mkResultEntry {
  file : string;
  score : Z;
  result : AIReadabilityScore
}.

(** The options commander hands to the action: [dir] is '.' and [minScore]
    is '101' unless given, [file] and [json] are [undefined] unless given. *)
Record CommandOptions : Type := mkCommandOptions {
  opt_dir : string;
  opt_file : option string;
  opt_json : bool;
  opt_minScore : string
}.

(** What the command asks of Node and of its packages:
    - [path_resolve], [path_join], [path_extname]: the functions of [path];
    - [path_relative file]: [path.relative(process.cwd(), file)];
    - [fs_found dir]: what [fs.existsSync] and [fs.readdirSync] find at the
      start of a scan;
    - [fs_readFileSync file]: the content read as UTF-8, or the text of the
      error thrown;
    - the styles of chalk;
    - [JSON_stringify results]: [JSON.stringify(results, null, 2)];
    - [String_replace re replacement s]: [s.replace(re, replacement)]. *)
Record System : Type := mkSystem {
  path_resolve : string -> string;
  path_join : string -> string -> string;
  path_extname : string -> string;
  path_relative : string -> string;
  fs_found : string -> Found;
  fs_readFileSync : string -> string + string;
  chalk_green : string -> string;
  chalk_yellow : string -> string;
  chalk_red : string -> string;
  chalk_gray : string -> string;
  chalk_white : string -> string;
  chalk_bold : string -> string;
  chalk_bold_cyan : string -> string;
  JSON_stringify : list ResultEntry -> string;
  String_replace : RegExp -> string -> string -> string
}.

(** The line feed of the literals that hold one. *)
Definition nl : string := String (ascii_of_nat 10) EmptyString.

(** A number inside a template literal. *)
Definition show (z : Z) : string := show_int (Some z).

(** [console.log(line)], on the lines printed so far. *)
Definition log (console : list string) (line : string) : list string :=
  (console ++ [line])%list.

(** [s.repeat(n)]. *)
Fixpoint repeat_string (s : string) (n : nat) : string :=
  match n with
  | O => ""
  | S n' => s ++ repeat_string s n'
  end.

Section WithSystem.

Context (host : Host) (sys : System).

Definition SUPPORTED_EXTENSIONS : list string := [".html"; ".htm"; ".md"; ".mdx"].

(** One turn of the loop in [walk]: a directory is entered unless its name
    starts with a dot or is node_modules, a file is kept when its extension,
    in lower case, is one of [extensions]. *)
Fixpoint visit (extensions : list string) (current : string) (entry : Dirent)
  : list string :=
  match entry with
  | IsDirectory name entries =>
      if negb (prefix "." name) && negb (String.eqb name "node_modules")
      then flat_map (visit extensions (path_join sys current name)) entries
      else []
  | IsFile name =>
      if existsb (String.eqb (toLowerCase (path_extname sys name))) extensions
      then [path_join sys current name]
      else []
  | IsOther _ => []
  end.

(** [walk(current)] on a directory that exists, the paths pushed in
    order. *)
Definition walk (extensions : list string) (current : string) (entries : list Dirent)
  : list string :=
  flat_map (visit extensions current) entries.

(** [findFiles]; [None] when [readdirSync] throws at [dir]. *)
Definition findFiles (dir : string) (extensions : list string) : option (list string) :=
  match fs_found sys dir with
  | Nothing => Some []
  | NotADirectory => None
  | Listing entries => Some (walk extensions dir entries)
  end.

Definition re_md_h1 : RegExp := mkRegExp "^# (.+)$" "gm".
Definition re_md_h2 : RegExp := mkRegExp "^## (.+)$" "gm".
Definition re_md_h3 : RegExp := mkRegExp "^### (.+)$" "gm".
Definition re_md_strong : RegExp := mkRegExp "\*\*(.+?)\*\*" "g".
Definition re_md_em : RegExp := mkRegExp "\*(.+?)\*" "g".
Definition re_md_li : RegExp := mkRegExp "^- (.+)$" "gm".
Definition re_md_ul : RegExp := mkRegExp "(<li>.*<\/li>\n?)+" "g".
Definition re_md_p : RegExp := mkRegExp "\n\n(.+)" "g".

Definition markdownToHTML (md : string) : string :=
  let s := String_replace sys re_md_h1 "<h1>$1</h1>" md in
  let s := String_replace sys re_md_h2 "<h2>$1</h2>" s in
  let s := String_replace sys re_md_h3 "<h3>$1</h3>" s in
  let s := String_replace sys re_md_strong "<strong>$1</strong>" s in
  let s := String_replace sys re_md_em "<em>$1</em>" s in
  let s := String_replace sys re_md_li "<li>$1</li>" s in
  let s := String_replace sys re_md_ul "<ul>$&</ul>" s in
  String_replace sys re_md_p (nl ++ nl ++ "<p>$1</p>") s.

Definition scoreColor (score : Z) : string :=
  if 80 <=? score then chalk_green sys (show score ++ "/100")
  else if 60 <=? score then chalk_yellow sys (show score ++ "/100")
  else chalk_red sys (show score ++ "/100").

Definition severityIcon (severity : Severity) : string :=
  match severity with
  | high => "🔴"
  | medium => "🟡"
  | low => "🔵"
  end.

(** The files to analyze: the one given with --file, or those found under
    --dir.  An empty --file counts as not given. *)
Definition files_of (options : CommandOptions) : option (list string) :=
  match opt_file options with
  | Some f =>
      if String.eqb f ""
      then findFiles (path_resolve sys (opt_dir options)) SUPPORTED_EXTENSIONS
      else Some [path_resolve sys f]
  | None => findFiles (path_resolve sys (opt_dir options)) SUPPORTED_EXTENSIONS
  end.

(** The body of the [try] block: the entry pushed to [results], or the text
    of the error caught. *)
Definition try_analyze (analyzer : t) (file : string) : ResultEntry + string :=
  match fs_readFileSync sys file with
  | inl content =>
      let ext := toLowerCase (path_extname sys file) in
      let content :=
        if String.eqb ext ".md" || String.eqb ext ".mdx"
        then markdownToHTML content
        else content in
      let result := analyze host analyzer content in
      inl (mkResultEntry file (overallScore result) result)
  | inr err => inr err
  end.

(** One turn of the loop over the files, on [results] and the lines
    printed so far. *)
Definition analyze_file (json : bool) (analyzer : t)
  (st : list ResultEntry * list string) (file : string)
  : list ResultEntry * list string :=
  let '(results, console) := st in
  match try_analyze analyzer file with
  | inl entry => ((results ++ [entry])%list, console)
  | inr err =>
      if negb json
      then (results, log console (chalk_red sys ("❌ Error analyzing " ++ file ++ ": " ++ err)))
      else (results, console)
  end.

Definition analyze_files (json : bool) (analyzer : t) (files : list string)
  (console : list string) : list ResultEntry * list string :=
  fold_left (analyze_file json analyzer) files ([], console).

(** [(a, b) => a.score - b.score] *)
Definition by_score (a b : ResultEntry) : Z := score a - score b.

(** [score >= minScore], false when [minScore] is NaN. *)
Definition ge_num (score : Z) (minScore : option Z) : bool :=
  match minScore with
  | Some m => m <=? score
  | None => false
  end.

Definition print_issue (console : list string) (issue : AnalysisIssue) : list string :=
  let console :=
    log console
      ("   " ++ severityIcon (severity issue) ++ " " ++ chalk_white sys (message issue)) in
  log console ("      " ++ chalk_gray sys ("Fix: " ++ fix_ issue)).

(** One turn of the loop that prints the results, on [shown] and the lines
    printed so far. *)
Definition print_result (minScore : option Z) (st : nat * list string) (r : ResultEntry)
  : nat * list string :=
  let '(shown, console) := st in
  if ge_num (score r) minScore then (shown, console)
  else
    let relPath := path_relative sys (file r) in
    let icon := if 80 <=? score r then "✅" else if 60 <=? score r then "⚠️ " else "❌" in
    let console :=
      log console (icon ++ " " ++ chalk_bold sys relPath ++ " — " ++ scoreColor (score r)) in
    let b := breakdown (result r) in
    let console :=
      log console
        (chalk_gray sys
           ("   Answer placement: " ++ show (answerFrontLoading b)
            ++ "  Fact density: " ++ show (factDensity b)
            ++ "  Headings: " ++ show (headingStructure b)
            ++ "  E-E-A-T: " ++ show (eeatSignals b)
            ++ "  Schema: " ++ show (schemaCoverage b))) in
    let console := fold_left print_issue (firstn 3 (issues (result r))) console in
    let console :=
      if (3 <? List.length (issues (result r)))%nat
      then log console
             (chalk_gray sys
                ("   ... and "
                 ++ show (Z.of_nat (List.length (issues (result r))) - 3)
                 ++ " more issues"))
      else console in
    (S shown, log console "").

Definition print_results (minScore : option Z) (results : list ResultEntry)
  (console : list string) : nat * list string :=
  fold_left (print_result minScore) results (0%nat, console).

(** [results.reduce((s, r) => s + r.score, 0)]: a sum of integers, exact as
    long as it stays below 2^53. *)
Definition total (results : list ResultEntry) : Z :=
  fold_left (fun s r => s + score r) results 0.

Definition average (results : list ResultEntry) : Z :=
  if (0 <? List.length results)%nat
  then Math_round (fdiv (Z2SF (total results)) (Z2SF (Z.of_nat (List.length results))))
  else 0.

Definition passing (results : list ResultEntry) : nat :=
  List.length (filter (fun r => 80 <=? score r) results).

Definition summary (results : list ResultEntry) (console : list string) : list string :=
  let console := log console (chalk_bold sys (repeat_string "─" 50)) in
  let console :=
    log console
      (chalk_bold sys "Files scanned:" ++ " " ++ show (Z.of_nat (List.length results))) in
  let console :=
    log console (chalk_bold sys "Average score:" ++ " " ++ scoreColor (average results)) in
  let console :=
    log console
      (chalk_bold sys "Passing (≥80):" ++ " "
       ++ chalk_green sys (show (Z.of_nat (passing results)))
       ++ " / " ++ show (Z.of_nat (List.length results))) in
  log console "".

(** The action of the command: the lines it prints, [None] when the scan
    of the directory throws. *)
Definition action (options : CommandOptions) : option (list string) :=
  let analyzer := constructor (mkAnalyzerOptions None None None None None None) in
  match files_of options with
  | None => None
  | Some files =>
      if (List.length files =? 0)%nat
      then Some (log [] (chalk_yellow sys "⚠️  No HTML or Markdown files found"))
      else
        let console :=
          if negb (opt_json options)
          then
            let console := log [] (chalk_bold_cyan sys (nl ++ "🔍 ai-visibility analyze" ++ nl)) in
            log console
              (chalk_gray sys
                 ("Scanning " ++ show (Z.of_nat (List.length files)) ++ " file(s)..." ++ nl))
          else [] in
        let '(results, console) := analyze_files (opt_json options) analyzer files console in
        let minScore := parseInt (opt_minScore options) in
        if opt_json options
        then Some (log console (JSON_stringify sys results))
        else
          let results := Array_sort by_score results in
          let '(shown, console) := print_results minScore results console in
          let console :=
            if (shown =? 0)%nat
            then log console
                   (chalk_green sys ("✅ All files meet the minimum score threshold!" ++ nl))
            else console in
          Some (summary results console)
  end.

End WithSystem.

End Cli.

(* ================================================================== *)
(** ** Names used to state the properties *)

(** The six checks of [analyze], in the order they run. *)
Inductive CheckName : Type :=
| AnswerPlacement | FactDensity | HeadingStructure | EEAT | Snippability | Schema.

Definition issue_type (c : CheckName) : IssueType :=
  match c with
  | AnswerPlacement => answer_placement
  | FactDensity => fact_density
  | HeadingStructure => heading_structure
  | EEAT => eeat
  | Snippability => snippability
  | Schema => schema
  end.

(** The option that switches a check on. *)
Definition enabled (o : Options) (c : CheckName) : bool :=
  match c with
  | AnswerPlacement => ToBoolean (checkAnswerPlacement o)
  | FactDensity => ToBoolean (checkFactDensity_on o)
  | HeadingStructure => ToBoolean (checkHeadingStructure_on o)
  | EEAT => ToBoolean (checkEEAT_on o)
  | Snippability => ToBoolean (checkSnippability_on o)
  | Schema => ToBoolean (checkSchema o)
  end.

(** The breakdown entry a check fills. *)
Definition entry (b : Breakdown) (c : CheckName) : Z :=
  match c with
  | AnswerPlacement => answerFrontLoading b
  | FactDensity => factDensity b
  | HeadingStructure => headingStructure b
  | EEAT => eeatSignals b
  | Snippability => snippability_score b
  | Schema => schemaCoverage b
  end.

Definition all_checks : list CheckName :=
  [AnswerPlacement; FactDensity; HeadingStructure; EEAT; Snippability; Schema].

Definition has_type (ty : IssueType) (i : AnalysisIssue) : bool :=
  IssueType_eqb (type i) ty.

Definition has_severity (s : Severity) (i : AnalysisIssue) : bool :=
  Severity_eqb (severity i) s.

(** Follows the spec's words: the severity rank, high = 0, medium = 1,
    low = 2. *)
Definition severity_rank (s : Severity) : Z :=
  match s with
  | high => 0
  | medium => 1
  | low => 2
  end.

(** Issues in non-decreasing severity rank. *)
Definition rank_le (a b : AnalysisIssue) : Prop :=
  severity_rank (severity a) <= severity_rank (severity b).

(* ================================================================== *)
(** ** Sample documents and a sample host *)

Module Sample.

Import JSNumber JSString Dom Runtime.
Local Open Scope string_scope.

(** What the parser returns for a text without markup: the [html], [head]
    and [body] elements it always supplies, the text inside [body]. *)
Definition plain_text_page (s : string) : list node :=
  [Element "html" []
     [Element "head" [] [];
      Element "body" [] (if String.eqb s "" then [] else [Text s])]].

(** The document parsed from the empty string. *)
Definition empty_page : list node := plain_text_page "".

(** A host for documents without markup, regular-expression matches or
    JSON: it parses its input as text and splits at white space. *)
Definition host : Host :=
  mkHost plain_text_page text_of_nodes
    (fun _ _ => false) (fun _ _ => None) (fun _ s => words s) (fun _ => None).

Definition page (body : list node) : list node :=
  [Element "html" [] [Element "head" [] []; Element "body" [] body]].

(** The page of the test 'detects heading level skip'. *)
Definition skipped_h2_page : list node :=
  page [Element "h1" [] [Text "Title"];
        Element "h3" [] [Text "Skipped H2"];
        Element "p" [] [Text "Content here that is long enough to be meaningful."]].

(** The body of POOR_HTML in the tests, white space between the tags left
    out. *)
Definition poor_page : list node :=
  page [Element "h3" [] [Text "Some Subheading"];
        Element "p" [] [Text "Welcome to our amazing platform!"];
        Element "h3" [] [Text "Another Thing"];
        Element "p" [] [Text "We are the best!"]].

(** A heading inside a [header], the first paragraph after it. *)
Definition header_page : list node :=
  page [Element "header" [] [Element "h1" [] [Text "Pricing"]];
        Element "p" [] [Text "Our pricing is simple: one plan, billed monthly, cancel at any time."]].

(** A heading followed by a [div] that holds a paragraph, then by a
    paragraph. *)
Definition nested_page : list node :=
  page [Element "h1" [] [Text "Pricing"];
        Element "div" [] [Element "p" [] [Text "Plans start at 10 dollars."]];
        Element "p" [] [Text "Our pricing is simple: one plan, billed monthly, cancel at any time."]].

Definition no_options : AnalyzerOptions :=
  mkAnalyzerOptions None None None None None None.

(** [new ContentAnalyzer({ checkEEAT: false, checkSchema: false })], as in
    the test 'respects disabled checks'. *)
Definition custom_options : AnalyzerOptions :=
  mkAnalyzerOptions None None None (Some (Some false)) None (Some (Some false)).

(** The [h1] of [nested_page], with the siblings after it. *)
Definition nested_h1 : element :=
  mkElement "h1" [] [Text "Pricing"]
    [Element "div" [] [Element "p" [] [Text "Plans start at 10 dollars."]];
     Element "p" [] [Text "Our pricing is simple: one plan, billed monthly, cancel at any time."]].


(** A page whose only JSON-LD block does not parse. *)
Definition broken_jsonld_page : list node :=
  [Element "html" []
     [Element "head" []
        [Element "script" [("type"%string, "application/ld+json"%string)] [Text "{ not json"]];
      Element "body" [] []]].

(** A page with a clean outline. *)
Definition clean_outline_page : list node :=
  page
    [Element "h1" [] [Text "Guide"];
     Element "h2" [] [Text "Install"];
     Element "h3" [] [Text "From source"];
     Element "h2" [] [Text "Use"]].

(** A page with an empty [main] element before the heading and its
    paragraph. *)
Definition empty_main_page : list node :=
  page
    [Element "main" [] [];
     Element "h1" [] [Text "Pricing"];
     Element "p" [] [Text "Our pricing is simple: one plan, billed monthly, cancel at any time."]].

End Sample.

(* ================================================================== *)
(** ** The spec's reading of the answer-placement paragraph *)

Module SpecReading.

Import Dom ContentAnalyzer.

(** The elements after the first one that satisfies [p], in document
    order. *)
Fixpoint after_first (p : element -> bool) (l : list element) : list element :=
  match l with
  | [] => []
  | e :: r => if p e then r else after_first p r
  end.

(** Follows the spec's words: "the first paragraph following the principal
    heading in document order". *)
Definition first_p_in_document_order (doc : list node) : selection :=
  first (filter (matches sel_p) (after_first (matches sel_h1) (elements doc))).

End SpecReading.

(* ================================================================== *)
(** ** Quantities the properties are stated with *)

Section Quantities.

Import JSNumber JSString Dom Runtime ContentAnalyzer.

Context (host : Host).

(** The check behind each name. *)
Definition check_of (c : CheckName) : document -> CheckResult :=
  match c with
  | AnswerPlacement => checkAnswerFrontLoading
  | FactDensity => checkFactDensity host
  | HeadingStructure => checkHeadingStructure
  | EEAT => checkEEAT host
  | Snippability => checkSnippability
  | Schema => checkSchemaCoverage host
  end.

(** What a caller passed for a check: [None] when the key is left out,
    [Some None] when it is passed as [undefined]. *)
Definition given (o : AnalyzerOptions) (c : CheckName) : option flag :=
  match c with
  | AnswerPlacement => opt_checkAnswerPlacement o
  | FactDensity => opt_checkFactDensity o
  | HeadingStructure => opt_checkHeadingStructure o
  | EEAT => opt_checkEEAT o
  | Snippability => opt_checkSnippability o
  | Schema => opt_checkSchema o
  end.

(** The four signals the E-E-A-T check looks for, in its order. *)
Inductive Signal : Type := AuthorInfo | OrganizationInfo | ContactInfo | TrustSignals.

Definition all_signals : list Signal :=
  [AuthorInfo; OrganizationInfo; ContactInfo; TrustSignals].

(** Whether a document shows a signal: an element for it, or, for the
    author and the trust signals, a phrase in the text of the body. *)
Definition shows (doc : document) (s : Signal) : bool :=
  match s with
  | AuthorInfo =>
      (0 <? List.length (select sel_author doc))%nat
      || RegExp_test host re_author (text (select sel_body doc))
  | OrganizationInfo =>
      (0 <? List.length (select sel_org doc))%nat
      || (0 <? List.length (select sel_site_name doc))%nat
  | ContactInfo => (0 <? List.length (select sel_contact doc))%nat
  | TrustSignals =>
      existsb (fun pattern => RegExp_test host pattern (text (select sel_body doc)))
        trustSignals
  end.

(** What is reported for a signal that is missing: the severity and the
    message. *)
Definition missing_report (s : Signal) : Severity * string :=
  match s with
  | AuthorInfo => (medium, "No author information detected"%string)
  | OrganizationInfo => (low, "No organization/publisher markup found"%string)
  | ContactInfo => (medium, "No contact information found"%string)
  | TrustSignals => (low, "No expertise/trust signals detected"%string)
  end.

(** The words and the fact tokens of one paragraph, as the loop counts
    them. *)
Definition words_in (el : element) : nat :=
  List.length (filter (fun w => negb (String.eqb w "")) (String_split host re_whitespace (text [el]))).

Definition facts_in (el : element) : nat :=
  List.length (match String_match host re_facts (text [el]) with
               | Some l => l
               | None => []
               end).

(** The total word count W and fact-token count F over all paragraphs. *)
Definition totalWords (doc : document) : nat := list_sum (map words_in (select sel_p doc)).
Definition verifiableFacts (doc : document) : nat := list_sum (map facts_in (select sel_p doc)).

(** Follows the claim's words: the score and the severities of the issues
    as a piecewise function of W and F, the rate r = F / W * 100 being
    computed as the source does. *)
Definition fact_density_rating (W F : nat) : Z * list Severity :=
  if (W =? 0)%nat then (0, [high])
  else
    let r := fmul (fdiv (counter F) (counter W)) lit_100 in
    if flt r lit_2 then (25, [high])
    else if flt r lit_4 then (60, [medium])
    else if fgt r lit_10 then (75, [low])
    else (95, []).

(** One step of the walk, on the tag name alone. *)
Definition skip_tag (st : option Z * Z * list AnalysisIssue) (tag : string)
  : option Z * Z * list AnalysisIssue :=
  let '(lastLevel, score, issues) := st in
  let level := parseInt (remove_first "h" tag) in
  if gt_num level (add1 lastLevel)
  then (level, score - 10, issues ++ [skipped_issue lastLevel level])
  else (level, score, issues).

(** A list of heading levels in which no level is more than one below the
    one before it, counted from [prev]. *)
Fixpoint outline_ok (prev : Z) (levels : list (option Z)) : Prop :=
  match levels with
  | [] => True
  | Some level :: rest => level <= prev + 1 /\ outline_ok level rest
  | None :: _ => False
  end.

(** What each heading issue costs: 40 for the missing H1, 20 for several
    H1s and for H3 without H2, 10 for a skipped level and for an empty
    heading. *)
Definition penalty (i : AnalysisIssue) : Z :=
  match severity i with
  | high => 40
  | medium => if String.eqb (message i) "Empty heading tag found" then 10 else 20
  | low => 10
  end.

Definition total_penalty (l : list AnalysisIssue) : Z :=
  fold_right (fun i acc => penalty i + acc) 0 l.

(** A subheading whose next sibling element holds at least 80 characters
    of trimmed text. *)
Definition snippable (el : element) : bool :=
  (80 <=? String.length (trim (text (next el))))%nat.

(** A JSON-LD block the loop counts as valid: it parses to a value other
    than [null] whose [@context] and [@type] are both truthy. *)
Definition schema_block_valid (el : element) : bool :=
  match JSON_parse host (cheerio_html host (children el)) with
  | None | Some JNull => false
  | Some json => truthy (get_property json "@context") && truthy (get_property json "@type")
  end.

(** A JSON-LD block that ends in the [catch] branch. *)
Definition schema_block_broken (el : element) : bool :=
  match JSON_parse host (cheerio_html host (children el)) with
  | None | Some JNull => true
  | Some _ => false
  end.

(** The closing line [generateRecommendations] returns when no threshold
    fires. *)
Definition affirmation : string :=
  "âœ… Great job! Your content is well-optimized for AI visibility".

(** How many of the six thresholds a breakdown falls below. *)
Definition below_threshold (b : Breakdown) : nat :=
  (Nat.b2n (answerFrontLoading b <? 70)%Z
   + Nat.b2n (factDensity b <? 60)%Z
   + Nat.b2n (headingStructure b <? 80)%Z
   + Nat.b2n (eeatSignals b <? 60)%Z
   + Nat.b2n (snippability_score b <? 70)%Z
   + Nat.b2n (schemaCoverage b <? 50)%Z)%nat.

(** The shape of [generateRecommendations]: one line per threshold that
    fires, the closing line when none does. *)
Definition recommend (lines : list (bool * string)) (closing : string) : list string :=
  let recs := map snd (filter fst lines) in
  if (List.length recs =? 0)%nat then recs ++ [closing] else recs.


End Quantities.

(* ================================================================== *)
(** ** Quantities the properties of the command are stated with *)

Section CommandQuantities.

Import JSNumber JSString Dom Runtime ContentAnalyzer.

Context (host : Host) (sys : Cli.System).

(** The analyzer the command creates: [new ContentAnalyzer()]. *)
Definition default_analyzer : t :=
  constructor (mkAnalyzerOptions None None None None None None).

(** Whether a file can be read. *)
Definition readable (file : string) : bool :=
  match Cli.fs_readFileSync sys file with
  | inl _ => true
  | inr _ => false
  end.

(** The line printed for a file that cannot be read. *)
Definition error_line (file : string) : string :=
  match Cli.fs_readFileSync sys file with
  | inl _ => EmptyString
  | inr err =>
      Cli.chalk_red sys
        (String.append "❌ Error analyzing "
           (String.append file (String.append ": " err)))
  end.

(** The entries the loop over the files pushes. *)
Fixpoint entries_of (analyzer : t) (files : list string) : list Cli.ResultEntry :=
  match files with
  | [] => []
  | file :: rest =>
      match Cli.try_analyze host sys analyzer file with
      | inl entry => entry :: entries_of analyzer rest
      | inr _ => entries_of analyzer rest
      end
  end.

(** The results the report lists: those with a score below the
    threshold. *)
Definition listed (minScore : option Z) (results : list Cli.ResultEntry)
  : list Cli.ResultEntry :=
  filter (fun r => negb (Cli.ge_num (Cli.score r) minScore)) results.

(** The lines the report prints for one issue, and for one result it
    lists. *)
Definition issue_lines (i : AnalysisIssue) : list string := Cli.print_issue sys [] i.

Definition result_lines (r : Cli.ResultEntry) : list string :=
  snd (Cli.print_result sys None (0%nat, []) r).

(** The line that tells how many issues are left out, when more than three
    were found. *)
Definition more_issues_line (n : nat) : list string :=
  if (3 <? n)%nat
  then [Cli.chalk_gray sys
          (String.append "   ... and "
             (String.append (Cli.show (Z.of_nat n - 3)) " more issues"))]
  else [].

(** Results in non-decreasing score. *)
Definition score_le (a b : Cli.ResultEntry) : Prop := Cli.score a <= Cli.score b.

Definition has_score (v : Z) (r : Cli.ResultEntry) : bool := Cli.score r =? v.

(** Whether a directory is one the scan does not enter. *)
Definition hidden (name : string) : bool :=
  prefix "." name || String.eqb name "node_modules".

(** Whether a name has one of the extensions, whatever the case of its
    letters. *)
Definition supported (extensions : list string) (name : string) : bool :=
  existsb (String.eqb (toLowerCase (Cli.path_extname sys name))) extensions.

End CommandQuantities.

(* ================================================================== *)
(** ** A sample system *)

Module SampleSystem.

Import JSString Dom Runtime.
Local Open Scope string_scope.

(** The extension of a name with at most one dot. *)
Fixpoint extname (s : string) : string :=
  match s with
  | EmptyString => ""
  | String "." r => s
  | String _ r => extname r
  end.

(** Two pages and a file that cannot be read. *)
Definition readFileSync (file : string) : string + string :=
  if String.eqb file "a.html" then inl "Plans start at 10 dollars."
  else if String.eqb file "b.md" then inl ""
  else inr "Error: ENOENT".

Definition sys : Cli.System :=
  Cli.mkSystem
    (fun p => p) (fun d n => d ++ "/" ++ n) extname (fun p => p)
    (fun _ => Cli.Nothing) readFileSync
    (fun s => s) (fun s => s) (fun s => s) (fun s => s) (fun s => s) (fun s => s)
    (fun s => s)
    (fun results => Cli.show (Z.of_nat (List.length results)))
    (fun _ _ s => s).

Definition files : list string := ["a.html"; "missing.html"; "b.md"].

Definition default_options : Cli.CommandOptions :=
  Cli.mkCommandOptions "." (Some "a.html") false "101".

Definition json_options : Cli.CommandOptions :=
  Cli.mkCommandOptions "." (Some "a.html") true "101".

End SampleSystem.

(* ================================================================== *)
(** ** Bounds on binary64 values *)

(** A record with neither the round nor the sticky bit set. *)
Definition exact_record (mrs : shr_record) : Prop :=
  shr_r mrs = false /\ shr_s mrs = false.

(** [m * 2^e <= M * 2^E] and [m * 2^e < M * 2^E], over the integers. *)
Definition scaled_le (m e M E : Z) : Prop :=
  m * 2 ^ (e - Z.min e E) <= M * 2 ^ (E - Z.min e E).

Definition scaled_lt (m e M E : Z) : Prop :=
  m * 2 ^ (e - Z.min e E) < M * 2 ^ (E - Z.min e E).

(** [0 <= x <= M * 2^E]. *)
Definition below (x : spec_float) (M E : Z) : Prop :=
  match x with
  | S754_zero false => True
  | S754_finite false m e => scaled_le (Zpos m) e M E
  | _ => False
  end.


(* ================================================================== *)
(** ** Lists, folds and the stable sort *)

Section ListFacts.

Context {A B : Type}.

Lemma fold_left_invariant (P : B -> Prop) (step : B -> A -> B) (l : list A) :
  forall init, P init -> (forall st x, P st -> P (step st x)) -> P (fold_left step l init).
Proof.
  induction l as [|x l IH]; intros init Hinit Hstep; simpl.
  - exact Hinit.
  - apply IH; auto.
Qed.

Lemma insert_sorted_In (cmp : A -> A -> Z) (x y : A) (l : list A) :
  In y (Runtime.insert_sorted cmp x l) <-> y = x \/ In y l.
Proof.
  induction l as [|z l IH]; simpl.
  - intuition.
  - destruct (cmp x z <=? 0); simpl; rewrite ?IH; intuition.
Qed.

Lemma Array_sort_In (cmp : A -> A -> Z) (y : A) (l : list A) :
  In y (Runtime.Array_sort cmp l) <-> In y l.
Proof.
  unfold Runtime.Array_sort.
  induction l as [|x l IH]; simpl.
  - tauto.
  - rewrite insert_sorted_In, IH. intuition.
Qed.

Lemma insert_sorted_Permutation (cmp : A -> A -> Z) (x : A) (l : list A) :
  Permutation (x :: l) (Runtime.insert_sorted cmp x l).
Proof.
  induction l as [|z l IH]; simpl.
  - apply Permutation_refl.
  - destruct (cmp x z <=? 0).
    + apply Permutation_refl.
    + eapply perm_trans; [apply perm_swap|]. apply perm_skip, IH.
Qed.

Lemma Array_sort_Permutation (cmp : A -> A -> Z) (l : list A) :
  Permutation l (Runtime.Array_sort cmp l).
Proof.
  unfold Runtime.Array_sort.
  induction l as [|x l IH]; simpl.
  - apply perm_nil.
  - eapply perm_trans; [apply perm_skip, IH|]. apply insert_sorted_Permutation.
Qed.

End ListFacts.

Section SeveritySort.

Import ContentAnalyzer.

Lemma severity_order_inj (s1 s2 : Severity) :
  severity_order s1 = severity_order s2 -> s1 = s2.
Proof. destruct s1, s2; simpl; intros H; congruence || lia. Qed.

(** The table the comparison function reads is the rank of the spec. *)
Lemma severity_order_is_rank (s : Severity) : severity_order s = severity_rank s.
Proof. destruct s; reflexivity. Qed.

Lemma Severity_eqb_eq (s1 s2 : Severity) : Severity_eqb s1 s2 = true <-> s1 = s2.
Proof. destruct s1, s2; simpl; split; congruence. Qed.

Lemma IssueType_eqb_eq (t1 t2 : IssueType) : IssueType_eqb t1 t2 = true <-> t1 = t2.
Proof. destruct t1, t2; simpl; split; congruence. Qed.

(** Inserting an issue keeps a list in severity order. *)
Lemma insert_sorted_StronglySorted (x : AnalysisIssue) (l : list AnalysisIssue) :
  StronglySorted rank_le l ->
  StronglySorted rank_le (Runtime.insert_sorted by_severity x l).
Proof.
  induction 1 as [|y l Hs IH Hy]; cbn [Runtime.insert_sorted].
  - constructor; constructor.
  - destruct (by_severity x y <=? 0) eqn:E.
    + apply Z.leb_le in E. unfold by_severity in E.
      rewrite (severity_order_is_rank (severity x)), (severity_order_is_rank (severity y)) in E.
      constructor.
      * constructor; assumption.
      * constructor.
        -- unfold rank_le. lia.
        -- eapply Forall_impl; [|exact Hy].
           intros a Ha. unfold rank_le in *. lia.
    + apply Z.leb_gt in E. unfold by_severity in E.
      rewrite (severity_order_is_rank (severity x)), (severity_order_is_rank (severity y)) in E.
      constructor; [exact IH|].
      apply Forall_forall. intros a Ha.
      apply insert_sorted_In in Ha. destruct Ha as [->|Ha].
      * unfold rank_le. lia.
      * rewrite Forall_forall in Hy. apply Hy, Ha.
Qed.

Lemma Array_sort_StronglySorted (l : list AnalysisIssue) :
  StronglySorted rank_le (Runtime.Array_sort by_severity l).
Proof.
  unfold Runtime.Array_sort.
  induction l as [|x l IH]; simpl.
  - constructor.
  - apply insert_sorted_StronglySorted, IH.
Qed.

Lemma filter_none {A : Type} (p : A -> bool) (l : list A) :
  (forall y, In y l -> p y = false) -> filter p l = [].
Proof.
  induction l as [|x l IH]; intros H; [reflexivity|].
  cbn [filter]. rewrite (H x (or_introl eq_refl)). apply IH.
  intros y Hy. apply H. right. exact Hy.
Qed.

(** A list in severity order is its high issues, then its medium issues,
    then its low issues. *)
Lemma sorted_by_rank_partition (l : list AnalysisIssue) :
  StronglySorted rank_le l ->
  l = filter (has_severity high) l ++ filter (has_severity medium) l
      ++ filter (has_severity low) l.
Proof.
  induction 1 as [|x l Hs IH Hx]; [reflexivity|].
  rewrite Forall_forall in Hx.
  assert (Hnone : forall s, severity_rank s < severity_rank (severity x) ->
                            filter (has_severity s) l = []).
  { intros s Hlt. apply filter_none. intros y Hy. specialize (Hx y Hy).
    unfold rank_le in Hx. unfold has_severity.
    destruct (Severity_eqb (severity y) s) eqn:E; [|reflexivity].
    apply Severity_eqb_eq in E. rewrite E in Hx. lia. }
  cbn [filter].
  set (H := filter (has_severity high) l) in *.
  set (M := filter (has_severity medium) l) in *.
  set (L := filter (has_severity low) l) in *.
  unfold has_severity.
  destruct (severity x) eqn:Ex; cbn [Severity_eqb].
  - cbn [app]. f_equal. exact IH.
  - assert (Hh : H = []) by (apply Hnone; cbn; lia).
    rewrite Hh in *. cbn [app] in *. f_equal. exact IH.
  - assert (Hh : H = []) by (apply Hnone; cbn; lia).
    assert (Hm : M = []) by (apply Hnone; cbn; lia).
    rewrite Hh, Hm in *. cbn [app] in *. f_equal. exact IH.
Qed.

(** Inserting an issue does not move the issues of one severity past each
    other: the inserted one lands in front of its peers. *)
Lemma insert_sorted_filter (s : Severity) (x : AnalysisIssue) (l : list AnalysisIssue) :
  filter (has_severity s) (Runtime.insert_sorted by_severity x l)
  = filter (has_severity s) (x :: l).
Proof.
  induction l as [|y l IH].
  - reflexivity.
  - cbn [Runtime.insert_sorted].
    destruct (by_severity x y <=? 0) eqn:E; [reflexivity|].
    apply Z.leb_gt in E. unfold by_severity in E.
    cbn [filter] in *. rewrite IH.
    unfold has_severity.
    destruct (Severity_eqb (severity x) s) eqn:Ex;
      destruct (Severity_eqb (severity y) s) eqn:Ey; try reflexivity.
    apply Severity_eqb_eq in Ex, Ey. rewrite Ex, Ey in E. lia.
Qed.

Lemma Array_sort_filter (s : Severity) (l : list AnalysisIssue) :
  filter (has_severity s) (Runtime.Array_sort by_severity l) = filter (has_severity s) l.
Proof.
  unfold Runtime.Array_sort.
  induction l as [|x l IH].
  - reflexivity.
  - cbn [fold_right]. rewrite insert_sorted_filter. cbn [filter]. rewrite IH. reflexivity.
Qed.

End SeveritySort.

(* ================================================================== *)
(** ** Binary64 arithmetic: rounding never steps over a bound

    The lemmas of this section bound the results of [fadd], [fmul] and [fdiv]
    on non-negative operands: if the exact result is at most [M * 2^E], a
    number of the format, so is the rounded one. *)

Section Binary64.

Import JSNumber.

Lemma fexp_eq (e : Z) : fexp prec emax e = Z.max (e - 53) (-1074).
Proof. reflexivity. Qed.

Lemma digits2_pos_bounds (p : positive) :
  2 ^ (Zpos (digits2_pos p) - 1) <= Zpos p < 2 ^ Zpos (digits2_pos p).
Proof.
  induction p as [p IH|p IH|]; cbn [digits2_pos].
  - rewrite Pos2Z.inj_succ.
    replace (Z.succ (Zpos (digits2_pos p)) - 1) with (Z.succ (Zpos (digits2_pos p) - 1)) by lia.
    rewrite !Z.pow_succ_r by lia. lia.
  - rewrite Pos2Z.inj_succ.
    replace (Z.succ (Zpos (digits2_pos p)) - 1) with (Z.succ (Zpos (digits2_pos p) - 1)) by lia.
    rewrite !Z.pow_succ_r by lia. lia.
  - simpl. lia.
Qed.

(** More digits, larger number: a positive below [2^k] has at most [k] digits. *)
Lemma digits2_pos_le (p : positive) (k : Z) :
  Zpos p < 2 ^ k -> Zpos (digits2_pos p) <= k.
Proof.
  intros H. destruct (digits2_pos_bounds p) as [Hlo _].
  destruct (Z_lt_le_dec k (Zpos (digits2_pos p))) as [Hlt|]; [|assumption].
  exfalso.
  assert (2 ^ k <= 2 ^ (Zpos (digits2_pos p) - 1)).
  { destruct (Z_lt_le_dec k 0).
    - rewrite (Z.pow_neg_r 2 k) by assumption. apply Z.pow_nonneg. lia.
    - apply Z.pow_le_mono_r; lia. }
  lia.
Qed.

Lemma pow2_xO (p : positive) : 2 ^ Zpos p~0 = 2 ^ Zpos p * 2 ^ Zpos p.
Proof. rewrite <- Z.pow_add_r by lia. f_equal. lia. Qed.

Lemma pow2_xI (p : positive) : 2 ^ Zpos p~1 = 2 * (2 ^ Zpos p * 2 ^ Zpos p).
Proof.
  replace (Zpos p~1) with (Z.succ (Zpos p~0)) by lia.
  rewrite Z.pow_succ_r by lia. rewrite pow2_xO. reflexivity.
Qed.

Lemma pow2_pos (k : Z) : 0 <= k -> 0 < 2 ^ k.
Proof. intros. apply Z.pow_pos_nonneg; lia. Qed.

Lemma shr_1_m (mrs : shr_record) :
  0 <= shr_m mrs -> shr_m (shr_1 mrs) = shr_m mrs / 2.
Proof.
  destruct mrs as [m r s]. cbn [shr_m]. intros Hm.
  destruct m as [|[p|p|]|p]; cbn [shr_1 shr_m]; try reflexivity; try lia.
  - apply Z.div_unique with 1; lia.
  - apply Z.div_unique with 0; lia.
Qed.

Lemma iter_pos_shr_m (p : positive) :
  forall mrs, 0 <= shr_m mrs ->
    shr_m (iter_pos shr_1 p mrs) = shr_m mrs / 2 ^ Zpos p.
Proof.
  induction p as [p IH|p IH|]; intros mrs Hm; cbn [iter_pos].
  - pose proof (pow2_pos (Zpos p) ltac:(lia)) as Hp.
    assert (H1 : 0 <= shr_m (shr_1 mrs)) by (rewrite shr_1_m by assumption; apply Z.div_pos; lia).
    assert (H2 : 0 <= shr_m (iter_pos shr_1 p (shr_1 mrs)))
      by (rewrite IH by assumption; apply Z.div_pos; assumption).
    rewrite IH, IH, shr_1_m by assumption.
    rewrite !Z.div_div by lia.
    rewrite pow2_xI. reflexivity.
  - pose proof (pow2_pos (Zpos p) ltac:(lia)) as Hp.
    assert (H2 : 0 <= shr_m (iter_pos shr_1 p mrs))
      by (rewrite IH by assumption; apply Z.div_pos; assumption).
    rewrite IH, IH by assumption.
    rewrite !Z.div_div by lia.
    rewrite pow2_xO. reflexivity.
  - rewrite shr_1_m by assumption. reflexivity.
Qed.

Lemma shr_1_exact (mrs : shr_record) (k : Z) :
  0 <= k -> exact_record mrs -> shr_m mrs = 2 * k ->
  exact_record (shr_1 mrs) /\ shr_m (shr_1 mrs) = k.
Proof.
  destruct mrs as [m r s]. unfold exact_record. cbn [shr_m shr_r shr_s].
  intros Hk [-> ->] Hm.
  destruct m as [|[p|p|]|p]; cbn [shr_1 shr_m shr_r shr_s orb]; try lia.
  all: split; [tauto|lia].
Qed.

Lemma iter_pos_shr_exact (p : positive) :
  forall mrs k, 0 <= k -> exact_record mrs -> shr_m mrs = k * 2 ^ Zpos p ->
    exact_record (iter_pos shr_1 p mrs) /\ shr_m (iter_pos shr_1 p mrs) = k.
Proof.
  induction p as [p IH|p IH|]; intros mrs k Hk He Hm; cbn [iter_pos].
  - pose proof (pow2_pos (Zpos p) ltac:(lia)) as Hp.
    rewrite pow2_xI in Hm.
    destruct (shr_1_exact mrs (k * 2 ^ Zpos p * 2 ^ Zpos p)) as [E1 M1]; [nia|assumption|nia|].
    destruct (IH (shr_1 mrs) (k * 2 ^ Zpos p)) as [E2 M2]; [nia|assumption|assumption|].
    apply IH; assumption.
  - pose proof (pow2_pos (Zpos p) ltac:(lia)) as Hp.
    rewrite pow2_xO in Hm.
    destruct (IH mrs (k * 2 ^ Zpos p)) as [E2 M2]; [nia|assumption|nia|].
    apply IH; assumption.
  - apply shr_1_exact; [assumption|assumption|]. rewrite Hm. change (2 ^ 1) with 2. lia.
Qed.

(** *** Comparing [m * 2^e] with [M * 2^E] over the integers *)

Lemma pow2_split (a b : Z) : 0 <= a -> 0 <= b -> 2 ^ (a + b) = 2 ^ a * 2 ^ b.
Proof. intros. apply Z.pow_add_r; assumption. Qed.

Lemma scaled_le_lower (m e M E c b : Z) :
  b <= c -> c <= e -> c <= E ->
  (m * 2 ^ (e - c) <= M * 2 ^ (E - c) <-> m * 2 ^ (e - b) <= M * 2 ^ (E - b)).
Proof.
  intros Hb He HE.
  replace (e - b) with ((e - c) + (c - b)) by lia.
  replace (E - b) with ((E - c) + (c - b)) by lia.
  rewrite !pow2_split by lia.
  pose proof (pow2_pos (c - b) ltac:(lia)) as Hp.
  rewrite !Z.mul_assoc.
  split; intros H.
  - exact (proj1 (Z.mul_le_mono_pos_r _ _ _ Hp) H).
  - exact (proj2 (Z.mul_le_mono_pos_r _ _ _ Hp) H).
Qed.

Lemma scaled_lt_lower (m e M E c b : Z) :
  b <= c -> c <= e -> c <= E ->
  (m * 2 ^ (e - c) < M * 2 ^ (E - c) <-> m * 2 ^ (e - b) < M * 2 ^ (E - b)).
Proof.
  intros Hb He HE.
  replace (e - b) with ((e - c) + (c - b)) by lia.
  replace (E - b) with ((E - c) + (c - b)) by lia.
  rewrite !pow2_split by lia.
  pose proof (pow2_pos (c - b) ltac:(lia)) as Hp.
  rewrite !Z.mul_assoc.
  split; intros H.
  - exact (proj1 (Z.mul_lt_mono_pos_r _ _ _ Hp) H).
  - exact (proj2 (Z.mul_lt_mono_pos_r _ _ _ Hp) H).
Qed.

(** Any common base below both exponents gives the same comparison. *)
Lemma scaled_le_base (m e M E c : Z) :
  c <= e -> c <= E ->
  (scaled_le m e M E <-> m * 2 ^ (e - c) <= M * 2 ^ (E - c)).
Proof.
  intros He HE. unfold scaled_le.
  apply scaled_le_lower; lia.
Qed.

Lemma scaled_lt_base (m e M E c : Z) :
  c <= e -> c <= E ->
  (scaled_lt m e M E <-> m * 2 ^ (e - c) < M * 2 ^ (E - c)).
Proof.
  intros He HE. unfold scaled_lt.
  apply scaled_lt_lower; lia.
Qed.

Lemma Zdigits2_bounds (m : Z) :
  0 < m -> 2 ^ (Zdigits2 m - 1) <= m < 2 ^ Zdigits2 m.
Proof.
  destruct m as [|p|p]; try lia. intros _. apply digits2_pos_bounds.
Qed.

(** A positive [m] with [m * 2^e < 2^k] has at most [k - e] digits. *)
Lemma digits_of_scaled (m e M E : Z) :
  0 < m -> 0 < M < 2 ^ 53 -> scaled_le m e M E -> Zdigits2 m + e - 53 <= E.
Proof.
  intros Hm HM H.
  set (c := Z.min e E) in *. unfold scaled_le in H. fold c in H.
  destruct (Zdigits2_bounds m Hm) as [Hlo _].
  assert (Hd : 1 <= Zdigits2 m) by (destruct m; simpl; lia).
  pose proof (pow2_pos (e - c) ltac:(lia)) as Hp1.
  pose proof (pow2_pos (E - c) ltac:(lia)) as Hp2.
  assert (H1 : 2 ^ (Zdigits2 m - 1 + (e - c)) <= m * 2 ^ (e - c)).
  { rewrite pow2_split by lia. apply Z.mul_le_mono_nonneg_r; lia. }
  assert (H2 : M * 2 ^ (E - c) < 2 ^ (53 + (E - c))).
  { rewrite pow2_split by lia. apply Z.mul_lt_mono_pos_r; lia. }
  assert (H3 : 2 ^ (Zdigits2 m - 1 + (e - c)) < 2 ^ (53 + (E - c))) by lia.
  apply Z.pow_lt_mono_r_iff in H3; lia.
Qed.

Lemma shr_record_of_loc_m (m : Z) (l : location) : shr_m (shr_record_of_loc m l) = m.
Proof. destruct l as [|[]]; reflexivity. Qed.

Lemma loc_of_shr_record_of_loc (m : Z) (l : location) :
  loc_of_shr_record (shr_record_of_loc m l) = l.
Proof. destruct l as [|[]]; reflexivity. Qed.

Lemma round_nearest_even_bounds (m : Z) (l : location) :
  m <= round_nearest_even m l <= m + 1.
Proof.
  destruct l as [|[]]; cbn [round_nearest_even]; try lia.
  destruct (Z.even m); lia.
Qed.

Lemma round_nearest_even_exact (mrs : shr_record) :
  exact_record mrs ->
  round_nearest_even (shr_m mrs) (loc_of_shr_record mrs) = shr_m mrs.
Proof. destruct mrs as [m r s]. intros [Hr Hs]. cbn in *. subst. reflexivity. Qed.

(** The first component of [shr_fexp]: the mantissa shifted to the exponent
    the format gives a number of this size, when that exponent is larger. *)
Lemma shr_fexp_spec (m e : Z) (l : location) :
  0 <= m ->
  let n := fexp prec emax (Zdigits2 m + e) - e in
  exists mrs',
    shr_fexp prec emax m e l = (mrs', Z.max e (e + n))
    /\ (n <= 0 -> mrs' = shr_record_of_loc m l)
    /\ (0 < n -> shr_m mrs' = m / 2 ^ n
                 /\ (l = loc_Exact -> forall k, 0 <= k -> m = k * 2 ^ n -> exact_record mrs')).
Proof.
  intros Hm n. unfold shr_fexp. fold n.
  destruct n as [|p|p] eqn:En; cbn [shr].
  - exists (shr_record_of_loc m l). rewrite Z.add_0_r, Z.max_id.
    split; [reflexivity|]. split; [reflexivity|lia].
  - exists (iter_pos shr_1 p (shr_record_of_loc m l)).
    replace (Z.max e (e + Zpos p)) with (e + Zpos p) by lia.
    split; [reflexivity|]. split; [lia|]. intros _. split.
    + rewrite iter_pos_shr_m by (rewrite shr_record_of_loc_m; assumption).
      rewrite shr_record_of_loc_m. reflexivity.
    + intros Hl k Hk Hmk. subst l.
      apply (iter_pos_shr_exact p _ k); [assumption|split; reflexivity|exact Hmk].
  - exists (shr_record_of_loc m l).
    replace (Z.max e (e + Zneg p)) with e by lia.
    split; [reflexivity|]. split; [reflexivity|lia].
Qed.

Lemma fexp_le (d E : Z) : d - 53 <= E -> -1074 <= E -> fexp prec emax d <= E.
Proof. intros. rewrite fexp_eq. lia. Qed.

(** Rounding a mantissa that lies below [M * 2^E], a number of the format,
    cannot step over it: first stage of [binary_round_aux]. *)
Lemma first_round (m e : Z) (l : location) (M E c : Z) :
  0 < m -> 0 < M < 2 ^ 53 -> -1074 <= E -> c <= e -> c <= E ->
  m * 2 ^ (e - c) <= M * 2 ^ (E - c) ->
  (l = loc_Exact
   \/ (m * 2 ^ (e - c) < M * 2 ^ (E - c) /\ e <= fexp prec emax (Zdigits2 m + e))) ->
  exists mrs' e',
    shr_fexp prec emax m e l = (mrs', e') /\ e <= e' /\ e' < 53 + E
    /\ 0 <= round_nearest_even (shr_m mrs') (loc_of_shr_record mrs')
    /\ round_nearest_even (shr_m mrs') (loc_of_shr_record mrs') * 2 ^ (e' - c)
       <= M * 2 ^ (E - c).
Proof.
  intros Hm HM HE Hce HcE Hle Hl.
  assert (Hsc : scaled_le m e M E) by (apply (scaled_le_base m e M E c); assumption).
  pose proof (digits_of_scaled m e M E Hm HM Hsc) as Hd.
  assert (Hd1 : 1 <= Zdigits2 m) by (destruct m; simpl; lia).
  pose proof (fexp_le (Zdigits2 m + e) E ltac:(lia) HE) as Hf.
  destruct (shr_fexp_spec m e l ltac:(lia)) as (mrs' & Heq & Hn0 & Hn1).
  set (n := fexp prec emax (Zdigits2 m + e) - e) in *.
  exists mrs', (Z.max e (e + n)).
  split; [exact Heq|].
  pose proof (pow2_pos (e - c) ltac:(lia)) as Hpe.
  destruct (Z_le_gt_dec n 0) as [Hn|Hn].
  - (* no shift *)
    rewrite (Hn0 Hn), shr_record_of_loc_m, loc_of_shr_record_of_loc.
    replace (Z.max e (e + n)) with e by lia.
    pose proof (round_nearest_even_bounds m l) as Hr.
    split; [lia|]. split; [lia|]. split; [lia|].
    destruct Hl as [->|[Hlt Hprec]].
    + cbn [round_nearest_even]. exact Hle.
    + assert (He : e <= E) by lia.
      replace (E - c) with ((E - e) + (e - c)) in Hlt |- * by lia.
      rewrite pow2_split in Hlt |- * by lia.
      rewrite Z.mul_assoc in Hlt |- *.
      apply (proj2 (Z.mul_lt_mono_pos_r _ _ _ Hpe)) in Hlt.
      apply Z.mul_le_mono_nonneg_r; lia.
  - (* the mantissa is shifted right by n *)
    destruct (Hn1 ltac:(lia)) as [Hm' Hex].
    replace (Z.max e (e + n)) with (e + n) by lia.
    assert (He' : e + n <= E) by (unfold n; lia).
    pose proof (pow2_pos n ltac:(lia)) as Hpn.
    pose proof (pow2_pos (E - (e + n)) ltac:(lia)) as HpE.
    set (B' := M * 2 ^ (E - (e + n))).
    assert (HB : M * 2 ^ (E - c) = B' * 2 ^ n * 2 ^ (e - c)).
    { unfold B'. replace (E - c) with ((E - (e + n)) + n + (e - c)) by lia.
      rewrite !pow2_split by lia. ring. }
    assert (Hm1 : m <= B' * 2 ^ n).
    { rewrite HB in Hle. exact (proj2 (Z.mul_le_mono_pos_r _ _ _ Hpe) Hle). }
    assert (Hm'le : m / 2 ^ n <= B').
    { apply Z.div_le_upper_bound; [assumption|]. lia. }
    assert (Hm'0 : 0 <= m / 2 ^ n) by (apply Z.div_pos; lia).
    assert (Hr : m / 2 ^ n <= round_nearest_even (shr_m mrs') (loc_of_shr_record mrs')
                 <= m / 2 ^ n + 1)
      by (rewrite <- Hm'; apply round_nearest_even_bounds).
    assert (Hr1 : round_nearest_even (shr_m mrs') (loc_of_shr_record mrs') <= B').
    { destruct Hl as [->|[Hlt Hprec]].
      - destruct (Z.eq_dec (m / 2 ^ n) B') as [Heq'|Hne].
        + assert (Hmul : m / 2 ^ n * 2 ^ n <= m)
            by (rewrite Z.mul_comm; apply Z.mul_div_le; assumption).
          assert (Hmk : m = B' * 2 ^ n) by (rewrite Heq' in Hmul; lia).
          rewrite (round_nearest_even_exact mrs').
          * rewrite Hm'. lia.
          * apply (Hex eq_refl B'); [lia|exact Hmk].
        + lia.
      - rewrite HB in Hlt.
        apply (proj2 (Z.mul_lt_mono_pos_r _ _ _ Hpe)) in Hlt.
        assert (m / 2 ^ n < B') by (apply Z.div_lt_upper_bound; lia).
        lia. }
    split; [lia|]. split; [lia|]. split; [lia|].
    rewrite HB. replace (e + n - c) with (n + (e - c)) by lia.
    rewrite pow2_split by lia. rewrite !Z.mul_assoc.
    apply Z.mul_le_mono_nonneg_r; [lia|].
    apply Z.mul_le_mono_nonneg_r; lia.
Qed.

Lemma binary_round_aux_zero (e : Z) :
  binary_round_aux prec emax false 0 e loc_Exact = S754_zero false.
Proof.
  unfold binary_round_aux.
  destruct (shr_fexp_spec 0 e loc_Exact ltac:(lia)) as (mrs' & Heq & Hn0 & Hn1).
  rewrite Heq.
  set (n := fexp prec emax (Zdigits2 0 + e) - e) in *.
  assert (Hm : round_nearest_even (shr_m mrs') (loc_of_shr_record mrs') = 0).
  { destruct (Z_le_gt_dec n 0) as [Hn|Hn].
    - rewrite (Hn0 Hn). reflexivity.
    - destruct (Hn1 ltac:(lia)) as [Hm' Hex].
      rewrite round_nearest_even_exact by (apply (Hex eq_refl 0); lia).
      rewrite Hm'. apply Z.div_0_l. pose proof (pow2_pos n ltac:(lia)). lia. }
  rewrite Hm.
  destruct (shr_fexp_spec 0 (Z.max e (e + n)) loc_Exact ltac:(lia)) as (mrs2 & Heq2 & Hm0 & Hm1).
  rewrite Heq2.
  set (n2 := fexp prec emax (Zdigits2 0 + Z.max e (e + n)) - Z.max e (e + n)) in *.
  assert (Hm2 : shr_m mrs2 = 0).
  { destruct (Z_le_gt_dec n2 0) as [Hn|Hn].
    - rewrite (Hm0 Hn). reflexivity.
    - destruct (Hm1 ltac:(lia)) as [Hm' _].
      rewrite Hm'. apply Z.div_0_l. pose proof (pow2_pos n2 ltac:(lia)). lia. }
  rewrite Hm2. reflexivity.
Qed.

(** [binary_round_aux] never rounds a non-negative value past a number of
    the format that bounds it from above. *)
Lemma binary_round_aux_below (m e : Z) (l : location) (M E : Z) :
  0 <= m -> 0 < M < 2 ^ 53 -> -1074 <= E <= 918 ->
  scaled_le m e M E ->
  (l = loc_Exact
   \/ (0 < m /\ scaled_lt m e M E /\ e <= fexp prec emax (Zdigits2 m + e))) ->
  below (binary_round_aux prec emax false m e l) M E.
Proof.
  intros Hm HM HE Hle Hl.
  destruct (Z.eq_dec m 0) as [->|Hm0].
  { destruct Hl as [->|[? _]]; [|lia]. rewrite binary_round_aux_zero. exact I. }
  set (c := Z.min e E).
  assert (Hlec : m * 2 ^ (e - c) <= M * 2 ^ (E - c)) by exact Hle.
  assert (Hl' : l = loc_Exact
     \/ (m * 2 ^ (e - c) < M * 2 ^ (E - c) /\ e <= fexp prec emax (Zdigits2 m + e))).
  { destruct Hl as [?|(_ & Hlt & Hp)]; [left; assumption|right; split; assumption]. }
  destruct (first_round m e l M E c ltac:(lia) HM ltac:(lia) ltac:(lia) ltac:(lia) Hlec Hl')
    as (mrs' & e' & Heq & Hee' & He' & Hr0 & Hr).
  unfold binary_round_aux. rewrite Heq.
  set (m1 := round_nearest_even (shr_m mrs') (loc_of_shr_record mrs')) in *.
  destruct (shr_fexp_spec m1 e' loc_Exact Hr0) as (mrs2 & Heq2 & Hn0 & Hn1).
  rewrite Heq2.
  set (n2 := fexp prec emax (Zdigits2 m1 + e') - e') in *.
  assert (Hm2 : 0 <= shr_m mrs2 /\ shr_m mrs2 * 2 ^ (Z.max e' (e' + n2) - c) <= m1 * 2 ^ (e' - c)).
  { destruct (Z_le_gt_dec n2 0) as [Hn|Hn].
    - rewrite (Hn0 Hn). cbn [shr_record_of_loc shr_m].
      replace (Z.max e' (e' + n2)) with e' by lia. lia.
    - destruct (Hn1 ltac:(lia)) as [Hm' _]. rewrite Hm'.
      pose proof (pow2_pos n2 ltac:(lia)) as Hpn.
      pose proof (pow2_pos (e' - c) ltac:(lia)) as Hpe.
      replace (Z.max e' (e' + n2)) with (e' + n2) by lia.
      split; [apply Z.div_pos; lia|].
      replace (e' + n2 - c) with (n2 + (e' - c)) by lia.
      rewrite pow2_split by lia. rewrite Z.mul_assoc.
      apply Z.mul_le_mono_nonneg_r; [lia|].
      rewrite Z.mul_comm. apply Z.mul_div_le. assumption. }
  destruct Hm2 as [Hm20 Hm2].
  destruct (shr_m mrs2) as [|p|p] eqn:Ep; [exact I| |lia].
  assert (Hm1pos : 0 < m1).
  { destruct (Z.eq_dec m1 0) as [Hz|]; [|lia]. exfalso.
    rewrite Hz in Hm2. pose proof (pow2_pos (Z.max e' (e' + n2) - c) ltac:(lia)). nia. }
  assert (Hsc1 : scaled_le m1 e' M E)
    by (apply (scaled_le_base m1 e' M E c); lia).
  pose proof (digits_of_scaled m1 e' M E Hm1pos HM Hsc1) as Hd1.
  pose proof (fexp_le (Zdigits2 m1 + e') E ltac:(lia) ltac:(lia)) as Hf1.
  assert (He2 : Z.max e' (e' + n2) <= 971) by (unfold n2; lia).
  replace (Z.leb (Z.max e' (e' + n2)) (Z.sub emax prec)) with true
    by (symmetry; apply Z.leb_le; exact He2).
  cbn [below].
  apply (scaled_le_base (Zpos p) (Z.max e' (e' + n2)) M E c); lia.
Qed.

Lemma iter_xO_value (d m : positive) : Zpos (Pos.iter xO m d) = Zpos m * 2 ^ Zpos d.
Proof.
  induction d as [|d IH] using Pos.peano_ind.
  - cbn [Pos.iter]. rewrite Pos2Z.inj_xO. change (2 ^ 1) with 2. lia.
  - rewrite Pos.iter_succ, Pos2Z.inj_xO, IH, Pos2Z.inj_succ, Z.pow_succ_r by lia. ring.
Qed.

(** [shl_align] moves the exponent down to [ex'] when it is smaller and
    keeps the value. *)
Lemma shl_align_spec (mx : positive) (ex ex' : Z) :
  snd (shl_align mx ex ex') = Z.min ex ex'
  /\ Zpos (fst (shl_align mx ex ex')) = Zpos mx * 2 ^ (ex - Z.min ex ex').
Proof.
  unfold shl_align.
  destruct (ex' - ex) as [|d|d] eqn:Ed; cbn [fst snd].
  - replace (Z.min ex ex') with ex by lia. rewrite Z.sub_diag. split; [reflexivity|]. simpl. lia.
  - replace (Z.min ex ex') with ex by lia. rewrite Z.sub_diag. split; [reflexivity|]. simpl. lia.
  - replace (Z.min ex ex') with ex' by lia. split; [reflexivity|].
    rewrite iter_xO_value. f_equal. f_equal. lia.
Qed.

Lemma scaled_le_trans (a ea b eb c ec : Z) :
  scaled_le a ea b eb -> scaled_le b eb c ec -> scaled_le a ea c ec.
Proof.
  intros H1 H2.
  set (k := Z.min ea (Z.min eb ec)).
  apply (scaled_le_base a ea b eb k) in H1; [|lia|lia].
  apply (scaled_le_base b eb c ec k) in H2; [|lia|lia].
  apply (scaled_le_base a ea c ec k); lia.
Qed.

Lemma scaled_le_mul (m e M E k f : Z) :
  0 <= k -> scaled_le m e M E -> scaled_le (m * k) (e + f) (M * k) (E + f).
Proof.
  intros Hk H.
  set (c := Z.min e E).
  apply (scaled_le_base m e M E c) in H; [|lia|lia].
  apply (scaled_le_base (m * k) (e + f) (M * k) (E + f) (c + f)); [lia|lia|].
  replace (e + f - (c + f)) with (e - c) by lia.
  replace (E + f - (c + f)) with (E - c) by lia.
  replace (m * k * 2 ^ (e - c)) with (m * 2 ^ (e - c) * k) by ring.
  replace (M * k * 2 ^ (E - c)) with (M * 2 ^ (E - c) * k) by ring.
  apply Z.mul_le_mono_nonneg_r; assumption.
Qed.

Lemma scaled_le_add (m1 m2 M1 M2 e E : Z) :
  scaled_le m1 e M1 E -> scaled_le m2 e M2 E -> scaled_le (m1 + m2) e (M1 + M2) E.
Proof. unfold scaled_le. intros. lia. Qed.

Lemma scaled_le_refl_mono (M M' E : Z) : M <= M' -> scaled_le M E M' E.
Proof.
  intros H. unfold scaled_le. rewrite Z.min_id, Z.sub_diag. simpl. lia.
Qed.

Lemma below_mono (x : spec_float) (M M' E : Z) :
  M <= M' -> below x M E -> below x M' E.
Proof.
  intros H. destruct x as [[]|[]| |[] m e]; cbn [below]; try tauto.
  intros Hx. eapply scaled_le_trans; [exact Hx|]. apply scaled_le_refl_mono, H.
Qed.

Lemma binary_round_below (mx : positive) (ex M E : Z) :
  0 < M < 2 ^ 53 -> -1074 <= E <= 918 ->
  scaled_le (Zpos mx) ex M E ->
  below (binary_round prec emax false mx ex) M E.
Proof.
  intros HM HE H. unfold binary_round.
  destruct (shl_align_spec mx ex (fexp prec emax (Zpos (digits2_pos mx) + ex))) as [Hs Hf].
  destruct (shl_align mx ex (fexp prec emax (Zpos (digits2_pos mx) + ex))) as [mz ez].
  cbn [fst snd] in Hs, Hf.
  apply binary_round_aux_below; [lia|assumption|assumption| |left; reflexivity].
  set (c := Z.min ez E).
  apply (scaled_le_base (Zpos mz) ez M E c); [lia|lia|].
  apply (scaled_le_base (Zpos mx) ex M E c) in H; [|lia|lia].
  rewrite <- Hs in Hf.
  rewrite Hf, <- Z.mul_assoc, <- pow2_split by lia.
  replace (ex - ez + (ez - c)) with (ex - c) by lia.
  exact H.
Qed.

(** An integer converts to a Number that does not exceed it. *)
Lemma Z2SF_below (z : Z) : 0 <= z < 2 ^ 53 -> below (Z2SF z) (Z.max z 1) 0.
Proof.
  intros Hz. unfold Z2SF, binary_normalize.
  destruct z as [|p|p]; [exact I| |lia].
  apply binary_round_below; [lia|lia|].
  apply scaled_le_refl_mono. lia.
Qed.

(** The product of a bounded Number with a positive constant. *)
Lemma fmul_below (x : spec_float) (my : positive) (ey Mx Ex M E : Z) :
  0 <= Mx -> 0 < M < 2 ^ 53 -> -1074 <= E <= 918 ->
  below x Mx Ex ->
  scaled_le (Mx * Zpos my) (Ex + ey) M E ->
  below (fmul x (S754_finite false my ey)) M E.
Proof.
  intros HMx HM HE Hx Hc.
  destruct x as [[]|[]| |[] mx ex]; cbn [below] in Hx; try tauto; try exact I.
  unfold fmul. cbn [SFmul xorb].
  apply binary_round_aux_below; [lia|assumption|assumption| |left; reflexivity].
  eapply scaled_le_trans; [|exact Hc].
  rewrite Pos2Z.inj_mul. apply scaled_le_mul; [lia|exact Hx].
Qed.

(** The sum of two bounded Numbers. *)
Lemma fadd_below (x y : spec_float) (Mx My E : Z) :
  0 < Mx -> 0 < My -> Mx + My < 2 ^ 53 -> -1074 <= E <= 918 ->
  below x Mx E -> below y My E -> below (fadd x y) (Mx + My) E.
Proof.
  intros HMx HMy HM HE Hx Hy.
  destruct x as [[]|[]| |[] mx ex]; cbn [below] in Hx; try tauto;
    destruct y as [[]|[]| |[] my ey]; cbn [below] in Hy; try tauto; try exact I.
  - apply below_mono with My; [lia|exact Hy].
  - apply below_mono with Mx; [lia|exact Hx].
  - unfold fadd. cbn [SFadd cond_Zopp].
    destruct (shl_align_spec mx ex (Z.min ex ey)) as [_ Hfx].
    destruct (shl_align_spec my ey (Z.min ex ey)) as [_ Hfy].
    set (ez := Z.min ex ey) in *.
    set (ax := fst (shl_align mx ex ez)) in *.
    set (ay := fst (shl_align my ey ez)) in *.
    change (Zpos ax + Zpos ay) with (Zpos (ax + ay)).
    cbn [binary_normalize].
    apply binary_round_below; [lia|assumption|].
    rewrite Pos2Z.inj_add.
    apply scaled_le_add.
    + set (c := Z.min ez E).
      apply (scaled_le_base (Zpos ax) ez Mx E c); [lia|lia|].
      apply (scaled_le_base (Zpos mx) ex Mx E c) in Hx; [|lia|lia].
      rewrite Hfx, <- Z.mul_assoc, <- pow2_split by lia.
      replace (ex - Z.min ex ez + (ez - c)) with (ex - c) by lia. exact Hx.
    + set (c := Z.min ez E).
      apply (scaled_le_base (Zpos ay) ez My E c); [lia|lia|].
      apply (scaled_le_base (Zpos my) ey My E c) in Hy; [|lia|lia].
      rewrite Hfy, <- Z.mul_assoc, <- pow2_split by lia.
      replace (ey - Z.min ey ez + (ez - c)) with (ey - c) by lia. exact Hy.
Qed.

(** [Math.round] of a Number between 0 and a bound below [K + 1/2]. *)
Lemma Math_round_below (x : spec_float) (M E K : Z) :
  E <= 0 -> 0 <= K -> 2 * M < (2 * K + 1) * 2 ^ (- E) ->
  below x M E -> 0 <= Math_round x <= K.
Proof.
  intros HE HK HM Hx.
  destruct x as [[]|[]| |[] m e]; cbn [below] in Hx; try tauto; cbn [Math_round]; try lia.
  assert (Hnonneg : forall e, 0 <= e -> scaled_le (Zpos m) e M E ->
                    0 <= Z.shiftl (Zpos m) e <= K).
  { intros e0 He0 H0. rewrite Z.shiftl_mul_pow2 by lia.
    apply (scaled_le_base (Zpos m) e0 M E E) in H0; [|lia|lia].
    rewrite Z.sub_diag in H0. simpl (2 ^ 0) in H0.
    replace (e0 - E) with (e0 + (- E)) in H0 by lia.
    rewrite pow2_split in H0 by lia.
    pose proof (pow2_pos e0 ltac:(lia)) as Hp1.
    pose proof (pow2_pos (- E) ltac:(lia)) as Hp2.
    split; [lia|].
    assert (H2 : 2 * (Zpos m * 2 ^ e0) * 2 ^ (- E) < (2 * K + 1) * 2 ^ (- E)) by lia.
    apply (proj2 (Z.mul_lt_mono_pos_r _ _ _ Hp2)) in H2. lia. }
  destruct e as [|e|k].
  - apply Hnonneg; [lia|exact Hx].
  - apply Hnonneg; [lia|exact Hx].
  - rewrite Z.shiftr_div_pow2, Z.shiftl_mul_pow2 by lia.
    rewrite Z.mul_1_l.
    pose proof (pow2_pos (Zpos k) ltac:(lia)) as Hpk.
    replace (2 ^ (Zpos k + 1)) with (2 * 2 ^ Zpos k) by (rewrite Z.pow_add_r by lia; simpl (2 ^ 1); lia).
    split; [apply Z.div_pos; lia|].
    apply Z.lt_succ_r, Z.div_lt_upper_bound; [lia|].
    unfold scaled_le in Hx.
    set (c := Z.min (Zneg k) E) in *.
    pose proof (pow2_pos (Zneg k - c) ltac:(lia)) as Hp1.
    pose proof (pow2_pos (E - c) ltac:(lia)) as Hp2.
    assert (H1 : 2 * M * 2 ^ (E - c) < (2 * K + 1) * 2 ^ (- E) * 2 ^ (E - c))
      by (apply Z.mul_lt_mono_pos_r; lia).
    replace ((2 * K + 1) * 2 ^ (- E) * 2 ^ (E - c))
      with ((2 * K + 1) * 2 ^ Zpos k * 2 ^ (Zneg k - c)) in H1.
    2:{ rewrite <- !Z.mul_assoc, <- !pow2_split by lia. f_equal. f_equal. lia. }
    assert (H2 : 2 * Zpos m * 2 ^ (Zneg k - c) < (2 * K + 1) * 2 ^ Zpos k * 2 ^ (Zneg k - c)) by lia.
    apply (proj2 (Z.mul_lt_mono_pos_r _ _ _ Hp1)) in H2. lia.
Qed.

Lemma below_finite (x : spec_float) (M E : Z) : below x M E -> is_finite x = true.
Proof. destruct x as [[]|[]| |[] m e]; cbn; tauto. Qed.

Lemma digits2_pos_unique (p : positive) (k : Z) :
  2 ^ (k - 1) <= Zpos p < 2 ^ k -> Zpos (digits2_pos p) = k.
Proof.
  intros [Hlo Hhi].
  pose proof (digits2_pos_le p k Hhi) as H1.
  destruct (digits2_pos_bounds p) as [_ Hd].
  destruct (Z_lt_le_dec (Zpos (digits2_pos p)) k) as [Hlt|]; [|lia].
  exfalso.
  assert (2 ^ Zpos (digits2_pos p) <= 2 ^ (k - 1)) by (apply Z.pow_le_mono_r; lia).
  lia.
Qed.

(** A mantissa of 53 digits with an exponent of the format is left as it
    is. *)
Lemma binary_round_aux_canonical (m : positive) (e : Z) :
  Zpos (digits2_pos m) = 53 -> -1074 <= e <= 971 ->
  binary_round_aux prec emax false (Zpos m) e loc_Exact = S754_finite false m e.
Proof.
  intros Hd He.
  assert (Hs : forall m' : Z, Zdigits2 m' = 53 ->
            shr_fexp prec emax m' e loc_Exact = (shr_record_of_loc m' loc_Exact, e)).
  { intros m' Hm'. unfold shr_fexp. rewrite Hm', fexp_eq.
    replace (Z.max (53 + e - 53) (-1074) - e) with 0 by lia. reflexivity. }
  unfold binary_round_aux.
  rewrite Hs by exact Hd.
  cbn [shr_record_of_loc shr_m loc_of_shr_record round_nearest_even].
  rewrite Hs by exact Hd.
  cbn [shr_record_of_loc shr_m].
  replace (Z.leb e (Z.sub emax prec)) with true; [reflexivity|].
  symmetry. apply Z.leb_le. unfold emax, prec. lia.
Qed.

(** Integers up to 2^53 convert exactly. *)
Lemma Z2SF_exact (z : Z) :
  0 < z <= 2 ^ 53 ->
  exists m e,
    Z2SF z = S754_finite false m e /\ Zpos (digits2_pos m) = 53 /\ -52 <= e <= 1
    /\ Zpos m * 2 ^ (e + 52) = z * 2 ^ 52.
Proof.
  intros Hz.
  destruct (Z.eq_dec z (2 ^ 53)) as [->|Hne].
  { exists 4503599627370496%positive, 1. repeat split; try lia; vm_compute; congruence. }
  destruct z as [|p|p]; try lia.
  unfold Z2SF, binary_normalize, binary_round.
  destruct (shl_align_spec p 0 (fexp prec emax (Zpos (digits2_pos p) + 0))) as [Hs Hf].
  destruct (shl_align p 0 (fexp prec emax (Zpos (digits2_pos p) + 0))) as [mz ez].
  cbn [fst snd] in Hs, Hf.
  destruct (digits2_pos_bounds p) as [Hlo Hhi].
  assert (Hd : Zpos (digits2_pos p) <= 53) by (apply digits2_pos_le; lia).
  rewrite fexp_eq in Hs, Hf.
  replace (Z.min 0 (Z.max (Zpos (digits2_pos p) + 0 - 53) (-1074)))
    with (Zpos (digits2_pos p) - 53) in Hs, Hf by lia.
  rewrite Z.sub_0_l in Hf.
  assert (Hmz : Zpos (digits2_pos mz) = 53).
  { apply digits2_pos_unique. rewrite Hf.
    set (d := Zpos (digits2_pos p)) in *. set (k := - (d - 53)) in *.
    pose proof (pow2_pos k ltac:(lia)).
    assert (E1 : 2 ^ (53 - 1) = 2 ^ (d - 1) * 2 ^ k)
      by (rewrite <- pow2_split by lia; f_equal; lia).
    assert (E2 : 2 ^ 53 = 2 ^ d * 2 ^ k)
      by (rewrite <- pow2_split by lia; f_equal; lia).
    rewrite E1, E2.
    split; [apply Z.mul_le_mono_nonneg_r; lia|apply Z.mul_lt_mono_pos_r; lia]. }
  exists mz, ez. split; [apply binary_round_aux_canonical; [exact Hmz|lia]|].
  split; [exact Hmz|]. split; [lia|].
  rewrite Hf, Hs, <- Z.mul_assoc, <- pow2_split by lia.
  f_equal. f_equal. lia.
Qed.

Lemma new_location_zero (n : Z) : new_location n 0 = loc_Exact.
Proof.
  unfold new_location, new_location_even, new_location_odd.
  destruct (Z.even n); reflexivity.
Qed.

(** The quotient of two Numbers of 53 digits, the first no larger than the
    second, is at most 1. *)
Lemma fdiv_below_one (mx my : positive) (ex ey : Z) :
  Zpos (digits2_pos mx) = 53 -> Zpos (digits2_pos my) = 53 ->
  -52 <= ex <= 1 -> -52 <= ey <= 1 ->
  Zpos mx * 2 ^ (ex + 52) <= Zpos my * 2 ^ (ey + 52) ->
  below (fdiv (S754_finite false mx ex) (S754_finite false my ey)) 1 0.
Proof.
  intros Hdx Hdy Hex Hey Hle.
  unfold fdiv. cbn [SFdiv xorb]. unfold SFdiv_core_binary.
  cbn [Zdigits2]. rewrite Hdx, Hdy, fexp_eq.
  replace (Z.min (Z.max (53 + ex - (53 + ey) - 53) (-1074)) (ex - ey)) with (ex - ey - 53) by lia.
  replace (ex - ey - (ex - ey - 53)) with 53 by lia.
  rewrite Z.shiftl_mul_pow2 by lia.
  pose proof (Z_div_mod (Zpos mx * 2 ^ 53) (Zpos my) ltac:(lia)) as Hdm.
  destruct (Z.div_eucl (Zpos mx * 2 ^ 53) (Zpos my)) as [q r].
  destruct Hdm as [Hq Hr].
  destruct (digits2_pos_bounds mx) as [Hxlo Hxhi].
  destruct (digits2_pos_bounds my) as [Hylo Hyhi].
  rewrite Hdx in Hxlo, Hxhi. rewrite Hdy in Hylo, Hyhi.
  set (a := ex + 52) in *. set (b := ey + 52) in *.
  pose proof (pow2_pos a ltac:(lia)) as Hpa.
  pose proof (pow2_pos b ltac:(lia)) as Hpb.
  pose proof (pow2_pos (53 + b - a) ltac:(lia)) as Hpc.
  assert (Hpow : 2 ^ (53 + b - a) * 2 ^ a = 2 ^ b * 2 ^ 53).
  { rewrite <- !pow2_split by lia. f_equal. lia. }
  assert (Hq0 : 0 <= q).
  { destruct (Z_lt_le_dec q 0); [|assumption]. exfalso.
    assert (Zpos my * q <= Zpos my * (-1)) by (apply Z.mul_le_mono_nonneg_l; lia). lia. }
  (* q * 2^a <= 2^(53 + b - a) * 2^a, strictly when r > 0 *)
  assert (Hmain : Zpos my * (q * 2 ^ a) + r * 2 ^ a <= Zpos my * (2 ^ (53 + b - a) * 2 ^ a)).
  { rewrite Hpow.
    replace (Zpos my * (q * 2 ^ a) + r * 2 ^ a) with ((Zpos my * q + r) * 2 ^ a) by ring.
    rewrite <- Hq.
    replace (Zpos mx * 2 ^ 53 * 2 ^ a) with (Zpos mx * 2 ^ a * 2 ^ 53) by ring.
    replace (Zpos my * (2 ^ b * 2 ^ 53)) with (Zpos my * 2 ^ b * 2 ^ 53) by ring.
    apply Z.mul_le_mono_nonneg_r; lia. }
  assert (Hqle : q <= 2 ^ (53 + b - a)).
  { assert (H1 : Zpos my * (q * 2 ^ a) <= Zpos my * (2 ^ (53 + b - a) * 2 ^ a)) by nia.
    apply Z.mul_le_mono_pos_l in H1; [|lia].
    apply (proj2 (Z.mul_le_mono_pos_r _ _ _ Hpa)) in H1. exact H1. }
  assert (Hbase : forall Q, scaled_le Q (ex - ey - 53) 1 0 <-> Q <= 2 ^ (53 + b - a)).
  { intros Q. rewrite (scaled_le_base Q (ex - ey - 53) 1 0 (ex - ey - 53)) by lia.
    rewrite Z.sub_diag. simpl (2 ^ 0).
    replace (0 - (ex - ey - 53)) with (53 + b - a) by (unfold a, b; lia). lia. }
  apply binary_round_aux_below; [exact Hq0|lia|lia|apply Hbase; exact Hqle|].
  destruct (Z.eq_dec r 0) as [->|Hr0].
  - left. apply new_location_zero.
  - right.
    assert (Hq52 : 2 ^ 52 <= q).
    { destruct (Z_lt_le_dec q (2 ^ 52)) as [Hlt|]; [|assumption]. exfalso.
      assert (Zpos my * q <= Zpos my * (2 ^ 52 - 1)) by (apply Z.mul_le_mono_nonneg_l; lia).
      assert (2 ^ 52 * 2 ^ 53 <= Zpos mx * 2 ^ 53) by (apply Z.mul_le_mono_nonneg_r; lia).
      nia. }
    split; [lia|]. split.
    + unfold scaled_lt.
      replace (Z.min (ex - ey - 53) 0) with (ex - ey - 53) by lia.
      rewrite Z.sub_diag. simpl (2 ^ 0).
      replace (0 - (ex - ey - 53)) with (53 + b - a) by (unfold a, b; lia).
      assert (H1 : Zpos my * (q * 2 ^ a) < Zpos my * (2 ^ (53 + b - a) * 2 ^ a)) by nia.
      apply Z.mul_lt_mono_pos_l in H1; [|lia].
      apply (proj2 (Z.mul_lt_mono_pos_r _ _ _ Hpa)) in H1. lia.
    + rewrite fexp_eq.
      assert (53 <= Zdigits2 q); [|lia].
      destruct (Zdigits2_bounds q ltac:(lia)) as [_ Hqhi].
      destruct (Z_lt_le_dec (Zdigits2 q) 53) as [Hlt|]; [|assumption]. exfalso.
      assert (0 <= Zdigits2 q) by (destruct q; simpl; lia).
      assert (2 ^ Zdigits2 q <= 2 ^ 52) by (apply Z.pow_le_mono_r; lia).
      lia.
Qed.

(** The ratio of two counters, the first no larger than the second, times
    100, lies between 0 and 100. *)
Lemma snippability_ratio_bounded (s t : nat) :
  (s <= t)%nat ->
  below (fmul (fdiv (counter s) (counter (Nat.max t 1))) lit_100) 100 0.
Proof.
  intros Hst.
  assert (Hq : below (fdiv (counter s) (counter (Nat.max t 1))) 1 0).
  { unfold counter.
    set (zs := Z.min (Z.of_nat s) (2 ^ 53)).
    set (zt := Z.min (Z.of_nat (Nat.max t 1)) (2 ^ 53)).
    assert (Hzt : 0 < zt <= 2 ^ 53) by (unfold zt; lia).
    assert (Hzs : 0 <= zs <= zt) by (unfold zs, zt; lia).
    destruct (Z2SF_exact zt Hzt) as (mt & et & Ht & Hdt & Het & Hvt).
    rewrite Ht.
    destruct (Z.eq_dec zs 0) as [->|Hs0].
    - exact I.
    - destruct (Z2SF_exact zs ltac:(lia)) as (ms & es & Hs & Hds & Hes & Hvs).
      rewrite Hs. apply fdiv_below_one; try assumption. lia. }
  apply (fmul_below _ _ _ 1 0 100 0); [lia|lia|lia|exact Hq|].
  unfold scaled_le. vm_compute. congruence.
Qed.

End Binary64.

(* ================================================================== *)
(** ** Properties of the analyzer *)

Section Properties.

Import JSNumber JSString Dom Runtime ContentAnalyzer.

Context (host : Host).

(** *** The score of each check *)

Lemma checkAnswerFrontLoading_score (doc : document) :
  In (score (checkAnswerFrontLoading doc)) [0; 20; 55; 65; 95].
Proof.
  unfold checkAnswerFrontLoading.
  repeat match goal with
         | |- context [if ?b then _ else _] => destruct b
         end; cbn; tauto.
Qed.

Lemma rateFactDensity_score (w f : nat) :
  In (score (rateFactDensity w f)) [0; 25; 60; 75; 95].
Proof.
  unfold rateFactDensity.
  repeat match goal with
         | |- context [if ?b then _ else _] => destruct b
         end; cbn; tauto.
Qed.

Lemma checkFactDensity_score (doc : document) :
  In (score (checkFactDensity host doc)) [0; 25; 60; 75; 95].
Proof.
  unfold checkFactDensity. destruct (paragraph_totals host doc). apply rateFactDensity_score.
Qed.

Lemma skip_step_score (st : option Z * Z * list AnalysisIssue) (el : element) :
  snd (fst (skip_step st el)) <= snd (fst st).
Proof.
  destruct st as [[l s] i]. unfold skip_step.
  destruct (gt_num _ _); cbn; lia.
Qed.

Lemma empty_step_score (st : Z * list AnalysisIssue) (el : element) :
  fst (empty_step st el) <= fst st.
Proof.
  destruct st as [s i]. unfold empty_step.
  destruct (String.eqb _ _); cbn; lia.
Qed.

Lemma checkHeadingStructure_score (doc : document) :
  0 <= score (checkHeadingStructure doc) <= 100.
Proof.
  unfold checkHeadingStructure.
  set (st1 := if (List.length (select sel_h1 doc) =? 0)%nat then _ else _).
  assert (H1 : fst st1 <= 100).
  { unfold st1.
    destruct (List.length (select sel_h1 doc) =? 0)%nat; [cbn; lia|].
    destruct (1 <? List.length (select sel_h1 doc))%nat; cbn; lia. }
  destruct st1 as [s1 i1]. cbn [fst] in H1.
  set (st2 := if (_ && _)%bool then _ else _).
  assert (H2 : fst st2 <= 100).
  { unfold st2. destruct (_ && _)%bool; cbn; lia. }
  destruct st2 as [s2 i2]. cbn [fst] in H2.
  assert (H3 : snd (fst (fold_left skip_step (select sel_h1_h4 doc) (Some 1, s2, i2))) <= 100).
  { apply (fold_left_invariant (fun st => snd (fst st) <= 100)); [exact H2|].
    intros st x Hst. pose proof (skip_step_score st x). lia. }
  destruct (fold_left skip_step (select sel_h1_h4 doc) (Some 1, s2, i2)) as [[l3 s3] i3].
  cbn [fst snd] in H3.
  assert (H4 : fst (fold_left empty_step (select sel_h1_h3 doc) (s3, i3)) <= 100).
  { apply (fold_left_invariant (fun st => fst st <= 100)); [exact H3|].
    intros st x Hst. pose proof (empty_step_score st x). lia. }
  destruct (fold_left empty_step (select sel_h1_h3 doc) (s3, i3)) as [s4 i4].
  cbn [fst] in H4. cbn [score fst]. lia.
Qed.

Lemma checkEEAT_score (doc : document) :
  In (score (checkEEAT host doc)) [0; 25; 50; 75; 100].
Proof.
  unfold checkEEAT.
  repeat match goal with
         | |- context [if ?b then _ else _] => destruct b
         end; cbn; tauto.
Qed.

Lemma snip_step_counts (st : nat * nat * list AnalysisIssue) (el : element) :
  (fst (fst st) <= snd (fst st))%nat ->
  (fst (fst (snip_step st el)) <= snd (fst (snip_step st el)))%nat.
Proof.
  destruct st as [[s t] i]. unfold snip_step. cbn [fst snd].
  destruct (80 <=? _)%nat; cbn [fst snd]; lia.
Qed.

Lemma checkSnippability_score (doc : document) :
  0 <= score (checkSnippability doc) <= 100.
Proof.
  unfold checkSnippability.
  destruct (List.length (select sel_h2_h3 doc) =? 0)%nat; [cbn; lia|].
  assert (H : (fst (fst (fold_left snip_step (select sel_h2_h3 doc) (0%nat, 0%nat, [])))
               <= snd (fst (fold_left snip_step (select sel_h2_h3 doc) (0%nat, 0%nat, []))))%nat).
  { apply (fold_left_invariant (fun st => (fst (fst st) <= snd (fst st))%nat)); [cbn; lia|].
    intros st x. apply snip_step_counts. }
  destruct (fold_left snip_step (select sel_h2_h3 doc) (0%nat, 0%nat, [])) as [[s t] i].
  cbn [fst snd] in H. cbn [score fst].
  apply (Math_round_below _ 100 0 100); [lia|lia|vm_compute; reflexivity|].
  apply snippability_ratio_bounded, H.
Qed.

Lemma checkSchemaCoverage_score (doc : document) :
  In (score (checkSchemaCoverage host doc)) [0; 10; 50; 75; 100].
Proof.
  unfold checkSchemaCoverage.
  destruct (List.length (select sel_jsonld doc) =? 0)%nat; [cbn; tauto|].
  destruct (fold_left (schema_step host) (select sel_jsonld doc) (0%nat, [])) as [v i].
  destruct (v =? 0)%nat; [cbn; tauto|].
  destruct (includes _ _), (includes _ _); cbn; tauto.
Qed.

(** *** The weighted sum *)

Lemma fmul_comm (x y : num) : fmul x y = fmul y x.
Proof.
  unfold fmul.
  destruct x as [sx|sx| |sx mx ex], y as [sy|sy| |sy my ey]; cbn [SFmul];
    rewrite ?(xorb_comm sx sy), ?(Pos.mul_comm mx my), ?(Z.add_comm ex ey); reflexivity.
Qed.

Lemma binary_round_aux_not_negative_zero (m e : Z) (l : location) :
  binary_round_aux prec emax false m e l <> S754_zero true.
Proof.
  unfold binary_round_aux.
  destruct (shr_fexp prec emax m e l) as [mrs' e'].
  destruct (shr_fexp prec emax _ e' loc_Exact) as [mrs2 e2].
  destruct (shr_m mrs2); [discriminate| |discriminate].
  destruct (Z.leb e2 (Z.sub emax prec)); discriminate.
Qed.

Lemma Z2SF_not_negative_zero (z : Z) : 0 <= z -> Z2SF z <> S754_zero true.
Proof.
  intros Hz. unfold Z2SF, binary_normalize.
  destruct z as [|p|p]; [discriminate| |lia].
  unfold binary_round.
  destruct (shl_align p 0 _) as [mz ez].
  apply binary_round_aux_not_negative_zero.
Qed.

Lemma Z2SF_sign (z : Z) :
  0 <= z ->
  match Z2SF z with
  | S754_zero s | S754_infinity s | S754_finite s _ _ => s = false
  | S754_nan => True
  end.
Proof.
  intros Hz. unfold Z2SF, binary_normalize.
  destruct z as [|p|p]; [reflexivity| |lia].
  unfold binary_round.
  destruct (shl_align p 0 _) as [mz ez].
  unfold binary_round_aux.
  destruct (shr_fexp prec emax (Zpos mz) ez loc_Exact) as [mrs' e'].
  destruct (shr_fexp prec emax _ e' loc_Exact) as [mrs2 e2].
  destruct (shr_m mrs2); [reflexivity| |exact I].
  destruct (Z.leb e2 (Z.sub emax prec)); reflexivity.
Qed.

(** A score times a weight is never the negative zero, so adding it to the
    initial 0 of [reduce] returns it unchanged. *)
Lemma fadd_zero_weighted (z : Z) (mw : positive) (ew : Z) :
  0 <= z ->
  fadd (Z2SF 0) (fmul (Z2SF z) (S754_finite false mw ew))
  = fmul (Z2SF z) (S754_finite false mw ew).
Proof.
  intros Hz. pose proof (Z2SF_sign z Hz) as Hs.
  change (Z2SF 0) with (S754_zero false).
  unfold fadd, fmul.
  destruct (Z2SF z) as [s|s| |s m e]; subst; cbn [SFmul xorb SFadd]; try reflexivity.
  pose proof (binary_round_aux_not_negative_zero (Zpos (m * mw)) (e + ew) loc_Exact) as Hn.
  destruct (binary_round_aux prec emax false (Zpos (m * mw)) (e + ew) loc_Exact) as [[]|[]| |[] m' e'];
    try reflexivity. congruence.
Qed.

(** The sum as the source computes it, written out. *)
Lemma weighted_sum_unfold (b : Breakdown) :
  weighted_sum b
  = fadd (fadd (fadd (fadd (fadd (fadd (Z2SF 0)
      (fmul (Z2SF (answerFrontLoading b)) lit_0_25))
      (fmul (Z2SF (factDensity b)) lit_0_15))
      (fmul (Z2SF (headingStructure b)) lit_0_15))
      (fmul (Z2SF (eeatSignals b)) lit_0_20))
      (fmul (Z2SF (snippability_score b)) lit_0_10))
      (fmul (Z2SF (schemaCoverage b)) lit_0_15).
Proof. reflexivity. Qed.

Lemma weighted_term_below (z : Z) (mw : positive) (ew M : Z) :
  0 <= z <= 100 -> 0 < M < 2 ^ 53 ->
  scaled_le (100 * Zpos mw) (0 + ew) M (-46) ->
  below (fmul (Z2SF z) (S754_finite false mw ew)) M (-46).
Proof.
  intros Hz HM Hw.
  apply (fmul_below _ _ _ 100 0); [lia|exact HM|lia| |exact Hw].
  apply below_mono with (Z.max z 1); [lia|].
  apply Z2SF_below. lia.
Qed.

(** With every sub-score in [0, 100] the sum is a finite Number between 0
    and 100 + 3 * 2^-46. *)
Lemma weighted_sum_bounded (b : Breakdown) :
  (forall c, 0 <= entry b c <= 100) ->
  below (weighted_sum b) (100 * 2 ^ 46 + 3) (-46).
Proof.
  intros Hb. rewrite weighted_sum_unfold.
  pose proof (Hb AnswerPlacement) as H1. pose proof (Hb FactDensity) as H2.
  pose proof (Hb HeadingStructure) as H3. pose proof (Hb EEAT) as H4.
  pose proof (Hb Snippability) as H5. pose proof (Hb Schema) as H6.
  cbn [entry] in *.
  assert (T1 : below (fmul (Z2SF (answerFrontLoading b)) lit_0_25) (25 * 2 ^ 46) (-46))
    by (apply weighted_term_below; [assumption|lia|vm_compute; congruence]).
  assert (T2 : below (fmul (Z2SF (factDensity b)) lit_0_15) (15 * 2 ^ 46) (-46))
    by (apply weighted_term_below; [assumption|lia|vm_compute; congruence]).
  assert (T3 : below (fmul (Z2SF (headingStructure b)) lit_0_15) (15 * 2 ^ 46) (-46))
    by (apply weighted_term_below; [assumption|lia|vm_compute; congruence]).
  assert (T4 : below (fmul (Z2SF (eeatSignals b)) lit_0_20) (20 * 2 ^ 46 + 1) (-46))
    by (apply weighted_term_below; [assumption|lia|vm_compute; congruence]).
  assert (T5 : below (fmul (Z2SF (snippability_score b)) lit_0_10) (10 * 2 ^ 46 + 1) (-46))
    by (apply weighted_term_below; [assumption|lia|vm_compute; congruence]).
  assert (T6 : below (fmul (Z2SF (schemaCoverage b)) lit_0_15) (15 * 2 ^ 46) (-46))
    by (apply weighted_term_below; [assumption|lia|vm_compute; congruence]).
  assert (T0 : below (Z2SF 0) 1 (-46)) by exact I.
  replace (100 * 2 ^ 46 + 3)
    with (1 + 25 * 2 ^ 46 + 15 * 2 ^ 46 + 15 * 2 ^ 46 + (20 * 2 ^ 46 + 1)
          + (10 * 2 ^ 46 + 1) + 15 * 2 ^ 46) by lia.
  repeat (apply fadd_below; [lia|lia|lia|lia| |assumption]).
  exact T0.
Qed.

Lemma Math_round_weighted_sum (b : Breakdown) :
  (forall c, 0 <= entry b c <= 100) ->
  is_finite (weighted_sum b) = true /\ 0 <= Math_round (weighted_sum b) <= 100.
Proof.
  intros Hb. pose proof (weighted_sum_bounded b Hb) as H.
  split; [eapply below_finite; exact H|].
  apply (Math_round_below _ (100 * 2 ^ 46 + 3) (-46) 100); [lia|lia|vm_compute; reflexivity|exact H].
Qed.

(** *** The type of the issues of each check *)

Lemma Forall_app_one {A : Type} (P : A -> Prop) (l : list A) (x : A) :
  Forall P l -> P x -> Forall P (l ++ [x]).
Proof. intros Hl Hx. apply Forall_app. split; [exact Hl|constructor; [exact Hx|constructor]]. Qed.

Ltac issue_cases :=
  repeat match goal with
         | |- context [if ?b then _ else _] => destruct b
         end;
  cbn [issues_of snd app];
  repeat (constructor; try reflexivity).

Lemma checkAnswerFrontLoading_types (doc : document) :
  Forall (fun i => type i = answer_placement) (issues_of (checkAnswerFrontLoading doc)).
Proof. unfold checkAnswerFrontLoading. issue_cases. Qed.

Lemma checkFactDensity_types (doc : document) :
  Forall (fun i => type i = fact_density) (issues_of (checkFactDensity host doc)).
Proof.
  unfold checkFactDensity. destruct (paragraph_totals host doc) as [w f].
  unfold rateFactDensity. issue_cases.
Qed.

Lemma checkHeadingStructure_types (doc : document) :
  Forall (fun i => type i = heading_structure) (issues_of (checkHeadingStructure doc)).
Proof.
  unfold checkHeadingStructure.
  set (st1 := if (List.length (select sel_h1 doc) =? 0)%nat then _ else _).
  assert (H1 : Forall (fun i => type i = heading_structure) (snd st1)).
  { unfold st1.
    destruct (List.length (select sel_h1 doc) =? 0)%nat; [repeat constructor|].
    destruct (1 <? List.length (select sel_h1 doc))%nat; repeat constructor. }
  destruct st1 as [s1 i1]. cbn [snd] in H1.
  set (st2 := if (_ && _)%bool then _ else _).
  assert (H2 : Forall (fun i => type i = heading_structure) (snd st2)).
  { unfold st2. destruct (_ && _)%bool; cbn [snd]; [|exact H1].
    apply Forall_app_one; [exact H1|reflexivity]. }
  destruct st2 as [s2 i2]. cbn [snd] in H2.
  assert (H3 : Forall (fun i => type i = heading_structure)
                 (snd (fold_left skip_step (select sel_h1_h4 doc) (Some 1, s2, i2)))).
  { apply (fold_left_invariant (fun st => Forall (fun i => type i = heading_structure) (snd st)));
      [exact H2|].
    intros [[l s] i] x Hst. unfold skip_step.
    destruct (gt_num _ _); cbn [snd] in *; [|exact Hst].
    apply Forall_app_one; [exact Hst|reflexivity]. }
  destruct (fold_left skip_step (select sel_h1_h4 doc) (Some 1, s2, i2)) as [[l3 s3] i3].
  cbn [snd] in H3.
  assert (H4 : Forall (fun i => type i = heading_structure)
                 (snd (fold_left empty_step (select sel_h1_h3 doc) (s3, i3)))).
  { apply (fold_left_invariant (fun st => Forall (fun i => type i = heading_structure) (snd st)));
      [exact H3|].
    intros [s i] x Hst. unfold empty_step.
    destruct (String.eqb _ _); cbn [snd] in *; [|exact Hst].
    apply Forall_app_one; [exact Hst|reflexivity]. }
  destruct (fold_left empty_step (select sel_h1_h3 doc) (s3, i3)) as [s4 i4].
  exact H4.
Qed.

Lemma checkEEAT_types (doc : document) :
  Forall (fun i => type i = eeat) (issues_of (checkEEAT host doc)).
Proof. unfold checkEEAT. issue_cases. Qed.

Lemma checkSnippability_types (doc : document) :
  Forall (fun i => type i = snippability) (issues_of (checkSnippability doc)).
Proof.
  unfold checkSnippability.
  destruct (List.length (select sel_h2_h3 doc) =? 0)%nat; [repeat constructor|].
  assert (H : Forall (fun i => type i = snippability)
                (snd (fold_left snip_step (select sel_h2_h3 doc) (0%nat, 0%nat, [])))).
  { apply (fold_left_invariant (fun st => Forall (fun i => type i = snippability) (snd st)));
      [constructor|].
    intros [[s t] i] x Hst. unfold snip_step.
    destruct (80 <=? _)%nat; cbn [snd] in *; [exact Hst|].
    apply Forall_app_one; [exact Hst|reflexivity]. }
  destruct (fold_left snip_step (select sel_h2_h3 doc) (0%nat, 0%nat, [])) as [[s t] i].
  exact H.
Qed.

Lemma checkSchemaCoverage_types (doc : document) :
  Forall (fun i => type i = schema) (issues_of (checkSchemaCoverage host doc)).
Proof.
  unfold checkSchemaCoverage.
  destruct (List.length (select sel_jsonld doc) =? 0)%nat; [repeat constructor|].
  assert (H : Forall (fun i => type i = schema)
                (snd (fold_left (schema_step host) (select sel_jsonld doc) (0%nat, [])))).
  { apply (fold_left_invariant (fun st => Forall (fun i => type i = schema) (snd st)));
      [constructor|].
    intros [v i] x Hst. unfold schema_step.
    destruct (JSON_parse host _) as [[]|];
      try (destruct (_ && _)%bool); cbn [snd] in *; try exact Hst;
      apply Forall_app_one; [exact Hst|reflexivity|exact Hst|reflexivity]. }
  destruct (fold_left (schema_step host) (select sel_jsonld doc) (0%nat, [])) as [v i].
  cbn [snd] in H.
  destruct (v =? 0)%nat; [exact H|].
  destruct (includes _ _), (includes _ _); cbn [negb issues_of snd];
    repeat (apply Forall_app_one; [|reflexivity]); exact H.
Qed.

Lemma check_types (c : CheckName) (doc : document) :
  Forall (fun i => type i = issue_type c) (issues_of (check_of host c doc)).
Proof.
  destruct c; cbn [check_of issue_type].
  - apply checkAnswerFrontLoading_types.
  - apply checkFactDensity_types.
  - apply checkHeadingStructure_types.
  - apply checkEEAT_types.
  - apply checkSnippability_types.
  - apply checkSchemaCoverage_types.
Qed.

Lemma check_score (c : CheckName) (doc : document) :
  0 <= score (check_of host c doc) <= 100.
Proof.
  destruct c; cbn [check_of].
  - pose proof (checkAnswerFrontLoading_score doc) as H. cbn [In] in H. lia.
  - pose proof (checkFactDensity_score doc) as H. cbn [In] in H. lia.
  - apply checkHeadingStructure_score.
  - pose proof (checkEEAT_score doc) as H. cbn [In] in H. lia.
  - apply checkSnippability_score.
  - pose proof (checkSchemaCoverage_score doc) as H. cbn [In] in H. lia.
Qed.

Lemma run_check_types (c : CheckName) (on : bool) (doc : document) :
  Forall (fun i => type i = issue_type c) (issues_of (run_check on (check_of host c) doc)).
Proof. destruct on; cbn [run_check]; [apply check_types|constructor]. Qed.

Lemma breakdown_entry (this : t) (doc : document) (c : CheckName) :
  entry (breakdown_of host this doc) c
  = score (run_check (enabled (options this) c) (check_of host c) doc).
Proof. destruct c; reflexivity. Qed.

Lemma breakdown_of_range (this : t) (doc : document) (c : CheckName) :
  0 <= entry (breakdown_of host this doc) c <= 100.
Proof.
  rewrite breakdown_entry.
  destruct (enabled (options this) c); cbn [run_check].
  - apply check_score.
  - cbn. lia.
Qed.

(** The issues [analyze] collects, check by check. *)
Lemma collected_issues_by_check (this : t) (doc : document) :
  collected_issues host this doc
  = flat_map (fun c => issues_of (run_check (enabled (options this) c) (check_of host c) doc))
      all_checks.
Proof.
  unfold collected_issues. cbn [all_checks flat_map enabled check_of].
  rewrite app_nil_r. reflexivity.
Qed.

Lemma collected_issues_of_disabled (this : t) (doc : document) (c : CheckName) :
  enabled (options this) c = false ->
  filter (has_type (issue_type c)) (collected_issues host this doc) = [].
Proof.
  intros Hoff. rewrite collected_issues_by_check.
  assert (H : forall cs, filter (has_type (issue_type c))
      (flat_map (fun c' => issues_of (run_check (enabled (options this) c') (check_of host c') doc)) cs)
      = []).
  { induction cs as [|c' cs IH]; [reflexivity|].
    cbn [flat_map]. rewrite filter_app, IH, app_nil_r.
    destruct (enabled (options this) c') eqn:Hon; cbn [run_check]; [|reflexivity].
    pose proof (check_types c' doc) as Hty.
    induction Hty as [|i l Hi _ IHl]; [reflexivity|].
    cbn [filter]. unfold has_type at 1. rewrite Hi.
    destruct (IssueType_eqb (issue_type c') (issue_type c)) eqn:E; [|exact IHl].
    apply IssueType_eqb_eq in E.
    assert (c' = c) by (destruct c', c; simpl in E; congruence).
    subst c'. congruence. }
  apply H.
Qed.

Lemma filter_Permutation_nil {A : Type} (p : A -> bool) (l l' : list A) :
  Permutation l l' -> filter p l = [] -> filter p l' = [].
Proof.
  intros HP Hl.
  destruct (filter p l') as [|x r] eqn:E; [reflexivity|]. exfalso.
  assert (Hx : In x (filter p l')) by (rewrite E; left; reflexivity).
  apply filter_In in Hx. destruct Hx as [Hx Hp].
  apply (Permutation_in _ (Permutation_sym HP)) in Hx.
  assert (Hin : In x (filter p l)) by (apply filter_In; split; assumption).
  rewrite Hl in Hin. exact Hin.
Qed.

(* ================================================================== *)
(** ** The claims *)

(** C1. The overall score is [Math.round] of the weighted sum
    0.25 * answerFrontLoading + 0.15 * factDensity + 0.15 * headingStructure
    + 0.20 * eeatSignals + 0.10 * snippability + 0.15 * schemaCoverage of the
    returned breakdown, computed in binary64 from left to right; the sum is
    finite and the score lies between 0 and 100. *)
Theorem overallScore_is_rounded_weighted_sum (this : t) (html : string) :
  let r := analyze host this html in
  let b := breakdown r in
  let sum :=
    fadd (fadd (fadd (fadd (fadd
      (fmul lit_0_25 (Z2SF (answerFrontLoading b)))
      (fmul lit_0_15 (Z2SF (factDensity b))))
      (fmul lit_0_15 (Z2SF (headingStructure b))))
      (fmul lit_0_20 (Z2SF (eeatSignals b))))
      (fmul lit_0_10 (Z2SF (snippability_score b))))
      (fmul lit_0_15 (Z2SF (schemaCoverage b))) in
  overallScore r = Math_round sum
  /\ is_finite sum = true
  /\ 0 <= overallScore r <= 100.
Proof.
  cbn zeta. cbn [analyze overallScore breakdown].
  set (b := breakdown_of host this (cheerio_load host html)).
  assert (Hb : forall c, 0 <= entry b c <= 100) by (intros c; apply breakdown_of_range).
  pose proof (Math_round_weighted_sum b Hb) as [Hfin Hround].
  assert (Hsum : weighted_sum b
    = fadd (fadd (fadd (fadd (fadd
      (fmul lit_0_25 (Z2SF (answerFrontLoading b)))
      (fmul lit_0_15 (Z2SF (factDensity b))))
      (fmul lit_0_15 (Z2SF (headingStructure b))))
      (fmul lit_0_20 (Z2SF (eeatSignals b))))
      (fmul lit_0_10 (Z2SF (snippability_score b))))
      (fmul lit_0_15 (Z2SF (schemaCoverage b)))).
  { rewrite weighted_sum_unfold.
    unfold lit_0_25 at 1. rewrite fadd_zero_weighted by (apply (Hb AnswerPlacement)).
    fold lit_0_25.
    rewrite !(fmul_comm (Z2SF _)). reflexivity. }
  rewrite <- Hsum. repeat split; try assumption; lia.
Qed.

(** C2. Every entry of the breakdown is an integer between 0 and 100, for
    every document and configuration; the heading-structure score is the
    penalised score floored at 0 and the E-E-A-T score is the sum of the
    signals capped at 100. *)
Theorem breakdown_entries_in_range (this : t) (html : string) (c : CheckName) :
  0 <= entry (breakdown (analyze host this html)) c <= 100.
Proof. cbn [analyze breakdown]. apply breakdown_of_range. Qed.

(** C3. The issues of the result are in non-decreasing severity rank
    (high = 0, medium = 1, low = 2), and the issues of one severity keep the
    order in which the checks produced them (answer-placement, fact-density,
    heading-structure, eeat, snippability, schema).  Said without a rank: the
    issues of the result are the high issues the checks produced, then the
    medium ones, then the low ones, each group in the order of the checks. *)
Theorem issues_sorted_by_severity_stable (this : t) (html : string) :
  let r := analyze host this html in
  let doc := cheerio_load host html in
  let produced :=
    flat_map
      (fun c => issues_of (run_check (enabled (options this) c) (check_of host c) doc))
      [AnswerPlacement; FactDensity; HeadingStructure; EEAT; Snippability; Schema] in
  StronglySorted rank_le (issues r)
  /\ (forall s, filter (has_severity s) (issues r) = filter (has_severity s) produced)
  /\ issues r
     = filter (has_severity high) produced ++ filter (has_severity medium) produced
       ++ filter (has_severity low) produced.
Proof.
  cbn zeta. cbn [analyze issues].
  assert (Hstable : forall s,
             filter (has_severity s)
               (Array_sort by_severity (collected_issues host this (cheerio_load host html)))
             = filter (has_severity s)
                 (flat_map
                    (fun c => issues_of (run_check (enabled (options this) c) (check_of host c)
                                           (cheerio_load host html)))
                    [AnswerPlacement; FactDensity; HeadingStructure; EEAT; Snippability;
                     Schema])).
  { intros s. rewrite Array_sort_filter, collected_issues_by_check. reflexivity. }
  split; [apply Array_sort_StronglySorted|]. split; [exact Hstable|].
  rewrite <- !Hstable. apply sorted_by_rank_partition, Array_sort_StronglySorted.
Qed.

(** C7. A check that is switched off has its breakdown entry at exactly 100
    and leaves no issue of its type in the result. *)
Theorem disabled_check_scores_100_without_issues (this : t) (html : string) (c : CheckName) :
  enabled (options this) c = false ->
  let r := analyze host this html in
  entry (breakdown r) c = 100
  /\ filter (has_type (issue_type c)) (issues r) = [].
Proof.
  intros Hoff. cbn zeta. cbn [analyze breakdown issues]. split.
  - rewrite breakdown_entry, Hoff. reflexivity.
  - eapply filter_Permutation_nil; [apply Array_sort_Permutation|].
    apply collected_issues_of_disabled, Hoff.
Qed.

(** *** Fact density *)

Lemma paragraph_totals_from (l : list element) (w f : nat) :
  fold_left (count_paragraph host) l (w, f)
  = ((w + list_sum (map (words_in host) l))%nat, (f + list_sum (map (facts_in host) l))%nat).
Proof.
  revert w f. induction l as [|el l IH]; intros w f.
  - cbn. f_equal; lia.
  - cbn [fold_left map]. change (list_sum (words_in host el :: map (words_in host) l))
      with (words_in host el + list_sum (map (words_in host) l))%nat.
    change (list_sum (facts_in host el :: map (facts_in host) l))
      with (facts_in host el + list_sum (map (facts_in host) l))%nat.
    change (count_paragraph host (w, f) el)
      with ((w + words_in host el)%nat, (f + facts_in host el)%nat).
    rewrite IH. f_equal; lia.
Qed.

Lemma paragraph_totals_sums (doc : document) :
  paragraph_totals host doc = (totalWords host doc, verifiableFacts host doc).
Proof. unfold paragraph_totals. rewrite paragraph_totals_from. reflexivity. Qed.

(** C5. The fact-density check is the piecewise function of the word count
    W and the fact-token count F summed over all paragraphs: W = 0 gives 0
    and one high issue; else with r = F/W*100, r < 2 gives 25 and one high
    issue, r < 4 gives 60 and one medium issue, r > 10 gives 75 and one low
    issue, and anything else 95 and no issue.  W = 200 and F = 12 give 95 and
    no issue. *)
Theorem checkFactDensity_piecewise (doc : document) :
  let r := checkFactDensity host doc in
  (score r, map severity (issues_of r))
  = fact_density_rating (totalWords host doc) (verifiableFacts host doc)
  /\ Forall (fun i => type i = fact_density) (issues_of r)
  /\ fact_density_rating 200 12 = (95, [])
  /\ rateFactDensity 200 12 = (95, []).
Proof.
  cbn zeta. split; [|split; [apply checkFactDensity_types|split; vm_compute; reflexivity]].
  unfold checkFactDensity. rewrite paragraph_totals_sums.
  unfold rateFactDensity, fact_density_rating, factsPerHundred.
  destruct (totalWords host doc =? 0)%nat; [reflexivity|].
  destruct (flt _ lit_2); [reflexivity|].
  destruct (flt _ lit_4); [reflexivity|].
  destruct (fgt _ lit_10); reflexivity.
Qed.

(** *** The answer-placement paragraph *)

(** C4, as the code has it.  With a first [h1] and no main-content
    container, the paragraph that is read is the first [p] among the sibling
    elements that follow that [h1] under the same parent; when none of them
    is a [p], no paragraph is read and the check returns 20 with its
    'no substantive paragraph' issue. *)
Theorem firstP_is_first_sibling_paragraph (doc : document) (h1 : element) (others : selection) :
  select sel_h1 doc = h1 :: others ->
  select sel_main doc = [] ->
  firstP doc = first (filter (matches sel_p) (sibling_elements (following h1)))
  /\ (filter (matches sel_p) (sibling_elements (following h1)) = [] ->
      score (checkAnswerFrontLoading doc) = 20
      /\ map severity (issues_of (checkAnswerFrontLoading doc)) = [high]).
Proof.
  intros Hh1 Hmain.
  assert (HP : firstP doc = first (filter (matches sel_p) (sibling_elements (following h1)))).
  { unfold firstP. rewrite Hmain, Hh1. cbn [first firstn List.length Nat.ltb Nat.leb].
    unfold nextAll. cbn [flat_map]. rewrite app_nil_r. reflexivity. }
  split; [exact HP|].
  intros Hnone. unfold checkAnswerFrontLoading.
  rewrite Hh1, HP, Hnone. cbn. split; reflexivity.
Qed.

(** *** Heading structure *)

Lemma skip_walk_by_tags (l : list element) (st : option Z * Z * list AnalysisIssue) :
  fold_left skip_step l st = fold_left skip_tag (map tagName l) st.
Proof.
  revert st. induction l as [|e l IH]; intros st; [reflexivity|].
  cbn [map fold_left]. rewrite <- IH. destruct st as [[lv sc] i]. reflexivity.
Qed.

(** After an [h3] or an [h4], further [h3] and [h4] headings skip nothing. *)
Lemma skip_walk_h3_h4 (tags : list string) :
  Forall (fun t => t = "h3" \/ t = "h4")%string tags ->
  forall lv sc i, lv = Some 3 \/ lv = Some 4 ->
    exists lv', (lv' = Some 3 \/ lv' = Some 4)
                /\ fold_left skip_tag tags (lv, sc, i) = (lv', sc, i).
Proof.
  induction 1 as [|tag tags Htag _ IH]; intros lv sc i Hlv.
  - exists lv. split; [exact Hlv|reflexivity].
  - cbn [fold_left].
    destruct Htag as [-> | ->], Hlv as [-> | ->]; cbn; apply IH; tauto.
Qed.

Lemma matches_tag (name : string) (e : element) :
  matches [[Tag name]] e = String.eqb (tagName e) name.
Proof. cbn. rewrite andb_true_r, orb_false_r. reflexivity. Qed.

Lemma filter_filter_sub {A : Type} (p q : A -> bool) (l : list A) :
  (forall x, p x = true -> q x = true) -> filter p (filter q l) = filter p l.
Proof.
  intros Hpq. induction l as [|x l IH]; [reflexivity|].
  cbn [filter]. destruct (q x) eqn:Eq.
  - cbn [filter]. rewrite IH. reflexivity.
  - destruct (p x) eqn:Ep; [rewrite (Hpq x Ep) in Eq; discriminate|exact IH].
Qed.

Lemma length_filter_map {A B : Type} (f : A -> B) (p : B -> bool) (l : list A) :
  List.length (filter (fun x => p (f x)) l) = List.length (filter p (map f l)).
Proof.
  induction l as [|x l IH]; [reflexivity|].
  cbn [filter map]. destruct (p (f x)); cbn [List.length]; rewrite IH; reflexivity.
Qed.

(** The number of [name] headings, read off the tags of the headings
    h1 to h4 in document order. *)
Lemma count_heading (name : string) (doc : document) :
  In name ["h1"; "h2"; "h3"; "h4"]%string ->
  List.length (select [[Tag name]] doc)
  = List.length (filter (fun t => String.eqb t name) (map tagName (select sel_h1_h4 doc))).
Proof.
  intros Hin. unfold select.
  rewrite <- (length_filter_map tagName (fun t => String.eqb t name)).
  rewrite filter_filter_sub.
  - f_equal. apply filter_ext. intros e. apply matches_tag.
  - intros e He. apply String.eqb_eq in He.
    unfold matches, sel_h1_h4. cbn [existsb forallb matches_simple]. rewrite He.
    cbn [In] in Hin.
    destruct Hin as [<-|[<-|[<-|[<-|[]]]]]; cbn; reflexivity.
Qed.

Lemma fold_empty_step_nonempty (l : list element) (st : Z * list AnalysisIssue) :
  Forall (fun e => trim (text [e]) <> ""%string) l -> fold_left empty_step l st = st.
Proof.
  induction 1 as [|e l He _ IH]; [reflexivity|].
  cbn [fold_left]. destruct st as [sc i]. unfold empty_step at 2.
  destruct (String.eqb (trim (text [e])) "") eqn:E; [apply String.eqb_eq in E; contradiction|].
  exact IH.
Qed.

Lemma no_h1_h2_among_h3_h4 (tags : list string) (name : string) :
  Forall (fun t => t = "h3" \/ t = "h4")%string tags ->
  name = "h1"%string \/ name = "h2"%string ->
  filter (fun t => String.eqb t name) tags = [].
Proof.
  induction 1 as [|tag tags Htag _ IH]; intros Hname; [reflexivity|].
  cbn [filter]. rewrite (IH Hname).
  destruct Htag as [-> | ->], Hname as [-> | ->]; reflexivity.
Qed.

(** C6. When the headings h1 to h4 of a document start with an [h1] directly
    followed by an [h3], with no [h2] (any further headings being [h3] or
    [h4]) and no heading is empty, the check returns exactly two issues: the
    medium 'H3 without H2' issue (penalty 20) and the low 'level skipped
    H1 -> H3' issue (penalty 10), and the score 100 - 20 - 10 = 70. *)
Theorem h1_then_h3_scores_70 (doc : document) (more : list string) :
  map tagName (select sel_h1_h4 doc) = ("h1" :: "h3" :: more)%string ->
  Forall (fun t => t = "h3" \/ t = "h4")%string more ->
  Forall (fun e => trim (text [e]) <> ""%string) (select sel_h1_h3 doc) ->
  checkHeadingStructure doc
  = (100 - 20 - 10, [h3_without_h2_issue; skipped_issue (Some 1) (Some 3)])
  /\ severity h3_without_h2_issue = medium
  /\ severity (skipped_issue (Some 1) (Some 3)) = low.
Proof.
  intros Htags Hmore Hfull.
  split; [|split; reflexivity].
  unfold checkHeadingStructure.
  assert (H1 : List.length (select sel_h1 doc) = 1%nat).
  { unfold sel_h1. rewrite count_heading by (cbn; tauto). rewrite Htags.
    cbn [filter String.eqb Ascii.eqb Bool.eqb].
    rewrite (no_h1_h2_among_h3_h4 more "h1" Hmore) by tauto. reflexivity. }
  assert (H2 : List.length (select sel_h2 doc) = 0%nat).
  { unfold sel_h2. rewrite count_heading by (cbn; tauto). rewrite Htags.
    cbn [filter String.eqb Ascii.eqb Bool.eqb].
    rewrite (no_h1_h2_among_h3_h4 more "h2" Hmore) by tauto. reflexivity. }
  assert (H3 : (0 <? List.length (select sel_h3 doc))%nat = true).
  { unfold sel_h3. rewrite count_heading by (cbn; tauto). rewrite Htags.
    cbn [filter String.eqb Ascii.eqb Bool.eqb List.length]. reflexivity. }
  rewrite H1, H2, H3. cbn [Nat.eqb Nat.ltb Nat.leb andb app].
  rewrite skip_walk_by_tags, Htags. cbn [fold_left].
  change (skip_tag (Some 1, 100 - 20, [h3_without_h2_issue]) "h1")
    with (Some 1, 100 - 20, [h3_without_h2_issue]).
  change (skip_tag (Some 1, 100 - 20, [h3_without_h2_issue]) "h3")
    with (Some 3, 100 - 20 - 10, [h3_without_h2_issue; skipped_issue (Some 1) (Some 3)]).
  destruct (skip_walk_h3_h4 more Hmore (Some 3) (100 - 20 - 10)
              [h3_without_h2_issue; skipped_issue (Some 1) (Some 3)] ltac:(tauto))
    as (lv' & _ & Hwalk).
  rewrite Hwalk, (fold_empty_step_nonempty _ _ Hfull). reflexivity.
Qed.




(** *** The empty string *)

Lemma filter_has_type_nonempty (ty : IssueType) (i : AnalysisIssue) (l : list AnalysisIssue) :
  In i l -> type i = ty -> filter (has_type ty) l <> [].
Proof.
  intros Hin Hty Hnil.
  assert (H : In i (filter (has_type ty) l)).
  { apply filter_In. split; [exact Hin|]. unfold has_type. rewrite Hty.
    apply IssueType_eqb_eq. reflexivity. }
  rewrite Hnil in H. exact H.
Qed.

(** C9. When the parser returns the empty document for the empty string,
    [analyze ""] with every check enabled returns a result whose
    heading-structure score is 100 - 40 = 60 (no [h1]), whose schema and
    fact-density scores are 0, with at least one issue of each of these three
    checks, every entry and the overall score in range. *)
Theorem analyze_empty_string (o : AnalyzerOptions) :
  cheerio_load host "" = Sample.empty_page ->
  options (constructor o) = DEFAULT_OPTIONS ->
  let r := analyze host (constructor o) "" in
  headingStructure (breakdown r) = 100 - 40
  /\ schemaCoverage (breakdown r) = 0
  /\ factDensity (breakdown r) = 0
  /\ filter (has_type heading_structure) (issues r) <> []
  /\ filter (has_type schema) (issues r) <> []
  /\ filter (has_type fact_density) (issues r) <> []
  /\ (forall c, 0 <= entry (breakdown r) c <= 100)
  /\ 0 <= overallScore r <= 100.
Proof.
  intros Hload Hopt. cbn zeta.
  assert (Hin : forall i, In i (collected_issues host (constructor o) Sample.empty_page) ->
                          In i (issues (analyze host (constructor o) ""))).
  { intros i Hi. cbn [analyze issues]. rewrite Hload. apply Array_sort_In. exact Hi. }
  split; [cbn [analyze breakdown]; rewrite Hload; unfold breakdown_of; rewrite Hopt; reflexivity|].
  split; [cbn [analyze breakdown]; rewrite Hload; unfold breakdown_of; rewrite Hopt; reflexivity|].
  split; [cbn [analyze breakdown]; rewrite Hload; unfold breakdown_of; rewrite Hopt; reflexivity|].
  split.
  { apply (filter_has_type_nonempty _ missing_h1_issue); [|reflexivity].
    apply Hin. unfold collected_issues. rewrite Hopt.
    apply in_or_app. right. apply in_or_app. right. apply in_or_app. left.
    left. reflexivity. }
  split.
  { apply (filter_has_type_nonempty _
             (mkIssue schema high "No JSON-LD structured data found"
                "Add JSON-LD schema markup using SchemaBuilder from ai-visibility"));
      [|reflexivity].
    apply Hin. unfold collected_issues. rewrite Hopt.
    do 5 (apply in_or_app; right). left. reflexivity. }
  split.
  { apply (filter_has_type_nonempty _
             (mkIssue fact_density high "No paragraph content found"
                "Add substantive text content to the page")); [|reflexivity].
    apply Hin. unfold collected_issues. rewrite Hopt.
    apply in_or_app. right. apply in_or_app. left. left. reflexivity. }
  split; [intros c; cbn [analyze breakdown]; apply breakdown_of_range|].
  cbn [analyze overallScore].
  apply Math_round_weighted_sum. intros c. apply breakdown_of_range.
Qed.

End Properties.

(* ================================================================== *)
(** ** The claims on sample documents *)

Section Witnesses.

Import JSNumber JSString Dom Runtime ContentAnalyzer.

(** C4 on a page whose heading is followed by a [div] with a paragraph and
    then by a paragraph: the sibling paragraph is read. *)
Lemma firstP_is_first_sibling_paragraph_witness :
  select sel_h1 Sample.nested_page = [Sample.nested_h1]
  /\ select sel_main Sample.nested_page = []
  /\ map children (firstP Sample.nested_page)
     = [[Text "Our pricing is simple: one plan, billed monthly, cancel at any time."]].
Proof.
  split; [reflexivity|]. split; [reflexivity|].
  rewrite (proj1 (firstP_is_first_sibling_paragraph Sample.nested_page Sample.nested_h1 []
                    eq_refl eq_refl)).
  reflexivity.
Defined.

(** C4 as the claim states it fails: on [Sample.header_page] there is an
    [h1], no main-content container, and a substantive paragraph follows the
    heading in document order; the check reads no paragraph and returns 20. *)
Lemma first_paragraph_in_document_order_not_read :
  select sel_h1 Sample.header_page <> []
  /\ select sel_main Sample.header_page = []
  /\ map children (SpecReading.first_p_in_document_order Sample.header_page)
     = [[Text "Our pricing is simple: one plan, billed monthly, cancel at any time."]]
  /\ firstP Sample.header_page = []
  /\ firstP Sample.header_page <> SpecReading.first_p_in_document_order Sample.header_page
  /\ score (checkAnswerFrontLoading Sample.header_page) = 20.
Proof.
  split; [vm_compute; discriminate|].
  split; [reflexivity|]. split; [reflexivity|]. split; [reflexivity|].
  split; [vm_compute; discriminate|reflexivity].
Qed.

(** C6 on the page of the test 'detects heading level skip'. *)
Lemma h1_then_h3_scores_70_witness :
  map tagName (select sel_h1_h4 Sample.skipped_h2_page) = ["h1"; "h3"]%string
  /\ checkHeadingStructure Sample.skipped_h2_page
     = (70, [h3_without_h2_issue; skipped_issue (Some 1) (Some 3)]).
Proof.
  split; [reflexivity|].
  apply (h1_then_h3_scores_70 Sample.skipped_h2_page []).
  - reflexivity.
  - constructor.
  - repeat constructor; vm_compute; discriminate.
Defined.

(** C7 with the options of the test 'respects disabled checks'. *)
Lemma disabled_check_scores_100_without_issues_witness :
  enabled (options (constructor Sample.custom_options)) EEAT = false
  /\ (let r := analyze Sample.host (constructor Sample.custom_options) "We are the best!" in
      entry (breakdown r) EEAT = 100 /\ filter (has_type eeat) (issues r) = []).
Proof.
  split; [reflexivity|].
  apply (disabled_check_scores_100_without_issues Sample.host
           (constructor Sample.custom_options) "We are the best!" EEAT).
  reflexivity.
Defined.

(** C9 for the sample host. *)
Lemma analyze_empty_string_witness :
  cheerio_load Sample.host "" = Sample.empty_page
  /\ headingStructure (breakdown (analyze Sample.host (constructor Sample.no_options) "")) = 60.
Proof.
  split; [reflexivity|].
  apply (analyze_empty_string Sample.host Sample.no_options eq_refl eq_refl).
Defined.


End Witnesses.

(* ================================================================== *)
(** ** Further properties of the checks and of analyze *)

Section FurtherProperties.

Import JSNumber JSString Dom Runtime ContentAnalyzer.

Context (host : Host).

(** *** Recommendations *)

Lemma recommend_count (lines : list (bool * string)) (closing : string) :
  Forall (fun l => snd l <> closing) lines ->
  let n := List.length (filter fst lines) in
  List.length (recommend lines closing) = Nat.max 1 n
  /\ (n = 0%nat <-> recommend lines closing = [closing])
  /\ (In closing (recommend lines closing) <-> n = 0%nat).
Proof.
  intros Hne. cbn zeta. unfold recommend.
  assert (Hin : ~ In closing (map snd (filter fst lines))).
  { intros Hin. apply in_map_iff in Hin. destruct Hin as (l & Hl & Hf).
    apply filter_In in Hf. rewrite Forall_forall in Hne. exact (Hne l (proj1 Hf) Hl). }
  rewrite <- (length_map snd (filter fst lines)).
  destruct (map snd (filter fst lines)) as [|x r]; cbn [List.length Nat.eqb app].
  - split; [reflexivity|]. split; [tauto|]. cbn. tauto.
  - split; [lia|]. split; split; intros H; try discriminate H.
    + injection H as -> _. exfalso. apply Hin. left. reflexivity.
    + contradiction.
Qed.

Lemma generateRecommendations_shape (b : Breakdown) :
  generateRecommendations b
  = recommend
      [(answerFrontLoading b <? 70,
        "ðŸ“Œ Front-load your answers: AI models prioritize content in the first 20% of a section"%string);
       (factDensity b <? 60,
        "ðŸ“Š Add more data: Include specific numbers, dates, and statistics to improve citability"%string);
       (headingStructure b <? 80,
        "ðŸ—ï¸ Fix heading hierarchy: Use H1 â†’ H2 â†’ H3 consistently for better content parsing"%string);
       (eeatSignals b <? 60,
        "ðŸ† Boost E-E-A-T: Add author credentials, company info, and trust signals"%string);
       (snippability_score b <? 70,
        "âœ‚ï¸ Improve snippability: Each section should be self-contained and informative"%string);
       (schemaCoverage b <? 50,
        "ðŸ”– Add structured data: Use SchemaBuilder to add JSON-LD markup for AI understanding"%string)]
      affirmation.
Proof.
  unfold generateRecommendations, recommend, affirmation.
  repeat match goal with
         | |- context [String ?c ?r] =>
             let line := fresh "line" in set (line := String c r); clearbody line
         end.
  destruct (answerFrontLoading b <? 70), (factDensity b <? 60),
    (headingStructure b <? 80), (eeatSignals b <? 60),
    (snippability_score b <? 70), (schemaCoverage b <? 50); reflexivity.
Qed.

(** [generateRecommendations] never returns an empty list: it gives one
    recommendation per sub-score below its threshold (70, 60, 80, 60, 70,
    50), and the single affirmation exactly when none is below. *)
Theorem generateRecommendations_count (b : Breakdown) :
  List.length (generateRecommendations b) = Nat.max 1 (below_threshold b)
  /\ (below_threshold b = 0%nat <-> generateRecommendations b = [affirmation])
  /\ (In affirmation (generateRecommendations b) <-> below_threshold b = 0%nat).
Proof.
  rewrite generateRecommendations_shape.
  match goal with
  | |- context [recommend ?lines _] =>
      replace (below_threshold b) with (List.length (filter fst lines))
  end.
  - apply recommend_count. repeat constructor; discriminate.
  - unfold below_threshold.
    destruct (answerFrontLoading b <? 70), (factDensity b <? 60),
      (headingStructure b <? 80), (eeatSignals b <? 60),
      (snippability_score b <? 70), (schemaCoverage b <? 50); reflexivity.
Qed.

(** *** E-E-A-T *)

Lemma checkEEAT_severities (doc : document) :
  Forall (fun i => severity i = medium \/ severity i = low) (issues_of (checkEEAT host doc)).
Proof.
  unfold checkEEAT.
  repeat match goal with
         | |- context [String ?c ?r] =>
             let line := fresh "line" in set (line := String c r); clearbody line
         end.
  repeat match goal with
         | |- context [if ?b then _ else _] => destruct b
         end;
    cbn [issues_of snd app];
    repeat (constructor; try (left; reflexivity); try (right; reflexivity)).
Qed.

(** The E-E-A-T score is 25 for each of the four signals the document
    shows (author, organization, contact, trust), and each signal that is
    missing adds its own issue, in that order: medium for the author and the
    contact, low for the organization and the trust signals.  So
    score + 25 * (number of issues) = 100, and the cap at 100 never cuts
    anything. *)
Theorem checkEEAT_score_counts_signals (doc : document) :
  let r := checkEEAT host doc in
  let found := filter (shows host doc) all_signals in
  let missing := filter (fun s => negb (shows host doc s)) all_signals in
  score r = 25 * Z.of_nat (List.length found)
  /\ map (fun i => (type i, severity i, message i)) (issues_of r)
     = map (fun s => (eeat, fst (missing_report s), snd (missing_report s))) missing
  /\ score r + 25 * Z.of_nat (List.length (issues_of r)) = 100
  /\ Forall (fun i => severity i = medium \/ severity i = low) (issues_of r).
Proof.
  cbn zeta.
  assert (H : score (checkEEAT host doc)
              = 25 * Z.of_nat (List.length (filter (shows host doc) all_signals))
              /\ map (fun i => (type i, severity i, message i)) (issues_of (checkEEAT host doc))
                 = map (fun s => (eeat, fst (missing_report s), snd (missing_report s)))
                     (filter (fun s => negb (shows host doc s)) all_signals)).
  { unfold checkEEAT, all_signals. cbn [filter shows]. cbn zeta.
    set (author := ((0 <? List.length (select sel_author doc))%nat
                    || RegExp_test host re_author (text (select sel_body doc)))%bool).
    set (org := ((0 <? List.length (select sel_org doc))%nat
                 || (0 <? List.length (select sel_site_name doc))%nat)%bool).
    set (contact := (0 <? List.length (select sel_contact doc))%nat).
    set (trust := existsb (fun pattern => RegExp_test host pattern (text (select sel_body doc)))
                    trustSignals).
    clearbody author org contact trust.
    destruct author, org, contact, trust; split; reflexivity. }
  destruct H as [Hs Hi]. split; [exact Hs|]. split; [exact Hi|].
  split; [|apply checkEEAT_severities].
  rewrite Hs.
  pose proof (f_equal (@List.length _) Hi) as Hl. rewrite !length_map in Hl. rewrite Hl.
  unfold all_signals. cbn [filter].
  destruct (shows host doc AuthorInfo), (shows host doc OrganizationInfo),
    (shows host doc ContactInfo), (shows host doc TrustSignals); reflexivity.
Qed.

(** *** Schema coverage *)

Lemma schema_walk (l : list element) :
  forall v i,
    fold_left (schema_step host) l (v, i)
    = ((v + List.length (filter (schema_block_valid host) l))%nat,
       i ++ map (fun _ => invalid_jsonld_issue) (filter (schema_block_broken host) l)).
Proof.
  induction l as [|el l IH]; intros v i.
  - cbn. rewrite Nat.add_0_r, app_nil_r. reflexivity.
  - cbn [fold_left filter]. unfold schema_step at 2.
    unfold schema_block_valid at 1, schema_block_broken at 1.
    destruct (JSON_parse host (cheerio_html host (children el))) as [json|].
    + destruct json;
        [rewrite IH; cbn [map List.length]; rewrite <- app_assoc; f_equal; lia
        |destruct (truthy _ && truthy _)%bool; rewrite IH; cbn [List.length];
         f_equal; lia ..].
    + rewrite IH. cbn [map List.length]. rewrite <- app_assoc. f_equal; lia.
Qed.

(** A block that fails to parse (or parses to [null]) does not stop the
    check: every JSON-LD block is still examined, each broken one adds one
    'Invalid JSON-LD' issue in document order, and these issues come before
    the low-severity issues about missing schema types.  With JSON-LD blocks
    but no valid one the score is 10 and there are no other issues. *)
Theorem checkSchemaCoverage_broken_blocks (doc : document) :
  select sel_jsonld doc <> [] ->
  let blocks := select sel_jsonld doc in
  let r := checkSchemaCoverage host doc in
  exists rest,
    issues_of r
    = map (fun _ => invalid_jsonld_issue) (filter (schema_block_broken host) blocks) ++ rest
    /\ Forall (fun i => severity i = low) rest
    /\ (List.length rest <= 2)%nat
    /\ (filter (schema_block_valid host) blocks = [] -> rest = [] /\ score r = 10).
Proof.
  intros Hne. cbn zeta. unfold checkSchemaCoverage.
  destruct (select sel_jsonld doc) as [|el l] eqn:Hsel; [contradiction|].
  cbn [List.length Nat.eqb]. rewrite schema_walk. cbn [app Nat.add].
  set (broken := map (fun _ => invalid_jsonld_issue) (filter (schema_block_broken host) (el :: l))).
  destruct (filter (schema_block_valid host) (el :: l)) as [|x valid] eqn:Hv.
  - cbn [List.length Nat.eqb]. exists []. rewrite app_nil_r.
    split; [reflexivity|]. split; [constructor|]. split; [cbn; lia|].
    intros _. split; reflexivity.
  - cbn [List.length Nat.eqb].
    destruct (includes _ _), (includes _ _); cbn [negb issues_of snd];
      [exists []; rewrite app_nil_r | eexists [_] | eexists [_] | eexists [_; _]; rewrite <- app_assoc];
      (split; [reflexivity|]); (split; [repeat constructor|]);
      (split; [cbn; lia|]); intros H; discriminate H.
Qed.

(** The schema score tells the three situations apart: 0 exactly when the
    document has no JSON-LD block, 10 exactly when it has blocks but none is
    valid, and at least 50 exactly when some block is valid. *)
Theorem checkSchemaCoverage_score_classes (doc : document) :
  let blocks := select sel_jsonld doc in
  let r := checkSchemaCoverage host doc in
  (score r = 0 <-> blocks = [])
  /\ (score r = 10 <-> blocks <> [] /\ filter (schema_block_valid host) blocks = [])
  /\ (50 <= score r <-> filter (schema_block_valid host) blocks <> []).
Proof.
  cbn zeta. unfold checkSchemaCoverage.
  destruct (select sel_jsonld doc) as [|el l] eqn:Hsel.
  - cbn. intuition (try lia; try congruence).
  - cbn [List.length Nat.eqb]. rewrite schema_walk. cbn [app Nat.add].
    destruct (filter (schema_block_valid host) (el :: l)) as [|x valid] eqn:Hv.
    + cbn. intuition (try lia; try congruence).
    + cbn [List.length Nat.eqb].
      destruct (includes _ _), (includes _ _); cbn [andb orb score fst];
        intuition (try lia; try congruence).
Qed.

(** *** Snippability *)

Lemma div_eucl_exact (a b : Z) : 0 < b -> Z.div_eucl (a * b) b = (a, 0).
Proof.
  intros Hb.
  pose proof (Z.div_mul a b ltac:(lia)) as Hq.
  pose proof (Z.mod_mul a b ltac:(lia)) as Hr.
  unfold Z.div, Z.modulo in Hq, Hr.
  destruct (Z.div_eucl (a * b) b) as [q r]. congruence.
Qed.

(** A Number of 53 digits divided by itself is exactly 1. *)
Lemma fdiv_self (m : positive) (e : Z) :
  Zpos (digits2_pos m) = 53 ->
  fdiv (S754_finite false m e) (S754_finite false m e)
  = S754_finite false 4503599627370496 (-52).
Proof.
  intros Hd. unfold fdiv. cbn [SFdiv xorb]. unfold SFdiv_core_binary.
  cbn [Zdigits2]. rewrite Hd, fexp_eq.
  replace (Z.min (Z.max (53 + e - (53 + e) - 53) (-1074)) (e - e)) with (-53) by lia.
  replace (e - e - -53) with 53 by lia.
  rewrite Z.shiftl_mul_pow2 by lia.
  rewrite (Z.mul_comm (Zpos m)), div_eucl_exact by lia.
  rewrite new_location_zero. vm_compute. reflexivity.
Qed.

Lemma counter_ratio_one (n : nat) :
  (1 <= n)%nat -> fmul (fdiv (counter n) (counter (Nat.max n 1))) lit_100 = lit_100.
Proof.
  intros Hn. replace (Nat.max n 1) with n by lia. unfold counter.
  destruct (Z2SF_exact (Z.min (Z.of_nat n) (2 ^ 53)) ltac:(lia)) as (m & e & Hz & Hd & _).
  rewrite Hz, fdiv_self by exact Hd. vm_compute. reflexivity.
Qed.

Lemma counter_ratio_zero (n : nat) :
  (1 <= n)%nat -> fmul (fdiv (counter 0) (counter n)) lit_100 = S754_zero false.
Proof.
  intros Hn. unfold counter at 2.
  destruct (Z2SF_exact (Z.min (Z.of_nat n) (2 ^ 53)) ltac:(lia)) as (m & e & Hz & _).
  rewrite Hz. reflexivity.
Qed.

Lemma snip_walk (l : list element) :
  forall s t i,
    fold_left snip_step l (s, t, i)
    = ((s + List.length (filter snippable l))%nat, (t + List.length l)%nat,
       i ++ map insufficient_issue (filter (fun el => negb (snippable el)) l)).
Proof.
  induction l as [|el l IH]; intros s t i.
  - cbn. rewrite !Nat.add_0_r, app_nil_r. reflexivity.
  - cbn [fold_left filter]. unfold snip_step at 2. fold (snippable el).
    destruct (snippable el); cbn [negb]; rewrite IH; cbn [map List.length].
    + repeat (f_equal; try lia).
    + rewrite <- app_assoc. repeat (f_equal; try lia).
Qed.

(** With at least one h2 or h3, the snippability check reports one issue
    for each subheading that is not followed by 80 characters of text, in
    document order, and its score is [Math.round] of the share of the others
    times 100: 100 with no issue when every subheading is snippable, 0 when
    none is. *)
Theorem checkSnippability_counts (doc : document) :
  select sel_h2_h3 doc <> [] ->
  let headings := select sel_h2_h3 doc in
  let good := List.length (filter snippable headings) in
  let r := checkSnippability doc in
  issues_of r = map insufficient_issue (filter (fun el => negb (snippable el)) headings)
  /\ score r
     = Math_round (fmul (fdiv (counter good) (counter (List.length headings))) lit_100)
  /\ (good = List.length headings -> r = (100, []))
  /\ (good = 0%nat -> score r = 0 /\ issues_of r = map insufficient_issue headings).
Proof.
  intros Hne. cbn zeta. unfold checkSnippability.
  destruct (select sel_h2_h3 doc) as [|el l] eqn:Hsel; [contradiction|].
  cbn [List.length Nat.eqb]. rewrite snip_walk. cbn [app Nat.add issues_of score fst snd].
  set (hs := el :: l).
  change (S (List.length l)) with (List.length hs).
  assert (Hlen : (1 <= List.length hs)%nat) by (cbn; lia).
  replace (Nat.max (List.length hs) 1) with (List.length hs) by lia.
  split; [reflexivity|]. split; [reflexivity|]. split.
  - intros Hall. rewrite Hall.
    replace (List.length hs) with (Nat.max (List.length hs) 1) at 2 by lia.
    rewrite counter_ratio_one by exact Hlen.
    f_equal.
    assert (Hnone : forall k : list element,
               List.length (filter snippable k) = List.length k ->
               filter (fun el => negb (snippable el)) k = []).
    { induction k as [|x k IHk]; [reflexivity|]. cbn [filter List.length].
      pose proof (filter_length_le snippable k) as Hle.
      destruct (snippable x); cbn [negb List.length]; intros Hk; [apply IHk; lia|lia]. }
    rewrite (Hnone hs Hall). reflexivity.
  - intros Hzero. rewrite Hzero, counter_ratio_zero by exact Hlen. split; [reflexivity|].
    f_equal.
    assert (Hall : forall k : list element,
               List.length (filter snippable k) = 0%nat ->
               filter (fun el => negb (snippable el)) k = k).
    { induction k as [|x k IHk]; [reflexivity|]. cbn [filter].
      destruct (snippable x); cbn [negb List.length]; intros Hk; [discriminate|].
      rewrite (IHk Hk). reflexivity. }
    apply Hall, Hzero.
Qed.

(** *** Heading structure: the score and the issues *)

Lemma total_penalty_app (l : list AnalysisIssue) (i : AnalysisIssue) :
  total_penalty (l ++ [i]) = total_penalty l + penalty i.
Proof.
  unfold total_penalty. induction l as [|x l IH]; cbn [app fold_right] in *; lia.
Qed.

Lemma penalty_positive (i : AnalysisIssue) : 10 <= penalty i.
Proof.
  unfold penalty. destruct (severity i); try lia.
  destruct (String.eqb _ _); lia.
Qed.

Lemma total_penalty_In (l : list AnalysisIssue) (i : AnalysisIssue) :
  In i l -> penalty i <= total_penalty l.
Proof.
  unfold total_penalty.
  induction l as [|x l IH]; [contradiction|].
  assert (H0 : 0 <= fold_right (fun i acc => penalty i + acc) 0 l).
  { clear. induction l as [|y l IHl]; cbn [fold_right] in *; [lia|].
    pose proof (penalty_positive y). lia. }
  pose proof (penalty_positive x).
  intros [->|Hin]; cbn [fold_right] in *; [lia|].
  specialize (IH Hin). lia.
Qed.

Lemma heading_score_raw (doc : document) :
  exists raw,
    checkHeadingStructure doc = (Z.max 0 raw, issues_of (checkHeadingStructure doc))
    /\ raw = 100 - total_penalty (issues_of (checkHeadingStructure doc)).
Proof.
  unfold checkHeadingStructure.
  set (st1 := if (List.length (select sel_h1 doc) =? 0)%nat then _ else _).
  assert (H1 : fst st1 = 100 - total_penalty (snd st1)).
  { unfold st1.
    destruct (List.length (select sel_h1 doc) =? 0)%nat; [reflexivity|].
    destruct (1 <? List.length (select sel_h1 doc))%nat; reflexivity. }
  destruct st1 as [s1 i1]. cbn [fst snd] in H1.
  set (st2 := if (_ && _)%bool then _ else _).
  assert (H2 : fst st2 = 100 - total_penalty (snd st2)).
  { unfold st2. destruct (_ && _)%bool; cbn [fst snd]; [|exact H1].
    rewrite total_penalty_app. change (penalty h3_without_h2_issue) with 20. lia. }
  destruct st2 as [s2 i2]. cbn [fst snd] in H2.
  assert (H3 : let st := fold_left skip_step (select sel_h1_h4 doc) (Some 1, s2, i2) in
               snd (fst st) = 100 - total_penalty (snd st)).
  { apply (fold_left_invariant
             (fun st : option Z * Z * list AnalysisIssue =>
                snd (fst st) = 100 - total_penalty (snd st))); [exact H2|].
    intros [[lv sc] i] x Hst. cbn [fst snd] in Hst. unfold skip_step.
    destruct (gt_num _ _); cbn [fst snd]; [|exact Hst].
    rewrite total_penalty_app.
    change (penalty (skipped_issue lv (level_of x))) with 10. lia. }
  cbn zeta in H3.
  destruct (fold_left skip_step (select sel_h1_h4 doc) (Some 1, s2, i2)) as [[l3 s3] i3].
  cbn [fst snd] in H3.
  assert (H4 : let st := fold_left empty_step (select sel_h1_h3 doc) (s3, i3) in
               fst st = 100 - total_penalty (snd st)).
  { apply (fold_left_invariant
             (fun st : Z * list AnalysisIssue => fst st = 100 - total_penalty (snd st)));
      [exact H3|].
    intros [sc i] x Hst. cbn [fst snd] in Hst. unfold empty_step.
    destruct (String.eqb _ _); cbn [fst snd]; [|exact Hst].
    rewrite total_penalty_app. change (penalty empty_heading_issue) with 10. lia. }
  cbn zeta in H4.
  destruct (fold_left empty_step (select sel_h1_h3 doc) (s3, i3)) as [s4 i4].
  cbn [fst snd issues_of] in *. exists s4. split; [reflexivity|exact H4].
Qed.

(** The heading-structure score is 100 minus the penalties of the issues
    the check reports (40, 20 or 10 each), floored at 0; it is 100 exactly
    when the check reports nothing. *)
Theorem checkHeadingStructure_score_is_100_minus_penalties (doc : document) :
  let r := checkHeadingStructure doc in
  score r = Z.max 0 (100 - total_penalty (issues_of r))
  /\ (score r = 100 <-> issues_of r = []).
Proof.
  cbn zeta. destruct (heading_score_raw doc) as (raw & Heq & Hraw).
  assert (Hs : score (checkHeadingStructure doc)
               = Z.max 0 (100 - total_penalty (issues_of (checkHeadingStructure doc)))).
  { rewrite Heq at 1. cbn [score fst]. rewrite Hraw. reflexivity. }
  split; [exact Hs|]. rewrite Hs. split.
  - destruct (issues_of (checkHeadingStructure doc)) as [|i l]; [reflexivity|].
    pose proof (total_penalty_In (i :: l) i ltac:(left; reflexivity)).
    pose proof (penalty_positive i). lia.
  - intros ->. reflexivity.
Qed.

Lemma select_h1_h4_tags (doc : document) :
  Forall (fun e => In (tagName e) ["h1"; "h2"; "h3"; "h4"]%string) (select sel_h1_h4 doc).
Proof.
  apply Forall_forall. intros e He. unfold select in He.
  apply filter_In in He. destruct He as [_ Hm].
  unfold matches, sel_h1_h4 in Hm. cbn [existsb forallb matches_simple] in Hm.
  rewrite !andb_true_r, orb_false_r in Hm.
  repeat (apply orb_true_iff in Hm; destruct Hm as [Hm|Hm]);
    apply String.eqb_eq in Hm; rewrite Hm; cbn; tauto.
Qed.

Lemma outline_h3_needs_h2 (l : list element) :
  Forall (fun e => In (tagName e) ["h1"; "h2"; "h3"; "h4"]%string) l ->
  forall prev, prev <= 1 -> outline_ok prev (map level_of l) ->
    In "h3"%string (map tagName l) -> In "h2"%string (map tagName l).
Proof.
  induction 1 as [|e l He _ IH]; intros prev Hprev Hok Hin; [contradiction|].
  cbn [map] in *. unfold level_of in Hok at 1.
  cbn [In] in He.
  destruct He as [He|[He|[He|[He|[]]]]]; rewrite <- He in *;
    [change (parseInt (remove_first "h" "h1")) with (Some 1) in Hok
    |change (parseInt (remove_first "h" "h2")) with (Some 2) in Hok
    |change (parseInt (remove_first "h" "h3")) with (Some 3) in Hok
    |change (parseInt (remove_first "h" "h4")) with (Some 4) in Hok];
    cbn [outline_ok] in Hok; destruct Hok as [Hle Hok]; try lia.
  - destruct Hin as [Hin|Hin]; [discriminate|]. right. exact (IH 1 ltac:(lia) Hok Hin).
  - left. reflexivity.
Qed.

Lemma outline_walk (l : list element) :
  forall prev sc i, outline_ok prev (map level_of l) ->
    exists last, fold_left skip_step l (Some prev, sc, i) = (Some last, sc, i).
Proof.
  induction l as [|e l IH]; intros prev sc i Hok; cbn [fold_left map] in *.
  - exists prev. reflexivity.
  - unfold skip_step at 2. destruct (level_of e) as [lv|]; [|contradiction].
    destruct Hok as [Hle Hok]. cbn [gt_num add1 option_map].
    replace (prev + 1 <? lv) with false by (symmetry; apply Z.ltb_ge; lia).
    apply IH, Hok.
Qed.

(** A clean outline gets full marks: with exactly one [h1], no heading
    level more than one below its predecessor (counted from level 1) and no
    empty heading, the check returns 100 and no issue. *)
Theorem clean_outline_scores_100 (doc : document) :
  List.length (select sel_h1 doc) = 1%nat ->
  outline_ok 1 (map level_of (select sel_h1_h4 doc)) ->
  Forall (fun e => trim (text [e]) <> ""%string) (select sel_h1_h3 doc) ->
  checkHeadingStructure doc = (100, []).
Proof.
  intros H1 Hok Hfull. unfold checkHeadingStructure.
  assert (H23 : ((0 <? List.length (select sel_h3 doc))%nat
                 && (List.length (select sel_h2 doc) =? 0)%nat)%bool = false).
  { unfold sel_h3, sel_h2. rewrite !count_heading by (cbn; tauto).
    destruct (filter (fun t => String.eqb t "h3") (map tagName (select sel_h1_h4 doc)))
      as [|t3 r3] eqn:E3; [reflexivity|].
    assert (Hin3 : In "h3"%string (map tagName (select sel_h1_h4 doc))).
    { assert (Ht : In t3 (filter (fun t => String.eqb t "h3")
                            (map tagName (select sel_h1_h4 doc))))
        by (rewrite E3; left; reflexivity).
      apply filter_In in Ht. destruct Ht as [Ht Heq]. apply String.eqb_eq in Heq.
      rewrite <- Heq. exact Ht. }
    pose proof (outline_h3_needs_h2 _ (select_h1_h4_tags doc) 1 ltac:(lia) Hok Hin3) as Hin2.
    destruct (filter (fun t => String.eqb t "h2") (map tagName (select sel_h1_h4 doc)))
      as [|t2 r2] eqn:E2; [|reflexivity].
    exfalso.
    assert (Ht : In "h2"%string (filter (fun t => String.eqb t "h2")
                                   (map tagName (select sel_h1_h4 doc))))
      by (apply filter_In; split; [exact Hin2|reflexivity]).
    rewrite E2 in Ht. exact Ht. }
  rewrite H23, H1. cbn [Nat.eqb Nat.ltb Nat.leb].
  destruct (outline_walk _ 1 100 [] Hok) as (last & Hwalk).
  rewrite Hwalk, (fold_empty_step_nonempty _ _ Hfull). reflexivity.
Qed.

(** *** A high-severity issue and the score *)

(** No check reports a high-severity issue next to a good score: whenever
    the issues of a check contain one of severity high, its score is at most
    60. *)
Theorem high_severity_means_low_score (c : CheckName) (doc : document) (i : AnalysisIssue) :
  In i (issues_of (check_of host c doc)) -> severity i = high ->
  score (check_of host c doc) <= 60.
Proof.
  destruct c; cbn [check_of].
  - unfold checkAnswerFrontLoading.
    repeat match goal with
           | |- context [if ?b then _ else _] => destruct b
           end; cbn [issues_of score fst snd];
      intros Hin Hs; cbn [In] in Hin;
      repeat (destruct Hin as [Hin|Hin]; [subst i|]); try contradiction;
      first [lia|discriminate Hs].
  - unfold checkFactDensity. destruct (paragraph_totals host doc) as [w f].
    unfold rateFactDensity.
    repeat match goal with
           | |- context [if ?b then _ else _] => destruct b
           end; cbn [issues_of score fst snd];
      intros Hin Hs; cbn [In] in Hin;
      repeat (destruct Hin as [Hin|Hin]; [subst i|]); try contradiction;
      first [lia|discriminate Hs].
  - intros Hin Hs.
    destruct (heading_score_raw doc) as (raw & Heq & Hraw).
    rewrite Heq. cbn [score fst].
    pose proof (total_penalty_In _ _ Hin) as Hp.
    unfold penalty in Hp. rewrite Hs in Hp. lia.
  - intros Hin Hs. exfalso.
    pose proof (checkEEAT_severities doc) as Hall.
    rewrite Forall_forall in Hall. destruct (Hall i Hin); congruence.
  - intros Hin Hs. exfalso. revert Hin. unfold checkSnippability.
    destruct (List.length (select sel_h2_h3 doc) =? 0)%nat.
    + cbn. intros [<-|[]]. discriminate Hs.
    + rewrite snip_walk. cbn [issues_of snd app]. intros Hin.
      apply in_map_iff in Hin. destruct Hin as (el & <- & _). discriminate Hs.
  - intros Hin Hs. revert Hin. unfold checkSchemaCoverage.
    destruct (List.length (select sel_jsonld doc) =? 0)%nat; [cbn; lia|].
    rewrite schema_walk. cbn [app Nat.add]. intros Hin. exfalso.
    assert (Hbroken : ~ In i (map (fun _ : element => invalid_jsonld_issue)
                               (filter (schema_block_broken host) (select sel_jsonld doc)))).
    { intros H. apply in_map_iff in H. destruct H as (el & <- & _). discriminate Hs. }
    destruct (_ =? 0)%nat; [exact (Hbroken Hin)|].
    destruct (includes _ _), (includes _ _); cbn [negb issues_of snd] in Hin;
      repeat (apply in_app_or in Hin; destruct Hin as [Hin|Hin];
              [|destruct Hin as [<-|[]]; discriminate Hs]);
      exact (Hbroken Hin).
Qed.

(** *** Answer placement: the main-content container comes first *)

(** When the document has a main-content container, only the paragraphs
    inside the first one count: the check reads the first [p] below it, and
    if it holds none the check returns 20 with its high-severity issue, with
    no fall-back to the paragraphs that follow the [h1]. *)
Theorem main_container_decides_paragraph (doc : document) (m : element) (others : selection) :
  select sel_main doc = m :: others ->
  firstP doc = first (filter (matches sel_p) (elements (children m)))
  /\ (select sel_h1 doc <> [] ->
      filter (matches sel_p) (elements (children m)) = [] ->
      score (checkAnswerFrontLoading doc) = 20
      /\ map severity (issues_of (checkAnswerFrontLoading doc)) = [high]).
Proof.
  intros Hmain.
  assert (HP : firstP doc = first (filter (matches sel_p) (elements (children m)))).
  { unfold firstP. rewrite Hmain. cbn [first firstn List.length Nat.ltb Nat.leb].
    unfold find. cbn [flat_map]. rewrite app_nil_r. reflexivity. }
  split; [exact HP|].
  intros Hh1 Hnone. unfold checkAnswerFrontLoading. rewrite HP, Hnone.
  destruct (select sel_h1 doc) as [|h l]; [contradiction|].
  cbn. split; reflexivity.
Qed.

(** The answer-placement check reports at most one issue; it reports none
    exactly when it returns 95, and it returns 0 exactly when the document
    has no [h1]. *)
Theorem checkAnswerFrontLoading_outcomes (doc : document) :
  let r := checkAnswerFrontLoading doc in
  (List.length (issues_of r) <= 1)%nat
  /\ (issues_of r = [] <-> score r = 95)
  /\ (score r = 0 <-> select sel_h1 doc = []).
Proof.
  cbn zeta. unfold checkAnswerFrontLoading, first.
  destruct (select sel_h1 doc) as [|h l]; cbn [firstn List.length Nat.eqb].
  - cbn. intuition (try lia; try congruence).
  - repeat match goal with
           | |- context [if ?b then _ else _] => destruct b
           end; cbn; intuition (try lia; try congruence).
Qed.

(** *** Fact density: the outcomes *)

(** The fact-density check reports at most one issue; it reports none
    exactly when it returns 95, and it returns 0 exactly when the paragraphs
    hold no word at all. *)
Theorem checkFactDensity_outcomes (doc : document) :
  let r := checkFactDensity host doc in
  (List.length (issues_of r) <= 1)%nat
  /\ (issues_of r = [] <-> score r = 95)
  /\ (score r = 0 <-> fst (paragraph_totals host doc) = 0%nat).
Proof.
  cbn zeta. unfold checkFactDensity.
  destruct (paragraph_totals host doc) as [w f]. cbn [fst]. unfold rateFactDensity.
  destruct w as [|w]; cbn [Nat.eqb].
  - cbn. intuition (try lia; try congruence).
  - repeat match goal with
           | |- context [if ?b then _ else _] => destruct b
           end; cbn; intuition (try lia; try congruence).
Qed.

(** *** The constructor *)

(** Every check is on unless the caller switched it off: after construction
    a check is disabled exactly when its key was passed as [false] or as
    [undefined], and enabled exactly when its key was left out or passed as
    [true]. *)
Theorem constructor_defaults_to_enabled (o : AnalyzerOptions) (c : CheckName) :
  (enabled (options (constructor o)) c = false
   <-> given o c = Some (Some false) \/ given o c = Some None)
  /\ (enabled (options (constructor o)) c = true
      <-> given o c = None \/ given o c = Some (Some true)).
Proof.
  destruct c; cbn [enabled options constructor given checkAnswerPlacement
                     checkFactDensity_on checkHeadingStructure_on checkEEAT_on
                     checkSnippability_on checkSchema DEFAULT_OPTIONS];
    match goal with
    | |- context [spread _ ?g] => destruct g as [[[]|]|]
    end; cbn [spread ToBoolean]; intuition congruence.
Qed.

(** The result depends on the configuration only through which checks it
    leaves on: two analyzers whose options are truthy for the same checks
    return the same result, so a key passed as [undefined] acts as [false]
    and a key left out acts as [true]. *)
Theorem analyze_depends_on_enabled_checks_only (a1 a2 : t) (html : string) :
  (forall c, enabled (options a1) c = enabled (options a2) c) ->
  analyze host a1 html = analyze host a2 html.
Proof.
  intros Hsame.
  pose proof (Hsame AnswerPlacement) as H1. pose proof (Hsame FactDensity) as H2.
  pose proof (Hsame HeadingStructure) as H3. pose proof (Hsame EEAT) as H4.
  pose proof (Hsame Snippability) as H5. pose proof (Hsame Schema) as H6.
  cbn [enabled] in H1, H2, H3, H4, H5, H6.
  unfold analyze, breakdown_of, collected_issues. cbn zeta.
  rewrite H1, H2, H3, H4, H5, H6. reflexivity.
Qed.

(** *** analyze: the issues and the extreme configurations *)

(** Sorting neither drops, repeats nor invents an issue: the issues of the
    result are a permutation of the issues the enabled checks produced. *)
Theorem analyze_issues_permutation (this : t) (html : string) :
  let doc := cheerio_load host html in
  Permutation
    (flat_map (fun c => issues_of (run_check (enabled (options this) c) (check_of host c) doc))
       all_checks)
    (issues (analyze host this html))
  /\ List.length (issues (analyze host this html))
     = list_sum (map (fun c => List.length
                                 (issues_of (run_check (enabled (options this) c)
                                               (check_of host c) doc)))
                   all_checks).
Proof.
  cbn zeta. cbn [analyze issues].
  assert (HP : Permutation
    (flat_map (fun c => issues_of (run_check (enabled (options this) c) (check_of host c)
                                     (cheerio_load host html))) all_checks)
    (Array_sort by_severity (collected_issues host this (cheerio_load host html)))).
  { rewrite <- collected_issues_by_check. apply Array_sort_Permutation. }
  split; [exact HP|].
  rewrite <- (Permutation_length HP).
  cbn [all_checks flat_map map list_sum fold_right].
  rewrite !length_app. cbn [List.length]. lia.
Qed.

(** With every check switched off, [analyze] returns the same result for
    every input: overall score 100, every entry 100, no issue, and the single
    affirmation as recommendation. *)
Theorem analyze_all_checks_disabled (this : t) (html : string) :
  (forall c, enabled (options this) c = false) ->
  analyze host this html
  = mkScore 100 (mkBreakdown 100 100 100 100 100 100) [] [affirmation].
Proof.
  intros Hoff.
  pose proof (Hoff AnswerPlacement) as H1. pose proof (Hoff FactDensity) as H2.
  pose proof (Hoff HeadingStructure) as H3. pose proof (Hoff EEAT) as H4.
  pose proof (Hoff Snippability) as H5. pose proof (Hoff Schema) as H6.
  cbn [enabled] in H1, H2, H3, H4, H5, H6.
  unfold analyze, breakdown_of, collected_issues. cbn zeta.
  rewrite H1, H2, H3, H4, H5, H6. cbn [run_check score issues_of fst snd app].
  vm_compute. reflexivity.
Qed.



End FurtherProperties.

(* ================================================================== *)
(** ** Further properties on sample documents *)

Section FurtherWitnesses.

Import JSNumber JSString Dom Runtime ContentAnalyzer.

Lemma checkSchemaCoverage_broken_blocks_witness :
  select sel_jsonld Sample.broken_jsonld_page <> []
  /\ exists rest,
       issues_of (checkSchemaCoverage Sample.host Sample.broken_jsonld_page)
       = map (fun _ => invalid_jsonld_issue)
           (filter (schema_block_broken Sample.host) (select sel_jsonld Sample.broken_jsonld_page))
         ++ rest.
Proof.
  assert (Hne : select sel_jsonld Sample.broken_jsonld_page <> []) by (vm_compute; discriminate).
  split; [exact Hne|].
  destruct (checkSchemaCoverage_broken_blocks Sample.host Sample.broken_jsonld_page Hne)
    as (rest & Hrest & _).
  exists rest. exact Hrest.
Defined.

Lemma checkSnippability_counts_witness :
  select sel_h2_h3 Sample.poor_page <> []
  /\ List.length (issues_of (checkSnippability Sample.poor_page)) = 2%nat.
Proof.
  assert (Hne : select sel_h2_h3 Sample.poor_page <> []) by (vm_compute; discriminate).
  split; [exact Hne|].
  rewrite (proj1 (checkSnippability_counts Sample.poor_page Hne)). reflexivity.
Defined.

Lemma clean_outline_scores_100_witness :
  List.length (select sel_h1 Sample.clean_outline_page) = 1%nat
  /\ checkHeadingStructure Sample.clean_outline_page = (100, []).
Proof.
  split; [reflexivity|].
  apply clean_outline_scores_100.
  - reflexivity.
  - vm_compute. repeat split; discriminate.
  - repeat constructor; vm_compute; discriminate.
Defined.

Lemma high_severity_means_low_score_witness :
  In missing_h1_issue (issues_of (checkHeadingStructure Sample.poor_page))
  /\ score (checkHeadingStructure Sample.poor_page) <= 60.
Proof.
  assert (Hin : In missing_h1_issue (issues_of (checkHeadingStructure Sample.poor_page)))
    by (left; reflexivity).
  split; [exact Hin|].
  exact (high_severity_means_low_score Sample.host HeadingStructure Sample.poor_page
           missing_h1_issue Hin eq_refl).
Defined.

Lemma main_container_decides_paragraph_witness :
  select sel_main Sample.empty_main_page
  = [mkElement "main" [] []
       [Element "h1" [] [Text "Pricing"];
        Element "p" [] [Text "Our pricing is simple: one plan, billed monthly, cancel at any time."]]]
  /\ firstP Sample.empty_main_page = []
  /\ score (checkAnswerFrontLoading Sample.empty_main_page) = 20.
Proof.
  split; [reflexivity|].
  pose proof (main_container_decides_paragraph Sample.empty_main_page _ [] eq_refl) as [HP Hs].
  split; [rewrite HP; reflexivity|].
  apply Hs; [vm_compute; discriminate|reflexivity].
Defined.

Lemma analyze_depends_on_enabled_checks_only_witness :
  (forall c,
      enabled (options (constructor
                          (mkAnalyzerOptions None None None (Some None) None None))) c
      = enabled (options (constructor
                            (mkAnalyzerOptions None None None (Some (Some false)) None
                               (Some (Some true))))) c)
  /\ analyze Sample.host
       (constructor (mkAnalyzerOptions None None None (Some None) None None))
       "We are the best!"
     = analyze Sample.host
         (constructor
            (mkAnalyzerOptions None None None (Some (Some false)) None (Some (Some true))))
         "We are the best!".
Proof.
  assert (H : forall c,
             enabled (options (constructor
                                 (mkAnalyzerOptions None None None (Some None) None None))) c
             = enabled (options (constructor
                                   (mkAnalyzerOptions None None None (Some (Some false)) None
                                      (Some (Some true))))) c)
    by (intros c; destruct c; reflexivity).
  split; [exact H|].
  exact (analyze_depends_on_enabled_checks_only Sample.host _ _ "We are the best!" H).
Defined.

Lemma analyze_all_checks_disabled_witness :
  overallScore
    (analyze Sample.host
       (mkAnalyzer
          (mkOptions (Some false) (Some false) (Some false) (Some false) (Some false)
             (Some false)))
       "We are the best!")
  = 100.
Proof.
  rewrite (analyze_all_checks_disabled Sample.host
             (mkAnalyzer
                (mkOptions (Some false) (Some false) (Some false) (Some false) (Some false)
                   (Some false)))
             "We are the best!").
  - reflexivity.
  - intros c. destruct c; reflexivity.
Defined.


End FurtherWitnesses.

(* ================================================================== *)
(** ** Properties of the analyze command *)

Section SortByScore.

Import Runtime.

Lemma insert_by_score_sorted (x : Cli.ResultEntry) (l : list Cli.ResultEntry) :
  StronglySorted score_le l ->
  StronglySorted score_le (insert_sorted Cli.by_score x l).
Proof.
  induction 1 as [|y l Hs IH Hy]; simpl.
  - constructor; constructor.
  - destruct (Cli.by_score x y <=? 0) eqn:E.
    + apply Z.leb_le in E. unfold Cli.by_score in E.
      constructor; [constructor; assumption|].
      constructor; [unfold score_le; lia|].
      eapply Forall_impl; [|exact Hy].
      intros a Ha. unfold score_le in *. lia.
    + apply Z.leb_gt in E. unfold Cli.by_score in E.
      constructor; [exact IH|].
      apply Forall_forall. intros a Ha.
      apply insert_sorted_In in Ha. destruct Ha as [->|Ha].
      * unfold score_le. lia.
      * rewrite Forall_forall in Hy. apply Hy, Ha.
Qed.

Lemma Array_sort_by_score_sorted (l : list Cli.ResultEntry) :
  StronglySorted score_le (Array_sort Cli.by_score l).
Proof.
  unfold Array_sort.
  induction l as [|x l IH]; simpl; [constructor|].
  apply insert_by_score_sorted, IH.
Qed.

Lemma insert_by_score_filter (v : Z) (x : Cli.ResultEntry) (l : list Cli.ResultEntry) :
  filter (has_score v) (insert_sorted Cli.by_score x l) = filter (has_score v) (x :: l).
Proof.
  induction l as [|y l IH]; [reflexivity|].
  cbn [insert_sorted].
  destruct (Cli.by_score x y <=? 0) eqn:E; [reflexivity|].
  apply Z.leb_gt in E. unfold Cli.by_score in E.
  cbn [filter] in *. rewrite IH. unfold has_score.
  destruct (Cli.score x =? v) eqn:Ex; destruct (Cli.score y =? v) eqn:Ey; try reflexivity.
  apply Z.eqb_eq in Ex, Ey. lia.
Qed.

Lemma Array_sort_by_score_filter (v : Z) (l : list Cli.ResultEntry) :
  filter (has_score v) (Array_sort Cli.by_score l) = filter (has_score v) l.
Proof.
  unfold Array_sort.
  induction l as [|x l IH]; [reflexivity|].
  cbn [fold_right]. rewrite insert_by_score_filter. cbn [filter]. rewrite IH. reflexivity.
Qed.

Lemma filter_Permutation {A : Type} (p : A -> bool) (l l' : list A) :
  Permutation l l' -> Permutation (filter p l) (filter p l').
Proof.
  induction 1 as [|x l l' HP IH|x y l|l l' l'' H1 IH1 H2 IH2]; cbn [filter].
  - constructor.
  - destruct (p x); [apply perm_skip|]; exact IH.
  - destruct (p x), (p y); try apply Permutation_refl. apply perm_swap.
  - eapply perm_trans; eassumption.
Qed.

Lemma filter_StronglySorted {A : Type} (R : A -> A -> Prop) (p : A -> bool) (l : list A) :
  StronglySorted R l -> StronglySorted R (filter p l).
Proof.
  induction 1 as [|x l Hs IH Hx]; cbn [filter]; [constructor|].
  destruct (p x); [|exact IH].
  constructor; [exact IH|].
  apply Forall_forall. intros y Hy. apply filter_In in Hy.
  rewrite Forall_forall in Hx. apply Hx, Hy.
Qed.

Lemma filter_comm {A : Type} (p q : A -> bool) (l : list A) :
  filter p (filter q l) = filter q (filter p l).
Proof.
  induction l as [|x l IH]; [reflexivity|].
  cbn [filter]. destruct (p x) eqn:Ep, (q x) eqn:Eq; cbn [filter];
    rewrite ?Ep, ?Eq, IH; reflexivity.
Qed.

End SortByScore.

Section QuotientBound.

Import JSNumber.

(** The quotient of two Numbers of 53 digits, the first at most [K] times
    the second, is at most [K]. *)
Lemma fdiv_below (K : Z) (mx my : positive) (ex ey : Z) :
  0 < K < 2 ^ 53 ->
  Zpos (digits2_pos mx) = 53 -> Zpos (digits2_pos my) = 53 ->
  -52 <= ex <= 1 -> -52 <= ey <= 1 ->
  Zpos mx * 2 ^ (ex + 52) <= K * (Zpos my * 2 ^ (ey + 52)) ->
  below (fdiv (S754_finite false mx ex) (S754_finite false my ey)) K 0.
Proof.
  intros HK Hdx Hdy Hex Hey Hle.
  unfold fdiv. cbn [SFdiv xorb]. unfold SFdiv_core_binary.
  cbn [Zdigits2]. rewrite Hdx, Hdy, fexp_eq.
  replace (Z.min (Z.max (53 + ex - (53 + ey) - 53) (-1074)) (ex - ey)) with (ex - ey - 53) by lia.
  replace (ex - ey - (ex - ey - 53)) with 53 by lia.
  rewrite Z.shiftl_mul_pow2 by lia.
  pose proof (Z_div_mod (Zpos mx * 2 ^ 53) (Zpos my) ltac:(lia)) as Hdm.
  destruct (Z.div_eucl (Zpos mx * 2 ^ 53) (Zpos my)) as [q r].
  destruct Hdm as [Hq Hr].
  destruct (digits2_pos_bounds mx) as [Hxlo Hxhi].
  destruct (digits2_pos_bounds my) as [Hylo Hyhi].
  rewrite Hdx in Hxlo, Hxhi. rewrite Hdy in Hylo, Hyhi.
  set (a := ex + 52) in *. set (b := ey + 52) in *.
  pose proof (pow2_pos a ltac:(lia)) as Hpa.
  pose proof (pow2_pos b ltac:(lia)) as Hpb.
  pose proof (pow2_pos (53 + b - a) ltac:(lia)) as Hpc.
  assert (Hpow : 2 ^ (53 + b - a) * 2 ^ a = 2 ^ b * 2 ^ 53).
  { rewrite <- !pow2_split by lia. f_equal. lia. }
  assert (Hq0 : 0 <= q).
  { destruct (Z_lt_le_dec q 0); [|assumption]. exfalso.
    assert (Zpos my * q <= Zpos my * (-1)) by (apply Z.mul_le_mono_nonneg_l; lia). lia. }
  assert (Hmain : Zpos my * (q * 2 ^ a) + r * 2 ^ a
                  <= Zpos my * (K * 2 ^ (53 + b - a) * 2 ^ a)).
  { replace (K * 2 ^ (53 + b - a) * 2 ^ a) with (K * (2 ^ (53 + b - a) * 2 ^ a)) by ring.
    rewrite Hpow.
    replace (Zpos my * (q * 2 ^ a) + r * 2 ^ a) with ((Zpos my * q + r) * 2 ^ a) by ring.
    rewrite <- Hq.
    replace (Zpos mx * 2 ^ 53 * 2 ^ a) with (Zpos mx * 2 ^ a * 2 ^ 53) by ring.
    replace (Zpos my * (K * (2 ^ b * 2 ^ 53))) with (K * (Zpos my * 2 ^ b) * 2 ^ 53) by ring.
    apply Z.mul_le_mono_nonneg_r; lia. }
  assert (Hr0' : 0 <= r * 2 ^ a) by (apply Z.mul_nonneg_nonneg; lia).
  assert (Hqle : q <= K * 2 ^ (53 + b - a)).
  { assert (H1 : Zpos my * (q * 2 ^ a) <= Zpos my * (K * 2 ^ (53 + b - a) * 2 ^ a)) by lia.
    apply Z.mul_le_mono_pos_l in H1; [|lia].
    apply (proj2 (Z.mul_le_mono_pos_r _ _ _ Hpa)) in H1. exact H1. }
  assert (Hbase : forall Q, scaled_le Q (ex - ey - 53) K 0 <-> Q <= K * 2 ^ (53 + b - a)).
  { intros Q. rewrite (scaled_le_base Q (ex - ey - 53) K 0 (ex - ey - 53)) by lia.
    rewrite Z.sub_diag. simpl (2 ^ 0).
    replace (0 - (ex - ey - 53)) with (53 + b - a) by (unfold a, b; lia). lia. }
  apply binary_round_aux_below; [exact Hq0|lia|lia|apply Hbase; exact Hqle|].
  destruct (Z.eq_dec r 0) as [->|Hr0].
  - left. apply new_location_zero.
  - right.
    assert (Hq52 : 2 ^ 52 <= q).
    { destruct (Z_lt_le_dec q (2 ^ 52)) as [Hlt|]; [|assumption]. exfalso.
      assert (Zpos my * q <= Zpos my * (2 ^ 52 - 1)) by (apply Z.mul_le_mono_nonneg_l; lia).
      assert (2 ^ 52 * 2 ^ 53 <= Zpos mx * 2 ^ 53) by (apply Z.mul_le_mono_nonneg_r; lia).
      nia. }
    split; [lia|]. split.
    + unfold scaled_lt.
      replace (Z.min (ex - ey - 53) 0) with (ex - ey - 53) by lia.
      rewrite Z.sub_diag. simpl (2 ^ 0).
      replace (0 - (ex - ey - 53)) with (53 + b - a) by (unfold a, b; lia).
      assert (Hrpos : 0 < r * 2 ^ a) by (apply Z.mul_pos_pos; lia).
      assert (H1 : Zpos my * (q * 2 ^ a) < Zpos my * (K * 2 ^ (53 + b - a) * 2 ^ a)) by lia.
      apply Z.mul_lt_mono_pos_l in H1; [|lia].
      apply (proj2 (Z.mul_lt_mono_pos_r _ _ _ Hpa)) in H1. lia.
    + rewrite fexp_eq.
      assert (53 <= Zdigits2 q); [|lia].
      destruct (Zdigits2_bounds q ltac:(lia)) as [_ Hqhi].
      destruct (Z_lt_le_dec (Zdigits2 q) 53) as [Hlt|]; [|assumption]. exfalso.
      assert (0 <= Zdigits2 q) by (destruct q; simpl; lia).
      assert (2 ^ Zdigits2 q <= 2 ^ 52) by (apply Z.pow_le_mono_r; lia).
      lia.
Qed.

(** [Math.round(total / n)] for a total of at most 100 n, both below
    2^53. *)
Lemma Math_round_quotient (s n : Z) :
  0 < n <= 2 ^ 53 -> 0 <= s <= 100 * n -> s <= 2 ^ 53 ->
  0 <= Math_round (fdiv (Z2SF s) (Z2SF n)) <= 100.
Proof.
  intros Hn Hs Hs53.
  assert (Hb : below (fdiv (Z2SF s) (Z2SF n)) 100 0).
  { destruct (Z2SF_exact n Hn) as (mn & en & Hnf & Hdn & Hen & Hvn).
    rewrite Hnf.
    destruct (Z.eq_dec s 0) as [->|Hs0]; [exact I|].
    destruct (Z2SF_exact s ltac:(lia)) as (ms & es & Hsf & Hds & Hes & Hvs).
    rewrite Hsf. apply fdiv_below; try assumption; [lia|].
    rewrite Hvs, Hvn. pose proof (pow2_pos 52 ltac:(lia)). nia. }
  apply (Math_round_below _ 100 0 100); [lia|lia|simpl; lia|exact Hb].
Qed.

End QuotientBound.

Section CommandProperties.

Import JSNumber JSString Dom Runtime ContentAnalyzer.

Context (host : Host) (sys : Cli.System).

(** *** The loop over the files *)

Lemma try_analyze_readable (analyzer : t) (file : string) :
  match Cli.try_analyze host sys analyzer file with
  | inl entry =>
      readable sys file = true /\ Cli.file entry = file
      /\ Cli.score entry = overallScore (Cli.result entry)
      /\ exists content, Cli.result entry = analyze host analyzer content
  | inr err =>
      readable sys file = false
      /\ error_line sys file
         = Cli.chalk_red sys
             (String.append "❌ Error analyzing " (String.append file (String.append ": " err)))
  end.
Proof.
  unfold Cli.try_analyze, readable, error_line.
  destruct (Cli.fs_readFileSync sys file) as [content|err].
  - cbn. repeat split. eexists. reflexivity.
  - split; reflexivity.
Qed.

Lemma analyze_files_from (json : bool) (analyzer : t) (files : list string) :
  forall results console,
    fold_left (Cli.analyze_file host sys json analyzer) files (results, console)
    = (results ++ entries_of host sys analyzer files,
       console ++ (if json then []
                   else map (error_line sys) (filter (fun f => negb (readable sys f)) files))).
Proof.
  induction files as [|file files IH]; intros results console.
  - cbn. rewrite !app_nil_r. destruct json; rewrite ?app_nil_r; reflexivity.
  - cbn [fold_left entries_of filter]. unfold Cli.analyze_file at 2.
    pose proof (try_analyze_readable analyzer file) as Ht.
    destruct (Cli.try_analyze host sys analyzer file) as [entry|err].
    + destruct Ht as (Hr & _). rewrite Hr. cbn [negb].
      rewrite IH, <- app_assoc. reflexivity.
    + destruct Ht as (Hr & He). rewrite Hr. cbn [negb].
      destruct json; cbn [negb]; rewrite IH; [reflexivity|].
      cbn [map]. rewrite He. unfold Cli.log. rewrite <- app_assoc. reflexivity.
Qed.

Lemma entries_of_files (analyzer : t) (files : list string) :
  map Cli.file (entries_of host sys analyzer files) = filter (readable sys) files.
Proof.
  induction files as [|file files IH]; [reflexivity|].
  cbn [entries_of filter].
  pose proof (try_analyze_readable analyzer file) as Ht.
  destruct (Cli.try_analyze host sys analyzer file) as [entry|err].
  - destruct Ht as (Hr & Hf & _). rewrite Hr. cbn [map]. rewrite Hf, IH. reflexivity.
  - destruct Ht as (Hr & _). rewrite Hr. exact IH.
Qed.

Lemma entries_of_analysed (analyzer : t) (files : list string) :
  Forall (fun r => Cli.try_analyze host sys analyzer (Cli.file r) = inl r)
    (entries_of host sys analyzer files).
Proof.
  induction files as [|file files IH]; [constructor|].
  cbn [entries_of].
  pose proof (try_analyze_readable analyzer file) as Ht.
  destruct (Cli.try_analyze host sys analyzer file) as [entry|err] eqn:E; [|exact IH].
  constructor; [|exact IH].
  destruct Ht as (_ & Hf & _). rewrite Hf. exact E.
Qed.

Lemma entries_of_length (analyzer : t) (files : list string) :
  (List.length (entries_of host sys analyzer files) <= List.length files)%nat.
Proof.
  rewrite <- (length_map Cli.file), entries_of_files. apply filter_length_le.
Qed.

Lemma entries_of_scores (analyzer : t) (files : list string) :
  Forall (fun r => 0 <= Cli.score r <= 100) (entries_of host sys analyzer files).
Proof.
  induction files as [|file files IH]; [constructor|].
  cbn [entries_of].
  pose proof (try_analyze_readable analyzer file) as Ht.
  destruct (Cli.try_analyze host sys analyzer file) as [entry|err]; [|exact IH].
  constructor; [|exact IH].
  destruct Ht as (_ & _ & Hs & content & Hc).
  rewrite Hs, Hc. cbn [analyze overallScore].
  apply Math_round_weighted_sum. intros c. apply breakdown_of_range.
Qed.

(** A file that cannot be read does not stop the scan: the results
    are the analyses of the readable files, in the order of the files, and
    each unreadable file adds one line to the output, none in JSON mode. *)
Theorem analyze_files_skips_unreadable (json : bool) (analyzer : t)
  (files console : list string) :
  let results := fst (Cli.analyze_files host sys json analyzer files console) in
  let out := snd (Cli.analyze_files host sys json analyzer files console) in
  map Cli.file results = filter (readable sys) files
  /\ Forall (fun r => Cli.try_analyze host sys analyzer (Cli.file r) = inl r) results
  /\ out = console
           ++ (if json then []
               else map (error_line sys) (filter (fun f => negb (readable sys f)) files)).
Proof.
  unfold Cli.analyze_files. rewrite analyze_files_from. cbn [fst snd app].
  split; [apply entries_of_files|]. split; [apply entries_of_analysed|reflexivity].
Qed.

(** *** The loop that prints the results *)

Lemma print_issues_from (l : list AnalysisIssue) :
  forall console,
    fold_left (Cli.print_issue sys) l console = console ++ flat_map (issue_lines sys) l.
Proof.
  induction l as [|i l IH]; intros console.
  - cbn. rewrite app_nil_r. reflexivity.
  - cbn [fold_left flat_map]. rewrite IH.
    unfold issue_lines at 2. unfold Cli.print_issue, Cli.log.
    cbn [app]. rewrite <- !app_assoc. reflexivity.
Qed.

Lemma print_result_listed (minScore : option Z) (shown : nat) (console : list string)
  (r : Cli.ResultEntry) :
  Cli.print_result sys minScore (shown, console) r
  = if Cli.ge_num (Cli.score r) minScore then (shown, console)
    else (S shown, console ++ result_lines sys r).
Proof.
  unfold result_lines, Cli.print_result. cbn [Cli.ge_num].
  destruct (Cli.ge_num (Cli.score r) minScore); [reflexivity|].
  cbn [snd]. f_equal.
  rewrite !print_issues_from. unfold Cli.log.
  destruct (3 <? List.length (issues (Cli.result r)))%nat;
    cbn [app]; rewrite <- ?app_assoc; cbn [app]; reflexivity.
Qed.

Lemma print_results_from (minScore : option Z) (results : list Cli.ResultEntry) :
  forall shown console,
    fold_left (Cli.print_result sys minScore) results (shown, console)
    = ((shown + List.length (listed minScore results))%nat,
       console ++ flat_map (result_lines sys) (listed minScore results)).
Proof.
  induction results as [|r results IH]; intros shown console.
  - cbn. rewrite Nat.add_0_r, app_nil_r. reflexivity.
  - cbn [fold_left]. rewrite print_result_listed. unfold listed. cbn [filter].
    destruct (Cli.ge_num (Cli.score r) minScore); cbn [negb].
    + apply IH.
    + rewrite IH. unfold listed. cbn [List.length flat_map].
      rewrite <- app_assoc. f_equal. lia.
Qed.

(** The report lists the results whose score is below the threshold,
    worst first: the lines printed are those of the listed results in
    non-decreasing score, [shown] counts them, no result below the threshold
    is lost or repeated, and results of equal score keep the order of the
    scan. *)
Theorem report_lists_worst_first (minScore : option Z) (results : list Cli.ResultEntry)
  (console : list string) :
  let sorted := Array_sort Cli.by_score results in
  let shown := fst (Cli.print_results sys minScore sorted console) in
  let out := snd (Cli.print_results sys minScore sorted console) in
  out = console ++ flat_map (result_lines sys) (listed minScore sorted)
  /\ shown = List.length (listed minScore sorted)
  /\ StronglySorted score_le (listed minScore sorted)
  /\ Permutation (listed minScore sorted) (listed minScore results)
  /\ (forall v, filter (has_score v) (listed minScore sorted)
                = filter (has_score v) (listed minScore results)).
Proof.
  cbn zeta. unfold Cli.print_results. rewrite print_results_from. cbn [fst snd].
  split; [reflexivity|]. split; [reflexivity|].
  split; [apply filter_StronglySorted, Array_sort_by_score_sorted|].
  split.
  - apply filter_Permutation, Permutation_sym, Array_sort_Permutation.
  - intros v. unfold listed.
    rewrite filter_comm, Array_sort_by_score_filter, filter_comm. reflexivity.
Qed.

(** With the threshold the command has by default ('101'), with any
    threshold above 100, and with one that is not a number, the report lists
    every file that was analysed. *)
Theorem report_lists_every_file_by_default (json : bool) (analyzer : t)
  (files console console' : list string) (minScore : string) :
  (forall m, parseInt minScore = Some m -> 100 < m) ->
  let results := fst (Cli.analyze_files host sys json analyzer files console) in
  let sorted := Array_sort Cli.by_score results in
  listed (parseInt minScore) sorted = sorted
  /\ fst (Cli.print_results sys (parseInt minScore) sorted console')
     = List.length (filter (readable sys) files).
Proof.
  intros Hm. cbn zeta.
  unfold Cli.analyze_files. rewrite analyze_files_from. cbn [fst app].
  set (results := entries_of host sys analyzer files).
  assert (Hall : listed (parseInt minScore) (Array_sort Cli.by_score results)
                 = Array_sort Cli.by_score results).
  { unfold listed. apply forallb_filter_id. apply forallb_forall. intros r Hr.
    apply Array_sort_In in Hr.
    pose proof (entries_of_scores analyzer files) as Hs.
    rewrite Forall_forall in Hs. specialize (Hs r Hr).
    unfold Cli.ge_num. destruct (parseInt minScore) as [m|]; [|reflexivity].
    specialize (Hm m eq_refl). apply negb_true_iff, Z.leb_gt. lia. }
  split; [exact Hall|].
  unfold Cli.print_results. rewrite print_results_from. cbn [fst]. rewrite Hall.
  rewrite <- (Permutation_length (Array_sort_Permutation Cli.by_score results)).
  unfold results. rewrite <- (length_map Cli.file), entries_of_files. reflexivity.
Qed.

Lemma StronglySorted_app_cross {A : Type} (R : A -> A -> Prop) (l1 l2 : list A) :
  StronglySorted R (l1 ++ l2) -> forall a b, In a l1 -> In b l2 -> R a b.
Proof.
  induction l1 as [|x l1 IH]; intros Hs a b Ha Hb; [contradiction|].
  cbn [app] in Hs. apply StronglySorted_inv in Hs. destruct Hs as [Hs Hx].
  destruct Ha as [<-|Ha].
  - rewrite Forall_forall in Hx. apply Hx, in_or_app. right. exact Hb.
  - apply (IH Hs a b Ha Hb).
Qed.

(** For each result it lists, the report prints two lines, then the
    first three issues of the result, two lines each, then the count of the
    issues left out, if any, and an empty line.  As the analyzer returns its
    issues sorted, no issue that is left out is more severe than one that is
    printed. *)
Theorem report_prints_most_severe_issues (this : t) (html file : string) :
  let r := analyze host this html in
  let e := Cli.mkResultEntry file (overallScore r) r in
  (exists head,
      List.length head = 2%nat
      /\ result_lines sys e
         = head ++ flat_map (issue_lines sys) (firstn 3 (issues r))
                ++ more_issues_line sys (List.length (issues r)) ++ [EmptyString])
  /\ (forall i, List.length (issue_lines sys i) = 2%nat)
  /\ (forall a b, In a (firstn 3 (issues r)) -> In b (skipn 3 (issues r)) -> rank_le a b).
Proof.
  cbn zeta. split; [|split].
  - unfold result_lines, Cli.print_result. cbn [Cli.ge_num Cli.score Cli.file Cli.result snd].
    rewrite !print_issues_from. unfold more_issues_line, Cli.log.
    eexists [_; _]. split; [reflexivity|].
    destruct (3 <? List.length (issues (analyze host this html)))%nat;
      cbn [app]; rewrite <- ?app_assoc; cbn [app]; rewrite ?app_nil_r; reflexivity.
  - intros i. reflexivity.
  - apply StronglySorted_app_cross. rewrite firstn_skipn.
    cbn [analyze issues]. apply Array_sort_StronglySorted.
Qed.

(** *** The summary *)

Lemma total_from (results : list Cli.ResultEntry) :
  Forall (fun r => 0 <= Cli.score r <= 100) results ->
  forall s, s <= fold_left (fun s r => s + Cli.score r) results s
            <= s + 100 * Z.of_nat (List.length results).
Proof.
  induction 1 as [|r results Hr Hrs IH]; intros s.
  - cbn. lia.
  - cbn [fold_left List.length]. specialize (IH (s + Cli.score r)). lia.
Qed.

Lemma average_in_range (results : list Cli.ResultEntry) :
  Forall (fun r => 0 <= Cli.score r <= 100) results ->
  Z.of_nat (List.length results) < 2 ^ 32 ->
  0 <= Cli.average results <= 100.
Proof.
  intros Hs Hn. unfold Cli.average.
  destruct (0 <? List.length results)%nat eqn:E; [|lia].
  apply Nat.ltb_lt in E.
  pose proof (total_from results Hs 0) as Ht. fold (Cli.total results) in Ht.
  apply Math_round_quotient; lia.
Qed.

(** The average score of the summary lies between 0 and 100, and is
    0 when no file could be analysed; the files counted as passing are among
    the files scanned. *)
Theorem summary_average_in_range (json : bool) (analyzer : t) (files console : list string) :
  Z.of_nat (List.length files) < 2 ^ 32 ->
  let results :=
    Array_sort Cli.by_score (fst (Cli.analyze_files host sys json analyzer files console)) in
  0 <= Cli.average results <= 100
  /\ (Cli.passing results <= List.length results <= List.length files)%nat
  /\ (filter (readable sys) files = [] -> Cli.average results = 0 /\ Cli.passing results = 0%nat).
Proof.
  intros Hn. cbn zeta.
  unfold Cli.analyze_files. rewrite analyze_files_from. cbn [fst app].
  set (entries := entries_of host sys analyzer files).
  pose proof (Array_sort_Permutation Cli.by_score entries) as HP.
  pose proof (Permutation_length HP) as Hlen.
  pose proof (entries_of_length analyzer files) as Hle. fold entries in Hle.
  split; [|split].
  - apply average_in_range; [|lia].
    apply Forall_forall. intros r Hr. apply Array_sort_In in Hr.
    pose proof (entries_of_scores analyzer files) as Hs.
    rewrite Forall_forall in Hs. apply Hs, Hr.
  - split; [apply filter_length_le|lia].
  - intros Hnone.
    assert (He : entries = []).
    { apply (f_equal (@List.length _)) in Hnone.
      rewrite <- (entries_of_files analyzer files), length_map in Hnone. fold entries in Hnone.
      destruct entries; [reflexivity|discriminate]. }
    rewrite He. split; reflexivity.
Qed.

(** *** The action *)

(** In JSON mode the command prints one line and nothing else: the
    serialisation of the results in the order of the files, with no heading,
    no line for a file that cannot be read, no sorting and no threshold.  When
    no file is found it prints the warning, which is not JSON. *)
Theorem action_json_prints_one_line (options : Cli.CommandOptions) :
  Cli.opt_json options = true ->
  Cli.action host sys options
  = match Cli.files_of sys options with
    | None => None
    | Some [] => Some [Cli.chalk_yellow sys "⚠️  No HTML or Markdown files found"]
    | Some (file :: files) =>
        Some [Cli.JSON_stringify sys
                (fst (Cli.analyze_files host sys true default_analyzer (file :: files) []))]
    end.
Proof.
  intros Hj. unfold Cli.action. rewrite Hj. cbn [negb].
  destruct (Cli.files_of sys options) as [[|file files]|]; [reflexivity| |reflexivity].
  cbn [List.length Nat.eqb].
  fold default_analyzer.
  unfold Cli.analyze_files. rewrite analyze_files_from. cbn [fst app]. reflexivity.
Qed.

Lemma summary_from (results : list Cli.ResultEntry) (console : list string) :
  Cli.summary sys results console = console ++ Cli.summary sys results [].
Proof.
  unfold Cli.summary, Cli.log. cbn [app]. rewrite <- !app_assoc. reflexivity.
Qed.

(** Outside JSON mode, when files were found, the command prints in
    this order: two lines of heading, one line for each file that cannot be
    read, the lines of the results below the threshold, worst first, the
    line that all files meet the threshold when no result is listed (also
    when no file could be read at all), and the five lines of the summary. *)
Theorem action_report_layout (options : Cli.CommandOptions) (files : list string) :
  Cli.opt_json options = false ->
  Cli.files_of sys options = Some files ->
  files <> [] ->
  let results :=
    Array_sort Cli.by_score (fst (Cli.analyze_files host sys false default_analyzer files [])) in
  let shown := listed (parseInt (Cli.opt_minScore options)) results in
  List.length (Cli.summary sys results []) = 5%nat
  /\ exists heading,
      List.length heading = 2%nat
      /\ Cli.action host sys options
         = Some (heading
                 ++ map (error_line sys) (filter (fun f => negb (readable sys f)) files)
                 ++ flat_map (result_lines sys) shown
                 ++ (if (List.length shown =? 0)%nat
                     then [Cli.chalk_green sys
                             (String.append "✅ All files meet the minimum score threshold!"
                                Cli.nl)]
                     else [])
                 ++ Cli.summary sys results []).
Proof.
  intros Hj Hf Hne. cbn zeta. split; [reflexivity|].
  unfold Cli.action. rewrite Hj, Hf. cbn [negb].
  destruct files as [|file files]; [congruence|].
  cbn [List.length Nat.eqb]. fold default_analyzer.
  unfold Cli.analyze_files. rewrite !analyze_files_from. cbn [fst app].
  set (results := Array_sort Cli.by_score (entries_of host sys default_analyzer (file :: files))).
  unfold Cli.print_results. rewrite print_results_from. cbn [Nat.add].
  rewrite summary_from. unfold Cli.log. cbn [app].
  eexists [_; _]. split; [reflexivity|].
  destruct (List.length (listed (parseInt (Cli.opt_minScore options)) results) =? 0)%nat;
    cbn [app]; rewrite <- ?app_assoc; cbn [app]; rewrite ?app_nil_r; reflexivity.
Qed.

(** *** The scan of the directory *)

Lemma visit_supported (extensions : list string) :
  forall (entry : Cli.Dirent) (current p : string),
    In p (Cli.visit sys extensions current entry) ->
    exists dir name,
      p = Cli.path_join sys dir name /\ supported sys extensions name = true.
Proof.
  fix IH 1. intros [name|name entries|name] current p Hp; cbn [Cli.visit] in Hp.
  - fold (supported sys extensions name) in Hp.
    destruct (supported sys extensions name) eqn:E; [|contradiction].
    destruct Hp as [<-|[]]. exists current, name. split; [reflexivity|exact E].
  - destruct (negb (prefix "." name) && negb (String.eqb name "node_modules"));
      [|contradiction].
    revert Hp. generalize (Cli.path_join sys current name). intros dir.
    induction entries as [|e entries IHe]; cbn [flat_map]; intros Hp; [contradiction|].
    apply in_app_or in Hp. destruct Hp as [Hp|Hp]; [exact (IH e dir p Hp)|exact (IHe Hp)].
  - contradiction.
Qed.

(** The scan returns only files whose extension, in lower case, is one of
    those asked for, each under the directory it was found in. *)
Theorem walk_finds_supported_files_only (extensions : list string) (current : string)
  (entries : list Cli.Dirent) (p : string) :
  In p (Cli.walk sys extensions current entries) ->
  exists dir file, p = Cli.path_join sys dir file /\ supported sys extensions file = true.
Proof.
  intros Hp. unfold Cli.walk in Hp. apply in_flat_map in Hp.
  destruct Hp as (e & _ & Hp). exact (visit_supported extensions e current p Hp).
Qed.

(** The scan never enters a directory whose name starts with a dot or is
    node_modules: what such a directory holds does not change the result. *)
Theorem walk_skips_hidden_directories (extensions : list string) (current : string)
  (before after : list Cli.Dirent) (name : string) (entries : list Cli.Dirent) :
  hidden name = true ->
  Cli.walk sys extensions current (before ++ Cli.IsDirectory name entries :: after)
  = Cli.walk sys extensions current (before ++ after).
Proof.
  intros Hh.
  unfold Cli.walk. rewrite !flat_map_app. cbn [flat_map Cli.visit].
  unfold hidden in Hh.
  replace (negb (prefix "." name) && negb (String.eqb name "node_modules")) with false
    by (destruct (prefix "." name), (String.eqb name "node_modules"); cbn in *; congruence).
  reflexivity.
Qed.

End CommandProperties.

Section CommandWitnesses.

Import JSNumber JSString Dom Runtime ContentAnalyzer.

Lemma report_lists_every_file_by_default_witness :
  (forall m, parseInt "101" = Some m -> 100 < m)
  /\ fst (Cli.print_results SampleSystem.sys (parseInt "101")
            (Array_sort Cli.by_score
               (fst (Cli.analyze_files Sample.host SampleSystem.sys false default_analyzer
                       SampleSystem.files [])))
            [])
     = 2%nat.
Proof.
  assert (H : forall m, parseInt "101" = Some m -> 100 < m).
  { intros m Hm. vm_compute in Hm. injection Hm as <-. lia. }
  split; [exact H|].
  rewrite (proj2 (report_lists_every_file_by_default Sample.host SampleSystem.sys false
                    default_analyzer SampleSystem.files [] [] "101" H)).
  reflexivity.
Defined.

Lemma summary_average_in_range_witness :
  Z.of_nat (List.length SampleSystem.files) < 2 ^ 32
  /\ 0 <= Cli.average
            (Array_sort Cli.by_score
               (fst (Cli.analyze_files Sample.host SampleSystem.sys false default_analyzer
                       SampleSystem.files [])))
       <= 100.
Proof.
  assert (H : Z.of_nat (List.length SampleSystem.files) < 2 ^ 32) by (vm_compute; reflexivity).
  split; [exact H|].
  exact (proj1 (summary_average_in_range Sample.host SampleSystem.sys false default_analyzer
                  SampleSystem.files [] H)).
Defined.

Lemma action_json_prints_one_line_witness :
  Cli.opt_json SampleSystem.json_options = true
  /\ Cli.action Sample.host SampleSystem.sys SampleSystem.json_options = Some ["1"%string].
Proof.
  split; [reflexivity|].
  rewrite (action_json_prints_one_line Sample.host SampleSystem.sys SampleSystem.json_options
             eq_refl).
  reflexivity.
Defined.

Lemma action_report_layout_witness :
  Cli.opt_json SampleSystem.default_options = false
  /\ Cli.files_of SampleSystem.sys SampleSystem.default_options = Some ["a.html"%string]
  /\ ["a.html"%string] <> []
  /\ List.length
       (Cli.summary SampleSystem.sys
          (Array_sort Cli.by_score
             (fst (Cli.analyze_files Sample.host SampleSystem.sys false default_analyzer
                     ["a.html"%string] [])))
          [])
     = 5%nat.
Proof.
  assert (Hne : ["a.html"%string] <> []) by discriminate.
  split; [reflexivity|]. split; [reflexivity|]. split; [exact Hne|].
  exact (proj1 (action_report_layout Sample.host SampleSystem.sys SampleSystem.default_options
                  ["a.html"%string] eq_refl eq_refl Hne)).
Defined.

Lemma walk_skips_hidden_directories_witness :
  hidden "node_modules" = true
  /\ Cli.walk SampleSystem.sys Cli.SUPPORTED_EXTENSIONS "."
       [Cli.IsFile "a.html"; Cli.IsDirectory "node_modules" [Cli.IsFile "b.html"]]
     = ["./a.html"%string].
Proof.
  split; [reflexivity|].
  etransitivity.
  - exact (walk_skips_hidden_directories SampleSystem.sys Cli.SUPPORTED_EXTENSIONS "."
             [Cli.IsFile "a.html"] [] "node_modules" [Cli.IsFile "b.html"] eq_refl).
  - reflexivity.
Defined.

Lemma walk_finds_supported_files_only_witness :
  In "./a.html"%string
    (Cli.walk SampleSystem.sys Cli.SUPPORTED_EXTENSIONS "."
       [Cli.IsFile "notes.txt"; Cli.IsFile "a.html"])
  /\ exists dir file,
       "./a.html"%string = Cli.path_join SampleSystem.sys dir file
       /\ supported SampleSystem.sys Cli.SUPPORTED_EXTENSIONS file = true.
Proof.
  assert (H : In "./a.html"%string
                (Cli.walk SampleSystem.sys Cli.SUPPORTED_EXTENSIONS "."
                   [Cli.IsFile "notes.txt"; Cli.IsFile "a.html"]))
    by (left; reflexivity).
  split; [exact H|].
  exact (walk_finds_supported_files_only SampleSystem.sys Cli.SUPPORTED_EXTENSIONS "."
           [Cli.IsFile "notes.txt"; Cli.IsFile "a.html"] "./a.html" H).
Defined.

End CommandWitnesses.
